(** * subtyl-socket: a shallow embedding of the handshake and its utilities

    The development follows the TypeScript sources:
    - [crypto-utils.ts]   : [HKDF], [SecureRandom], [constantTimeCompare],
                            [createContextInfo], [encrypt], [decrypt];
    - [SecureProvider.ts] : the initiator of the four-message handshake;
    - [SecureConsumer.ts] : the responder;
    - [BaseEncryptionPlugin.ts] / [MessageEncryptionPlugin.ts] : the
      post-handshake envelope.

    What Node and the JavaScript engine provide (HMAC-SHA-256, ECDH on P-256,
    base64, JSON) is an interface, [Runtime]; the program is written once over
    that interface and run at the end on a reference instance. *)

From Stdlib Require Import Strings.String Strings.Ascii Strings.Byte NArith ZArith Lia Bool.
From Stdlib Require Import Numbers.DecimalString.
From stdpp Require Import list.
Import ListNotations.

Set Warnings "-register-all".

Local Open Scope string_scope.
Local Open Scope list_scope.

(** ** Buffers *)

(** A Node [Buffer] is a sequence of octets. *)
Abbreviation Buffer := (list byte).

Definition byte_of_N (n : N) : byte :=
  match Byte.of_N (n mod 256) with
  | Some b => b
  | None => x00
  end.

(** [Buffer.from([i])]: one octet, the number reduced modulo 256. *)
Definition byte_of_Z (z : Z) : byte := byte_of_N (Z.to_N (z mod 256)).

(** [Buffer.alloc(n)] and the result of [buf.fill(0)]. *)
Definition zeros (n : nat) : Buffer := repeat x00 n.

(** [buf.subarray(0, end)] for an integer [end]: a negative [end] counts from
    the end of the buffer, and the range is clamped to the buffer. *)
Definition subarray0 (b : Buffer) (end_ : Z) : Buffer :=
  let len := Z.of_nat (length b) in
  let e := if (end_ <? 0)%Z then Z.max 0 (len + end_) else Z.min end_ len in
  firstn (Z.to_nat e) b.

(** [buf.every(byte => byte === v)] *)
Definition every_eq (v : byte) (b : Buffer) : bool :=
  forallb (fun x => Byte.eqb x v) b.

(** An index argument of [subarray], relative to a buffer of [len] octets: a
    negative index counts from the end, and the result is clamped to
    [0 .. len]. *)
Definition relative_index (len i : Z) : Z :=
  if (i <? 0)%Z then Z.max 0 (len + i) else Z.min i len.

(** [buf.subarray(start, end)] for integers; the range is empty when [end]
    falls before [start]. *)
Definition subarray (b : Buffer) (start end_ : Z) : Buffer :=
  let len := Z.of_nat (length b) in
  let s := relative_index len start in
  let e := relative_index len end_ in
  firstn (Z.to_nat (e - s)) (skipn (Z.to_nat s) b).

(** [buf.subarray(start)]: to the end of the buffer. *)
Definition subarray_from (b : Buffer) (start : Z) : Buffer :=
  subarray b start (Z.of_nat (length b)).

(** ** JavaScript values, exceptions *)

Inductive json : Type :=
| JNull
| JBool (b : bool)
| JNum (n : Z)
| JStr (s : string)
| JArr (items : list json)
| JObj (fields : list (string * json)).

(** A thrown value. [Error msg] is [new Error(msg)]; [TypeError] stands for
    the engine's own errors (reading a property of [null], [Buffer.from] on a
    value that is not a string, calling what is not a function), whose
    message text belongs to the engine. *)
Inductive exn : Type :=
| Error (msg : string)
| TypeError.

Definition message (e : exn) : string :=
  match e with
  | Error msg => msg
  | TypeError => "TypeError"
  end.

Definition result (A : Type) : Type := (exn + A)%type.
Definition ok {A} (a : A) : result A := inr a.
Definition throw {A} (e : exn) : result A := inl e.

Fixpoint assoc (k : string) (fs : list (string * json)) : option json :=
  match fs with
  | [] => None
  | (k', v) :: fs' => if String.eqb k k' then Some v else assoc k fs'
  end.

(** [v.k] for a parsed value [v]: [None] is [undefined]. Reading a property
    of [null] throws; numbers, booleans, strings and arrays have none of the
    properties the program reads. *)
Definition getProp (v : json) (k : string) : result (option json) :=
  match v with
  | JNull => throw TypeError
  | JObj fs => ok (assoc k fs)
  | _ => ok None
  end.

(** [x === s] for a string [s]. *)
Definition strict_eq_str (x : option json) (s : string) : bool :=
  match x with
  | Some (JStr t) => String.eqb t s
  | _ => false
  end.

(** [x === n] for an integer [n]. *)
Definition strict_eq_num (x : option json) (n : Z) : bool :=
  match x with
  | Some (JNum m) => Z.eqb m n
  | _ => false
  end.

(** ToBoolean. *)
Definition truthy (x : option json) : bool :=
  match x with
  | None => false
  | Some JNull => false
  | Some (JBool b) => b
  | Some (JNum n) => negb (Z.eqb n 0)
  | Some (JStr s) => negb (String.eqb s EmptyString)
  | Some (JArr _) => true
  | Some (JObj _) => true
  end.

(** [typeof x === 'object'] *)
Definition typeof_object (x : json) : bool :=
  match x with
  | JNull | JArr _ | JObj _ => true
  | _ => false
  end.

(** Is [sub] a substring of [s] ([String.prototype.includes])? *)
Definition str_includes (s sub : string) : bool :=
  match String.index 0 sub s with
  | Some _ => true
  | None => false
  end.

(** [x?.includes(s)], then ToBoolean: [undefined] and [null] short-circuit to
    [undefined]; an array is searched with strict equality, a string for a
    substring; any other value has no [includes] and the call throws. *)
Definition opt_includes (x : option json) (s : string) : result bool :=
  match x with
  | None | Some JNull => ok false
  | Some (JArr items) => ok (existsb (fun i => strict_eq_str (Some i) s) items)
  | Some (JStr t) => ok (str_includes t s)
  | Some _ => throw TypeError
  end.

(** ** The runtime interface *)

Class Runtime : Type := {
  (** [createHmac('sha256', key).update(data).digest()] *)
  hmac_sha256 : Buffer -> Buffer -> Buffer;
  (** the object made by [createECDH('prime256v1')] after [generateKeys()] *)
  ECDH : Type;
  getPublicKey : ECDH -> Buffer;
  (** [computeSecret] throws on a public key it rejects *)
  computeSecret : ECDH -> Buffer -> option Buffer;
  (** [buf.toString('base64')] and [Buffer.from(s, 'base64')] *)
  toBase64 : Buffer -> string;
  fromBase64 : string -> Buffer;
  JSON_parse : string -> option json;
  JSON_stringify : json -> string
}.

(** What the handshake relies on: the digest has 32 octets, and base64
    decodes what it encoded. *)
Class RuntimeLaws (rt : Runtime) : Prop := {
  hmac_sha256_length : forall key data, length (hmac_sha256 key data) = 32%nat;
  base64_roundtrip : forall b, fromBase64 (toBase64 b) = b
}.

(** [Buffer.from(x, 'base64')] for a message field [x]. Only strings are
    decoded here; [undefined], [null], numbers and booleans make [Buffer.from]
    throw, and array-like fields are outside this model. *)
Definition Buffer_from_base64 `{Runtime} (x : option json) : result Buffer :=
  match x with
  | Some (JStr s) => ok (fromBase64 s)
  | _ => throw TypeError
  end.

(** ** crypto-utils.ts *)

Module HKDF.
Section WithRuntime.
Context `{rt : Runtime}.

Definition hashLen : Z := 32.

Definition extract (salt ikm : Buffer) : Buffer := hmac_sha256 salt ikm.

(** The body of [for (let i = 1; i <= n; i++)], run [k] more times from
    counter [i], previous block [t] and accumulated [result]. The three
    [hmac.update] calls feed [t], [info] and the counter octet in turn. *)
Fixpoint expand_loop (prk info : Buffer) (k : nat) (i : Z) (t : Buffer)
         (result : list Buffer) : list Buffer :=
  match k with
  | O => result
  | S k' =>
      let t' := hmac_sha256 prk (t ++ info ++ [byte_of_Z i]) in
      expand_loop prk info k' (i + 1) t' (result ++ [t'])
  end.

(** [Math.ceil(length / hashLen)] on integers. *)
Definition ceil_div (a b : Z) : Z := (- ((- a) / b))%Z.

Definition expand (prk info : Buffer) (length : Z) : result Buffer :=
  let n := ceil_div length hashLen in
  if (n >? 255)%Z then throw (Error "HKDF: requested length too large")
  else
    let result := expand_loop prk info (Z.to_nat n) 1 [] [] in
    ok (subarray0 (concat result) length).

Definition derive (ikm salt info : Buffer) (length : Z) : result Buffer :=
  let prk := extract salt ikm in
  expand prk info length.

(** RFC 5869, section 2.3, in the spec's words:
    [T(0)] is empty and [T(i) = HMAC(PRK, T(i-1) || info || byte(i))]. *)
Fixpoint T (prk info : Buffer) (i : nat) : Buffer :=
  match i with
  | O => []
  | S j => hmac_sha256 prk (T prk info j ++ info ++ [byte_of_Z (Z.of_nat i)])
  end.

(** [T(1) || T(2) || ... || T(n)], truncated to [L] octets. *)
Definition rfc5869_okm (prk info : Buffer) (n L : nat) : Buffer :=
  firstn L (concat (map (T prk info) (seq 1 n))).

End WithRuntime.
End HKDF.

Module SecureRandom.

(** [bytes(length)], given the buffer that [randomBytes(length)] returned. *)
Definition bytes_of (drawn : Buffer) : result Buffer :=
  let isAllZeros := every_eq x00 drawn in
  let isAllOnes := every_eq xff drawn in
  if isAllZeros || isAllOnes
  then throw (Error "Insufficient entropy detected in random generation")
  else ok drawn.

(** [bytes]: [randomBytes] is the CSPRNG, asked once. *)
Definition bytes (randomBytes : nat -> Buffer) (length : nat) : result Buffer :=
  bytes_of (randomBytes length).

Definition base64 `{Runtime} (randomBytes : nat -> Buffer) (length : nat)
  : result string :=
  match bytes randomBytes length with
  | inl e => throw e
  | inr b => ok (toBase64 b)
  end.

End SecureRandom.

(** [a[i] || 0]: the octet at [i] as a number, [0] past the end. *)
Definition at_or_0 (a : Buffer) (i : nat) : N :=
  match a !! i with
  | Some x => Byte.to_N x
  | None => 0%N
  end.

(** The loop of [constantTimeCompare] over the indices [0 .. a.length - 1]. *)
Definition ctc_loop (a b : Buffer) (idx : list nat) (result : N) : N :=
  fold_left (fun r i => N.lor r (N.lxor (at_or_0 a i) (at_or_0 b i))) idx result.

Definition constantTimeCompare (a b : Buffer) : bool :=
  if negb (Nat.eqb (length a) (length b)) then false
  else N.eqb (ctc_loop a b (seq 0 (length a)) 0%N) 0%N.

(** [Buffer.from(context, 'utf8')] for the ASCII labels of the program. *)
Definition utf8 (s : string) : Buffer := list_byte_of_string s.

Definition createContextInfo (context : string) (version : Z) : Buffer :=
  let contextBuffer := utf8 context in
  let versionBuffer := [byte_of_Z version] in
  let lengthBuffer := [byte_of_Z (Z.of_nat (length contextBuffer))] in
  lengthBuffer ++ contextBuffer ++ versionBuffer.

(** ** Objects, the buffer store and the state-and-exception monad *)

(** Buffers held in an object's fields are shared, mutable objects: a field
    holds a reference, [fill(0)] writes through it, and whoever holds the same
    reference sees the zeros. *)
Abbreviation ref := nat (only parsing).
Abbreviation Heap := (list (list byte)).

Definition deref (h : Heap) (r : ref) : Buffer := default [] (h !! r).

Record World (S : Type) : Type := mkWorld { heap : Heap; this : S }.
Arguments mkWorld {S} _ _.
Arguments heap {S} _.
Arguments this {S} _.

(** A method body: it runs on the object and its store, returns or throws,
    and keeps whatever it had written before a throw. *)
Definition M (S A : Type) : Type := World S -> result A * World S.

Definition ret {S A} (a : A) : M S A := fun w => (ok a, w).

Definition bind {S A B} (m : M S A) (k : A -> M S B) : M S B :=
  fun w =>
    match m w with
    | (inl e, w') => (inl e, w')
    | (inr a, w') => k a w'
    end.

Definition throwM {S A} (e : exn) : M S A := fun w => (throw e, w).

Definition lift {S A} (r : result A) : M S A := fun w => (r, w).

(** [try { body } catch (error) { handler(error) }] *)
Definition try_catch {S A} (body : M S A) (handler : exn -> M S A) : M S A :=
  fun w =>
    match body w with
    | (inl e, w') => handler e w'
    | (inr a, w') => (inr a, w')
    end.

Definition get {S} : M S S := fun w => (ok (this w), w).

Definition modify {S} (f : S -> S) : M S unit :=
  fun w => (ok tt, mkWorld (heap w) (f (this w))).

(** A new Buffer object holding [b]. *)
Definition alloc {S} (b : Buffer) : M S ref :=
  fun w => (ok (length (heap w)), mkWorld (heap w ++ [b]) (this w)).

Definition read {S} (r : ref) : M S Buffer :=
  fun w => (ok (deref (heap w) r), w).

(** Using [undefined] where a Buffer is needed throws. *)
Definition read_opt {S} (r : option ref) : M S Buffer :=
  match r with
  | Some r => read r
  | None => throwM TypeError
  end.

(** [buf.fill(0)] *)
Definition fill0 {S} (r : ref) : M S unit :=
  fun w => (ok tt, mkWorld (alter (fun b => zeros (length b)) r (heap w)) (this w)).

Declare Scope js_scope.
Delimit Scope js_scope with js.
Notation "x <- m ;; k" := (bind m (fun x => k))
  (at level 100, m at next level, right associativity) : js_scope.
Notation "m ;; k" := (bind m (fun _ => k))
  (at level 100, right associativity) : js_scope.
Local Open Scope js_scope.

(** [if (c) throw e;] *)
Definition throw_if {S} (c : bool) (e : exn) : M S unit :=
  if c then throwM e else ret tt.

(** The message handed to a peer: a string, which is parsed, or a value. *)
Inductive Raw : Type :=
| RawString (s : string)
| RawValue (v : json).

Definition _normalizeMessage `{Runtime} {S} (raw : Raw) : M S json :=
  match raw with
  | RawString s =>
      match JSON_parse s with
      | Some v => ret v
      | None => throwM (Error "Invalid message format")
      end
  | RawValue v => ret v
  end.

(** [computeSecret] on a key it rejects. *)
Definition ERR_CRYPTO_ECDH_INVALID_PUBLIC_KEY : exn :=
  Error "Public key is not valid for specified curve".

(** The three derived keys, as the [derivedKeys] object holds them. *)
Module Derived.
Record keys : Type := mk {
  encryptionKey : ref;
  authenticationKey : ref;
  confirmationKey : ref
}.
End Derived.

(** What [getDerivedKeys] hands out: [{ encryptionKey, authenticationKey }],
    the same Buffer objects as in [derivedKeys]. *)
Module Exposed.
Record keys : Type := mk {
  encryptionKey : ref;
  authenticationKey : ref
}.
End Exposed.

(** An object literal with a property that may be [undefined]. *)
Definition prop_opt (k : string) (v : option json) : list (string * json) :=
  match v with
  | Some x => [(k, x)]
  | None => []
  end.

(** ** SecureProvider.ts *)

Module SecureProvider.

Record HandshakeState : Type := mkHandshakeState {
  sessionId : string;
  providerNonce : ref;
  consumerNonce : option ref;
  sharedSecret : option ref;
  derivedKeys : option Derived.keys;
  confirmed : bool
}.

(** The object: [E] is the type of its [ecdh] field. *)
Record t (E : Type) : Type := mkT {
  ecdh : E;
  handshakeState : HandshakeState
}.
Arguments mkT {E} _ _.
Arguments ecdh {E} _.
Arguments handshakeState {E} _.

Definition set_consumerNonce {E} (v : option ref) (o : t E) : t E :=
  let s := handshakeState o in
  mkT (ecdh o) (mkHandshakeState (sessionId s) (providerNonce s) v
                  (sharedSecret s) (derivedKeys s) (confirmed s)).

Definition set_sharedSecret {E} (v : option ref) (o : t E) : t E :=
  let s := handshakeState o in
  mkT (ecdh o) (mkHandshakeState (sessionId s) (providerNonce s) (consumerNonce s)
                  v (derivedKeys s) (confirmed s)).

Definition set_derivedKeys {E} (v : option Derived.keys) (o : t E) : t E :=
  let s := handshakeState o in
  mkT (ecdh o) (mkHandshakeState (sessionId s) (providerNonce s) (consumerNonce s)
                  (sharedSecret s) v (confirmed s)).

Definition set_confirmed {E} (v : bool) (o : t E) : t E :=
  let s := handshakeState o in
  mkT (ecdh o) (mkHandshakeState (sessionId s) (providerNonce s) (consumerNonce s)
                  (sharedSecret s) (derivedKeys s) v).

(** What [handleResponse] returns. *)
Record Result : Type := mkResult {
  type : string;
  confirmed_ : bool;
  error : option string;
  confirmationMac : option string
}.

Definition getDerivedKeys {E} (o : t E) : option Exposed.keys :=
  if negb (confirmed (handshakeState o)) then None
  else match derivedKeys (handshakeState o) with
       | None => None
       | Some dk =>
           Some (Exposed.mk (Derived.encryptionKey dk) (Derived.authenticationKey dk))
       end.

Definition isHandshakeConfirmed {E} (o : t E) : bool := confirmed (handshakeState o).

Definition getSessionId {E} (o : t E) : string := sessionId (handshakeState o).

Section WithRuntime.
Context `{rt : Runtime}.

(** [constructor()]: [e] is the key pair after [generateKeys()]. *)
Definition new (e : ECDH) (randomBytes : nat -> Buffer) : result (World (t ECDH)) :=
  match SecureRandom.base64 randomBytes 16 with
  | inl x => throw x
  | inr sid =>
      match SecureRandom.bytes randomBytes 32 with
      | inl x => throw x
      | inr nonce =>
          ok (mkWorld [nonce]
                (mkT e (mkHandshakeState sid 0%nat None None None false)))
      end
  end.

Definition initMessage (sid : string) (publicKey nonce : Buffer) : json :=
  JObj [("type", JStr "handshake-init");
        ("version", JNum 1);
        ("sessionId", JStr sid);
        ("publicKey", JStr (toBase64 publicKey));
        ("providerNonce", JStr (toBase64 nonce));
        ("supportedCiphers", JArr [JStr "aes-256-gcm"]);
        ("supportedHashes", JArr [JStr "sha256"])].

(** [startHandshake(socket)]: the value is the text given to [socket.send]. *)
Definition startHandshake : M (t ECDH) string :=
  o <- get ;;
  nonce <- read (providerNonce (handshakeState o)) ;;
  ret (JSON_stringify
         (initMessage (sessionId (handshakeState o)) (getPublicKey (ecdh o)) nonce)).

Definition _deriveKeys : M (t ECDH) unit :=
  o <- get ;;
  match sharedSecret (handshakeState o), consumerNonce (handshakeState o) with
  | Some ss, Some cn =>
      sharedSecret_ <- read ss ;;
      providerNonce_ <- read (providerNonce (handshakeState o)) ;;
      consumerNonce_ <- read cn ;;
      let salt := providerNonce_ ++ consumerNonce_ in
      let encryptionInfo := createContextInfo "SubtylSocket-Encryption" 1 in
      let authInfo := createContextInfo "SubtylSocket-Authentication" 1 in
      let confirmationInfo := createContextInfo "SubtylSocket-KeyConfirmation" 1 in
      k1 <- lift (HKDF.derive sharedSecret_ salt encryptionInfo 32) ;;
      encryptionKey <- alloc k1 ;;
      k2 <- lift (HKDF.derive sharedSecret_ salt authInfo 32) ;;
      authenticationKey <- alloc k2 ;;
      k3 <- lift (HKDF.derive sharedSecret_ salt confirmationInfo 32) ;;
      confirmationKey <- alloc k3 ;;
      modify (set_derivedKeys
                (Some (Derived.mk encryptionKey authenticationKey confirmationKey)))
  | _, _ => throwM (Error "Cannot derive keys without shared secret and nonces")
  end.

Definition _processHandshakeResponse (data : json) : M (t ECDH) Result :=
  o <- get ;;
  sid <- lift (getProp data "sessionId") ;;
  throw_if (negb (strict_eq_str sid (sessionId (handshakeState o))))
           (Error "Session ID mismatch") ;;
  cn <- lift (getProp data "consumerNonce") ;;
  cnBuf <- lift (Buffer_from_base64 cn) ;;
  cnRef <- alloc cnBuf ;;
  modify (set_consumerNonce (Some cnRef)) ;;
  pk <- lift (getProp data "publicKey") ;;
  consumerPublicKey <- lift (Buffer_from_base64 pk) ;;
  match computeSecret (ecdh o) consumerPublicKey with
  | None => throwM ERR_CRYPTO_ECDH_INVALID_PUBLIC_KEY
  | Some secret =>
      ssRef <- alloc secret ;;
      modify (set_sharedSecret (Some ssRef)) ;;
      _deriveKeys ;;
      o' <- get ;;
      providerNonce_ <- read (providerNonce (handshakeState o')) ;;
      consumerNonce_ <- read_opt (consumerNonce (handshakeState o')) ;;
      let confirmationData :=
        providerNonce_ ++ consumerNonce_ ++ getPublicKey (ecdh o') ++ consumerPublicKey in
      key <- read_opt (option_map Derived.confirmationKey (derivedKeys (handshakeState o'))) ;;
      let confirmationMac := hmac_sha256 key confirmationData in
      ret (mkResult "send-confirmation" false None (Some (toBase64 confirmationMac)))
  end.

Definition _processKeyConfirmation (data : json) : M (t ECDH) Result :=
  o <- get ;;
  mac <- lift (getProp data "confirmationMac") ;;
  receivedMac <- lift (Buffer_from_base64 mac) ;;
  pk <- lift (getProp data "publicKey") ;;
  pkBuf <- lift (Buffer_from_base64 pk) ;;
  consumerNonce_ <- read_opt (consumerNonce (handshakeState o)) ;;
  providerNonce_ <- read (providerNonce (handshakeState o)) ;;
  let confirmationData :=
    consumerNonce_ ++ providerNonce_ ++ pkBuf ++ getPublicKey (ecdh o) in
  key <- read_opt (option_map Derived.confirmationKey (derivedKeys (handshakeState o))) ;;
  let expectedMac := hmac_sha256 key confirmationData in
  if constantTimeCompare receivedMac expectedMac then
    modify (set_confirmed true) ;;
    ret (mkResult "handshake-complete" true None None)
  else throwM (Error "Key confirmation failed - potential MITM attack").

Definition handleResponse (message_ : Raw) : M (t ECDH) Result :=
  try_catch
    (data <- _normalizeMessage message_ ;;
     ty <- lift (getProp data "type") ;;
     if strict_eq_str ty "handshake-response" then _processHandshakeResponse data
     else if strict_eq_str ty "key-confirmation" then _processKeyConfirmation data
     else ret (mkResult "error" false (Some "Unknown message type") None))
    (fun e => ret (mkResult "error" false (Some (message e)) None)).

Definition destroy : M (t ECDH) unit :=
  o <- get ;;
  match sharedSecret (handshakeState o) with
  | Some r => fill0 r
  | None => ret tt
  end ;;
  match derivedKeys (handshakeState o) with
  | Some dk =>
      fill0 (Derived.encryptionKey dk) ;;
      fill0 (Derived.authenticationKey dk) ;;
      fill0 (Derived.confirmationKey dk) ;;
      modify (set_derivedKeys None)
  | None => ret tt
  end ;;
  fill0 (providerNonce (handshakeState o)) ;;
  match consumerNonce (handshakeState o) with
  | Some r => fill0 r
  | None => ret tt
  end ;;
  modify (set_confirmed false).

End WithRuntime.
End SecureProvider.

(** ** SecureConsumer.ts *)

Module SecureConsumer.

(** [sessionId] holds whatever the init message carried, [undefined]
    included. *)
Record HandshakeState : Type := mkHandshakeState {
  sessionId : option json;
  providerNonce : option ref;
  consumerNonce : ref;
  sharedSecret : option ref;
  derivedKeys : option Derived.keys;
  confirmed : bool;
  providerPublicKey : option ref
}.

(** The object: [E] is the type of its [ecdh] field. *)
Record t (E : Type) : Type := mkT {
  ecdh : E;
  handshakeState : HandshakeState
}.
Arguments mkT {E} _ _.
Arguments ecdh {E} _.
Arguments handshakeState {E} _.

Definition set_sessionId {E} (v : option json) (o : t E) : t E :=
  let s := handshakeState o in
  mkT (ecdh o) (mkHandshakeState v (providerNonce s) (consumerNonce s)
                  (sharedSecret s) (derivedKeys s) (confirmed s) (providerPublicKey s)).

Definition set_providerNonce {E} (v : option ref) (o : t E) : t E :=
  let s := handshakeState o in
  mkT (ecdh o) (mkHandshakeState (sessionId s) v (consumerNonce s)
                  (sharedSecret s) (derivedKeys s) (confirmed s) (providerPublicKey s)).

Definition set_sharedSecret {E} (v : option ref) (o : t E) : t E :=
  let s := handshakeState o in
  mkT (ecdh o) (mkHandshakeState (sessionId s) (providerNonce s) (consumerNonce s)
                  v (derivedKeys s) (confirmed s) (providerPublicKey s)).

Definition set_derivedKeys {E} (v : option Derived.keys) (o : t E) : t E :=
  let s := handshakeState o in
  mkT (ecdh o) (mkHandshakeState (sessionId s) (providerNonce s) (consumerNonce s)
                  (sharedSecret s) v (confirmed s) (providerPublicKey s)).

Definition set_confirmed {E} (v : bool) (o : t E) : t E :=
  let s := handshakeState o in
  mkT (ecdh o) (mkHandshakeState (sessionId s) (providerNonce s) (consumerNonce s)
                  (sharedSecret s) (derivedKeys s) v (providerPublicKey s)).

Definition set_providerPublicKey {E} (v : option ref) (o : t E) : t E :=
  let s := handshakeState o in
  mkT (ecdh o) (mkHandshakeState (sessionId s) (providerNonce s) (consumerNonce s)
                  (sharedSecret s) (derivedKeys s) (confirmed s) v).

(** What [handleMessage] returns. *)
Record Result : Type := mkResult {
  type : string;
  response : option json;
  confirmed_ : bool;
  error : option string
}.

Definition getDerivedKeys {E} (o : t E) : option Exposed.keys :=
  if negb (confirmed (handshakeState o)) then None
  else match derivedKeys (handshakeState o) with
       | None => None
       | Some dk =>
           Some (Exposed.mk (Derived.encryptionKey dk) (Derived.authenticationKey dk))
       end.

Definition isHandshakeConfirmed {E} (o : t E) : bool := confirmed (handshakeState o).

Definition getSessionId {E} (o : t E) : option json := sessionId (handshakeState o).

Section WithRuntime.
Context `{rt : Runtime}.

(** [constructor()]: [e] is the key pair after [generateKeys()]. *)
Definition new (e : ECDH) (randomBytes : nat -> Buffer) : result (World (t ECDH)) :=
  match SecureRandom.bytes randomBytes 32 with
  | inl x => throw x
  | inr nonce =>
      ok (mkWorld [nonce]
            (mkT e (mkHandshakeState None None 0%nat None None false None)))
  end.

Definition _deriveKeys : M (t ECDH) unit :=
  o <- get ;;
  match sharedSecret (handshakeState o), providerNonce (handshakeState o) with
  | Some ss, Some pn =>
      sharedSecret_ <- read ss ;;
      providerNonce_ <- read pn ;;
      consumerNonce_ <- read (consumerNonce (handshakeState o)) ;;
      let salt := providerNonce_ ++ consumerNonce_ in
      let encryptionInfo := createContextInfo "SubtylSocket-Encryption" 1 in
      let authInfo := createContextInfo "SubtylSocket-Authentication" 1 in
      let confirmationInfo := createContextInfo "SubtylSocket-KeyConfirmation" 1 in
      k1 <- lift (HKDF.derive sharedSecret_ salt encryptionInfo 32) ;;
      encryptionKey <- alloc k1 ;;
      k2 <- lift (HKDF.derive sharedSecret_ salt authInfo 32) ;;
      authenticationKey <- alloc k2 ;;
      k3 <- lift (HKDF.derive sharedSecret_ salt confirmationInfo 32) ;;
      confirmationKey <- alloc k3 ;;
      modify (set_derivedKeys
                (Some (Derived.mk encryptionKey authenticationKey confirmationKey)))
  | _, _ => throwM (Error "Cannot derive keys without shared secret and nonces")
  end.

Definition responseMessage (sid : option json) (publicKey nonce : Buffer) : json :=
  JObj ([("type", JStr "handshake-response")]
        ++ prop_opt "sessionId" sid
        ++ [("publicKey", JStr (toBase64 publicKey));
            ("consumerNonce", JStr (toBase64 nonce));
            ("selectedCipher", JStr "aes-256-gcm");
            ("selectedHash", JStr "sha256")]).

Definition confirmationMessage (sid : option json) (publicKey mac : Buffer) : json :=
  JObj ([("type", JStr "key-confirmation")]
        ++ prop_opt "sessionId" sid
        ++ [("publicKey", JStr (toBase64 publicKey));
            ("confirmationMac", JStr (toBase64 mac))]).

Definition _processHandshakeInit (data : json) : M (t ECDH) Result :=
  version <- lift (getProp data "version") ;;
  throw_if (negb (strict_eq_num version 1)) (Error "Unsupported protocol version") ;;
  ciphers <- lift (getProp data "supportedCiphers") ;;
  hasCipher <- lift (opt_includes ciphers "aes-256-gcm") ;;
  (if negb hasCipher then throwM (Error "Unsupported cryptographic algorithms")
   else
     hashes <- lift (getProp data "supportedHashes") ;;
     hasHash <- lift (opt_includes hashes "sha256") ;;
     throw_if (negb hasHash) (Error "Unsupported cryptographic algorithms")) ;;
  sid <- lift (getProp data "sessionId") ;;
  modify (set_sessionId sid) ;;
  pn <- lift (getProp data "providerNonce") ;;
  pnBuf <- lift (Buffer_from_base64 pn) ;;
  pnRef <- alloc pnBuf ;;
  modify (set_providerNonce (Some pnRef)) ;;
  pk <- lift (getProp data "publicKey") ;;
  pkBuf <- lift (Buffer_from_base64 pk) ;;
  pkRef <- alloc pkBuf ;;
  modify (set_providerPublicKey (Some pkRef)) ;;
  o <- get ;;
  match computeSecret (ecdh o) pkBuf with
  | None => throwM ERR_CRYPTO_ECDH_INVALID_PUBLIC_KEY
  | Some secret =>
      ssRef <- alloc secret ;;
      modify (set_sharedSecret (Some ssRef)) ;;
      _deriveKeys ;;
      o' <- get ;;
      consumerNonce_ <- read (consumerNonce (handshakeState o')) ;;
      let response :=
        responseMessage (sessionId (handshakeState o')) (getPublicKey (ecdh o'))
                        consumerNonce_ in
      ret (mkResult "handshake-response" (Some response) false None)
  end.

Definition _processKeyConfirmationRequest (data : json) : M (t ECDH) Result :=
  o <- get ;;
  mac <- lift (getProp data "confirmationMac") ;;
  receivedMac <- lift (Buffer_from_base64 mac) ;;
  providerNonce_ <- read_opt (providerNonce (handshakeState o)) ;;
  consumerNonce_ <- read (consumerNonce (handshakeState o)) ;;
  providerPublicKey_ <- read_opt (providerPublicKey (handshakeState o)) ;;
  let confirmationData :=
    providerNonce_ ++ consumerNonce_ ++ providerPublicKey_ ++ getPublicKey (ecdh o) in
  key <- read_opt (option_map Derived.confirmationKey (derivedKeys (handshakeState o))) ;;
  let expectedMac := hmac_sha256 key confirmationData in
  throw_if (negb (constantTimeCompare receivedMac expectedMac))
           (Error "Provider key confirmation failed - potential MITM attack") ;;
  let ourConfirmationData :=
    consumerNonce_ ++ providerNonce_ ++ getPublicKey (ecdh o) ++ providerPublicKey_ in
  let ourConfirmationMac := hmac_sha256 key ourConfirmationData in
  modify (set_confirmed true) ;;
  let response :=
    confirmationMessage (sessionId (handshakeState o)) (getPublicKey (ecdh o))
                        ourConfirmationMac in
  ret (mkResult "key-confirmation" (Some response) true None).

Definition handleMessage (raw : Raw) : M (t ECDH) Result :=
  try_catch
    (data <- _normalizeMessage raw ;;
     ty <- lift (getProp data "type") ;;
     if strict_eq_str ty "handshake-init" then _processHandshakeInit data
     else if strict_eq_str ty "key-confirmation-request"
          then _processKeyConfirmationRequest data
     else ret (mkResult "error" None false (Some "Unknown message type")))
    (fun e => ret (mkResult "error" None false (Some (message e)))).

Definition destroy : M (t ECDH) unit :=
  o <- get ;;
  match sharedSecret (handshakeState o) with
  | Some r => fill0 r
  | None => ret tt
  end ;;
  match derivedKeys (handshakeState o) with
  | Some dk =>
      fill0 (Derived.encryptionKey dk) ;;
      fill0 (Derived.authenticationKey dk) ;;
      fill0 (Derived.confirmationKey dk) ;;
      modify (set_derivedKeys None)
  | None => ret tt
  end ;;
  fill0 (consumerNonce (handshakeState o)) ;;
  match providerNonce (handshakeState o) with
  | Some r => fill0 r
  | None => ret tt
  end ;;
  modify (set_confirmed false).

End WithRuntime.
End SecureConsumer.

(** ** BaseEncryptionPlugin.ts *)

(** ToString, as a template literal applies it. *)
Fixpoint js_toString (v : json) : string :=
  match v with
  | JNull => "null"
  | JBool true => "true"
  | JBool false => "false"
  | JNum n => NilZero.string_of_int (Z.to_int n)
  | JStr s => s
  | JArr items =>
      String.concat ","
        (map (fun i => match i with JNull => EmptyString | _ => js_toString i end) items)
  | JObj _ => "[object Object]"
  end.

Definition js_toString_opt (x : option json) : string :=
  match x with
  | Some v => js_toString v
  | None => "undefined"
  end.

Module BaseEncryptionPlugin.

Record EncryptionKeys : Type := mkKeys {
  encryptionKey : Buffer;
  authenticationKey : Buffer
}.

Record t : Type := mkT {
  keys : option EncryptionKeys;
  enabled : bool;
  algorithmName : string
}.

(** [{ type, payload }], the non-null result of [unwrapMessage]. *)
Record Unwrapped : Type := mkUnwrapped {
  type : json;
  payload : json
}.

Definition new (algorithmName : string) (keys : option EncryptionKeys) : t :=
  match keys with
  | Some k => mkT (Some k) true algorithmName
  | None => mkT None false algorithmName
  end.

Definition setKeys (k : EncryptionKeys) (o : t) : t :=
  mkT (Some k) true (algorithmName o).

Definition setEnabled (e : bool) (o : t) : t :=
  mkT (keys o) e (algorithmName o).

Definition isEnabled (o : t) : bool :=
  enabled o && match keys o with Some _ => true | None => false end.

Definition getAlgorithmName (o : t) : string := algorithmName o.

Section WithRuntime.
Context `{rt : Runtime}.

(** The abstract method [decrypt(_encrypted)] of the class. *)
Variable decrypt : json -> M t string.

Definition parseM (s : string) : M t json :=
  match JSON_parse s with
  | Some v => ret v
  | None => throwM (Error "SyntaxError")
  end.

(** [processIncomingMessage(rawMessage)]; [messageStr] is
    [rawMessage.toString()]. *)
Definition processIncomingMessage (messageStr : string) : M t json :=
  try_catch
    (parsed <- parseM messageStr ;;
     ty <- lift (getProp parsed "type") ;;
     encrypted <- lift (getProp parsed "encrypted") ;;
     if strict_eq_str ty "encrypted-plugin-message" && truthy encrypted then
       o <- get ;;
       throw_if (negb (isEnabled o))
                (Error "Received encrypted message but encryption not enabled") ;;
       algorithm <- lift (getProp parsed "algorithm") ;;
       throw_if (truthy algorithm && negb (strict_eq_str algorithm (algorithmName o)))
                (Error ("Algorithm mismatch: expected " ++ algorithmName o
                        ++ ", got " ++ js_toString_opt algorithm)) ;;
       decrypted <- decrypt (default JNull encrypted) ;;
       parseM decrypted
     else ret parsed)
    (fun _ => ret (JStr messageStr)).

(** [unwrapMessage(rawMessage)]: [None] is [null]. *)
Definition unwrapMessage (messageStr : string) : M t (option Unwrapped) :=
  try_catch
    (processed <- processIncomingMessage messageStr ;;
     if typeof_object processed then
       ty <- lift (getProp processed "type") ;;
       if truthy ty then
         payload_ <- lift (getProp processed "payload") ;;
         ret (Some (mkUnwrapped (default JNull ty)
                      (if truthy payload_ then default JNull payload_ else processed)))
       else ret None
     else ret None)
    (fun _ => ret None).

(** The abstract method [encrypt(_plaintext)] of the class; it returns the
    [EncryptionResult] object. *)
Variable encrypt : string -> M t json.

(** [typeof message === 'string' ? message : JSON.stringify(message)] *)
Definition messageStr_of (message_ : json) : string :=
  match message_ with
  | JStr s => s
  | _ => JSON_stringify message_
  end.

(** The [pluginMessage] object of [processOutgoingMessage]. *)
Definition pluginMessage (algorithm : string) (encrypted : json) : json :=
  JObj [("type", JStr "encrypted-plugin-message");
        ("algorithm", JStr algorithm);
        ("payload", JNull);
        ("encrypted", encrypted)].

Definition processOutgoingMessage (message_ : json) : M t string :=
  o <- get ;;
  if negb (isEnabled o) then ret (messageStr_of message_)
  else
    let messageStr := messageStr_of message_ in
    encrypted <- encrypt messageStr ;;
    o' <- get ;;
    ret (JSON_stringify (pluginMessage (algorithmName o') encrypted)).

(** [wrapMessage(type, payload, encrypt)]; a [payload] that is [undefined]
    leaves the property out of the text. *)
Definition wrapMessage (type_ : string) (payload_ : option json) (encrypt_ : bool)
  : M t string :=
  let message_ := JObj ([("type", JStr type_)] ++ prop_opt "payload" payload_) in
  o <- get ;;
  if encrypt_ && isEnabled o then processOutgoingMessage message_
  else ret (JSON_stringify message_).

End WithRuntime.
End BaseEncryptionPlugin.

(** ** MessageEncryptionPlugin.ts *)

Module MessageEncryptionPlugin.
Import BaseEncryptionPlugin.
Section WithRuntime.
Context `{rt : Runtime}.

(** [createDecipheriv('aes-256-gcm', key, iv)], [setAuthTag(tag)],
    [update(ciphertext)] and [final()] together: the plaintext, or nothing
    when any of them throws (a tag that does not verify, a bad length). *)
Variable aes_256_gcm_open : Buffer -> Buffer -> Buffer -> Buffer -> option string.

(** [x?.k] *)
Definition getProp_opt (x : option json) (k : string) : option json :=
  match x with
  | Some (JObj fs) => assoc k fs
  | _ => None
  end.

Definition decrypt (encrypted : json) : M t string :=
  o <- get ;;
  match keys o with
  | None => throwM (Error "Encryption keys not set")
  | Some k =>
      metadata <- lift (getProp encrypted "metadata") ;;
      let iv_ := getProp_opt metadata "iv" in
      let tag_ := getProp_opt metadata "tag" in
      throw_if (negb (truthy iv_) || negb (truthy tag_))
               (Error "Missing required metadata for AES-GCM decryption") ;;
      iv <- lift (Buffer_from_base64 iv_) ;;
      data <- lift (getProp encrypted "data") ;;
      ciphertext <- lift (Buffer_from_base64 data) ;;
      tag <- lift (Buffer_from_base64 tag_) ;;
      match aes_256_gcm_open (encryptionKey k) iv ciphertext tag with
      | Some plaintext => ret plaintext
      | None => throwM (Error "Unsupported state or unable to authenticate data")
      end
  end.

Definition new (k : option EncryptionKeys) : t :=
  BaseEncryptionPlugin.new "aes-256-gcm" k.

(** [createCipheriv('aes-256-gcm', key, iv)], [update(plaintext, 'utf8')],
    [final()] and [getAuthTag()] together: the ciphertext and the tag, or the
    error [createCipheriv] throws on a key or an iv it rejects. *)
Variable aes_256_gcm_seal : Buffer -> Buffer -> string -> result (Buffer * Buffer).

(** The [AESGCMResult] object. *)
Definition AESGCMResult (ciphertext iv tag : Buffer) : json :=
  JObj [("data", JStr (toBase64 ciphertext));
        ("metadata", JObj [("iv", JStr (toBase64 iv)); ("tag", JStr (toBase64 tag))])].

(** [encrypt(plaintext)]; [randomBytes] is the CSPRNG, asked once for the
    96-bit iv. *)
Definition encrypt (randomBytes : nat -> Buffer) (plaintext : string) : M t json :=
  o <- get ;;
  match keys o with
  | None => throwM (Error "Encryption keys not set")
  | Some k =>
      let iv := randomBytes 12%nat in
      match aes_256_gcm_seal (encryptionKey k) iv plaintext with
      | inl e => throwM e
      | inr (ciphertext, tag) => ret (AESGCMResult ciphertext iv tag)
      end
  end.

End WithRuntime.
End MessageEncryptionPlugin.

(** ** A reference runtime *)

(** SHA-256 (FIPS 180-4) on 32-bit words held in [N]. *)
Module SHA256.
Local Open Scope N_scope.

Definition mask32 : N := 0xffffffff.
Definition add32 (a b : N) : N := N.land (a + b) mask32.
Definition rotr (n x : N) : N :=
  N.lor (N.shiftr x n) (N.land (N.shiftl x (32 - n)) mask32).
Definition not32 (x : N) : N := N.lxor x mask32.

Definition Ch (x y z : N) : N := N.lxor (N.land x y) (N.land (not32 x) z).
Definition Maj (x y z : N) : N :=
  N.lxor (N.lxor (N.land x y) (N.land x z)) (N.land y z).
Definition Sigma0 (x : N) : N := N.lxor (N.lxor (rotr 2 x) (rotr 13 x)) (rotr 22 x).
Definition Sigma1 (x : N) : N := N.lxor (N.lxor (rotr 6 x) (rotr 11 x)) (rotr 25 x).
Definition sigma0 (x : N) : N := N.lxor (N.lxor (rotr 7 x) (rotr 18 x)) (N.shiftr x 3).
Definition sigma1 (x : N) : N := N.lxor (N.lxor (rotr 17 x) (rotr 19 x)) (N.shiftr x 10).

(** The first [k] primes. *)
Definition is_prime (n : N) : bool :=
  (1 <? n) && forallb (fun d => negb (n mod N.of_nat d =? 0)) (seq 2 (N.to_nat (N.sqrt n) - 1)).

Definition first_primes (k : nat) : list N :=
  take k (filter (fun n => Is_true (is_prime n)) (map N.of_nat (seq 2 400))).

(** The integer cube root of [n < 2 ^ 108], found bit by bit. *)
Definition cbrt (n : N) : N :=
  fold_left (fun r b => let c := r + 2 ^ N.of_nat b in
                        if c * c * c <=? n then c else r)
            (rev (seq 0 36)) 0.

(** The first 32 bits of the fractional part of a cube root, of a square
    root. *)
Definition frac_cbrt (n : N) : N := N.land (cbrt (n * 2 ^ 96)) mask32.
Definition frac_sqrt (n : N) : N := N.land (N.sqrt (n * 2 ^ 64)) mask32.

(** The round constants: from the cube roots of the first 64 primes. *)
Definition K : list N := Eval vm_compute in map frac_cbrt (first_primes 64).

(** The chaining value: eight words. *)
Record state : Type := mkState {
  ha : N; hb : N; hc : N; hd : N; he : N; hf : N; hg : N; hh : N
}.

(** The initial value: from the square roots of the first 8 primes. *)
Definition H0 : state :=
  Eval vm_compute in
    match map frac_sqrt (first_primes 8) with
    | [a; b; c; d; e; f; g; h] => mkState a b c d e f g h
    | _ => mkState 0 0 0 0 0 0 0 0
    end.

(** Big-endian words of a block. *)
Fixpoint words (b : list N) : list N :=
  match b with
  | b3 :: b2 :: b1 :: b0 :: rest =>
      (b3 * 16777216 + b2 * 65536 + b1 * 256 + b0) :: words rest
  | _ => []
  end.

(** The message schedule, most recent word first: [k] more words. *)
Fixpoint schedule (k : nat) (w : list N) : list N :=
  match k with
  | O => w
  | S k' =>
      let x := add32 (add32 (sigma1 (nth 1 w 0)) (nth 6 w 0))
                     (add32 (sigma0 (nth 14 w 0)) (nth 15 w 0)) in
      schedule k' (x :: w)
  end.

Definition round (s : state) (kw : N * N) : state :=
  let t1 := add32 (add32 (add32 (hh s) (Sigma1 (he s))) (Ch (he s) (hf s) (hg s)))
                  (add32 (fst kw) (snd kw)) in
  let t2 := add32 (Sigma0 (ha s)) (Maj (ha s) (hb s) (hc s)) in
  mkState (add32 t1 t2) (ha s) (hb s) (hc s) (add32 (hd s) t1) (he s) (hf s) (hg s).

Definition compress (s : state) (block : list N) : state :=
  let w := rev (schedule 48 (rev (words block))) in
  let s' := fold_left round (combine K w) s in
  mkState (add32 (ha s) (ha s')) (add32 (hb s) (hb s')) (add32 (hc s) (hc s'))
          (add32 (hd s) (hd s')) (add32 (he s) (he s')) (add32 (hf s) (hf s'))
          (add32 (hg s) (hg s')) (add32 (hh s) (hh s')).

(** [n] as [k] big-endian octets. *)
Fixpoint be (k : nat) (n : N) : list N :=
  match k with
  | O => []
  | S k' => be k' (n / 256) ++ [n mod 256]
  end.

Definition pad (len : nat) : list N :=
  let l := N.of_nat len in
  let z := (119 - l mod 64) mod 64 in
  128 :: repeat 0 (N.to_nat z) ++ be 8 (8 * l).

(** The blocks of a padded message: [k] blocks of 64 octets. *)
Fixpoint blocks (k : nat) (m : list N) : list (list N) :=
  match k with
  | O => []
  | S k' => firstn 64 m :: blocks k' (skipn 64 m)
  end.

Definition digest_words (s : state) : list N :=
  be 4 (ha s) ++ be 4 (hb s) ++ be 4 (hc s) ++ be 4 (hd s)
  ++ be 4 (he s) ++ be 4 (hf s) ++ be 4 (hg s) ++ be 4 (hh s).

Definition sha256 (m : Buffer) : Buffer :=
  let padded := map Byte.to_N m ++ pad (length m) in
  let s := fold_left compress (blocks (length padded / 64) padded) H0 in
  map byte_of_N (digest_words s).

End SHA256.

(** HMAC (RFC 2104) over SHA-256, block size 64. *)
Module HMAC.

Definition xor_pad (p : N) (key : Buffer) : Buffer :=
  map (fun b => byte_of_N (N.lxor (Byte.to_N b) p)) key.

Definition block_key (key : Buffer) : Buffer :=
  let k := if Nat.ltb 64 (length key) then SHA256.sha256 key else key in
  k ++ repeat x00 (64 - length k).

Definition hmac_sha256 (key data : Buffer) : Buffer :=
  let k := block_key key in
  SHA256.sha256 (xor_pad 0x5c k ++ SHA256.sha256 (xor_pad 0x36 k ++ data)).

End HMAC.

(** Lower-case hexadecimal, in which the test vectors are printed. *)
Module Hex.

Definition digit (n : N) : ascii :=
  match String.get (N.to_nat n) "0123456789abcdef" with
  | Some c => c
  | None => "0"%char
  end.

Definition value (c : ascii) : N :=
  let n := N_of_ascii c in
  if (48 <=? n)%N && (n <=? 57)%N then (n - 48)%N
  else if (97 <=? n)%N && (n <=? 102)%N then (n - 87)%N
  else if (65 <=? n)%N && (n <=? 70)%N then (n - 55)%N
  else 0%N.

Fixpoint encode (b : Buffer) : string :=
  match b with
  | [] => EmptyString
  | x :: b' =>
      String (digit (Byte.to_N x / 16)) (String (digit (Byte.to_N x mod 16)) (encode b'))
  end.

Fixpoint decode (s : string) : Buffer :=
  match s with
  | String hi (String lo s') => byte_of_N (value hi * 16 + value lo) :: decode s'
  | _ => []
  end.

End Hex.

(** ** crypto-utils.ts: [encrypt] and [decrypt] *)

Module crypto_utils.

(** [Buffer.from(s, 'hex')]: two digits make an octet, and decoding stops at
    the first pair that is not two hexadecimal digits. *)
Definition hex_value (c : ascii) : option N :=
  let n := N_of_ascii c in
  if (48 <=? n)%N && (n <=? 57)%N then Some (n - 48)%N
  else if (97 <=? n)%N && (n <=? 102)%N then Some (n - 87)%N
  else if (65 <=? n)%N && (n <=? 70)%N then Some (n - 55)%N
  else None.

Fixpoint fromHex (s : string) : Buffer :=
  match s with
  | String hi (String lo s') =>
      match hex_value hi, hex_value lo with
      | Some h, Some l => byte_of_N (h * 16 + l) :: fromHex s'
      | _, _ => []
      end
  | _ => []
  end.

(** [buf.toString('hex')] *)
Definition toHex (b : Buffer) : string := Hex.encode b.

Section WithRuntime.
Context `{rt : Runtime}.

(** AES-256-GCM of Node's [crypto], as in [MessageEncryptionPlugin]. *)
Variable aes_256_gcm_seal : Buffer -> Buffer -> string -> result (Buffer * Buffer).
Variable aes_256_gcm_open : Buffer -> Buffer -> Buffer -> Buffer -> option string.

(** [encrypt(text, encryptionKey, authenticationKey)]; the ciphertext goes
    through its hexadecimal text, as in the source. *)
Definition encrypt (randomBytes : nat -> Buffer) (text : string)
  (encryptionKey authenticationKey : Buffer) : result string :=
  match SecureRandom.bytes randomBytes 16 with
  | inl e => throw e
  | inr iv =>
      match aes_256_gcm_seal encryptionKey iv text with
      | inl e => throw e
      | inr (ciphertext, tag) =>
          let encrypted := toHex ciphertext in
          let authTag :=
            hmac_sha256 authenticationKey (iv ++ fromHex encrypted ++ tag) in
          let combined := iv ++ fromHex encrypted ++ tag ++ authTag in
          ok (toBase64 combined)
      end
  end.

Definition decrypt (encryptedData : string) (encryptionKey authenticationKey : Buffer)
  : result string :=
  let combined := fromBase64 encryptedData in
  if (length combined <? 16 + 16 + 32)%nat then throw (Error "Invalid encrypted data")
  else
    let iv := subarray combined 0 16 in
    let tag := subarray combined (-48) (-32) in
    let authTag := subarray_from combined (-32) in
    let encrypted := subarray combined 16 (-48) in
    let expectedAuthTag := hmac_sha256 authenticationKey (iv ++ encrypted ++ tag) in
    if negb (constantTimeCompare authTag expectedAuthTag)
    then throw (Error "Authentication failed")
    else
      match aes_256_gcm_open encryptionKey iv encrypted tag with
      | Some text => ok text
      | None => throw (Error "Unsupported state or unable to authenticate data")
      end.

End WithRuntime.
End crypto_utils.

(** What the envelope code relies on of AES-256-GCM: a 32-octet key and a
    non-empty iv are accepted, the tag has 16 octets, and opening what was
    sealed, under the same key and iv, gives the plaintext back. *)
Record GcmLaws
  (seal : Buffer -> Buffer -> string -> result (Buffer * Buffer))
  (open : Buffer -> Buffer -> Buffer -> Buffer -> option string) : Prop := {
  gcm_accepts : forall key iv text,
    length key = 32%nat -> iv <> [] -> exists c t, seal key iv text = ok (c, t);
  gcm_tag_length : forall key iv text c t,
    seal key iv text = ok (c, t) -> length t = 16%nat;
  gcm_open_seal : forall key iv text c t,
    seal key iv text = ok (c, t) -> open key iv c t = Some text
}.

(** A cipher with these laws, for the reference runs: an additive stream
    under a pad made from key and iv, and a tag cut from an HMAC over iv and
    ciphertext. *)
Module ToyGCM.

Definition pad (key iv : Buffer) : Buffer := HMAC.hmac_sha256 key iv.

Definition shift (decrypting : bool) (k x : byte) : byte :=
  if decrypting
  then byte_of_N ((Byte.to_N x + 256 - Byte.to_N k) mod 256)
  else byte_of_N ((Byte.to_N x + Byte.to_N k) mod 256).

Fixpoint stream (decrypting : bool) (p : Buffer) (i : nat) (b : Buffer) : Buffer :=
  match b with
  | [] => []
  | x :: b' => shift decrypting (nth (i mod 32) p x00) x :: stream decrypting p (S i) b'
  end.

Definition tag_of (key iv ciphertext : Buffer) : Buffer :=
  firstn 16 (HMAC.hmac_sha256 key (iv ++ ciphertext)).

Definition seal (key iv : Buffer) (text : string) : result (Buffer * Buffer) :=
  if negb (Nat.eqb (length key) 32) then throw (Error "Invalid key length")
  else if Nat.eqb (length iv) 0 then throw (Error "Invalid initialization vector")
  else
    let c := stream false (pad key iv) 0 (list_byte_of_string text) in
    ok (c, tag_of key iv c).

Definition open (key iv ciphertext tag : Buffer) : option string :=
  if negb (Nat.eqb (length key) 32) || Nat.eqb (length iv) 0 then None
  else if constantTimeCompare tag (tag_of key iv ciphertext)
  then Some (string_of_list_byte (stream true (pad key iv) 0 ciphertext))
  else None.

End ToyGCM.

(** Base64 (RFC 4648), as [Buffer] encodes it and decodes it: padding ends
    the input, and a character outside the alphabet is skipped. *)
Module Base64.
Local Open Scope N_scope.

Definition alphabet : string :=
  "ABCDEFGHIJKLMNOPQRSTUVWXYZabcdefghijklmnopqrstuvwxyz0123456789+/".

Definition char (n : N) : ascii :=
  match String.get (N.to_nat n) alphabet with
  | Some c => c
  | None => "A"%char
  end.

Definition value (c : ascii) : option N :=
  let n := N_of_ascii c in
  if (65 <=? n) && (n <=? 90) then Some (n - 65)
  else if (97 <=? n) && (n <=? 122) then Some (n - 71)
  else if (48 <=? n) && (n <=? 57) then Some (n + 4)
  else if (n =? 43) || (n =? 45) then Some 62
  else if (n =? 47) || (n =? 95) then Some 63
  else None.

(** Three octets make four sextets; one or two at the end make two or
    three. *)
Fixpoint sextets_of (b : list N) : list N :=
  match b with
  | x :: y :: z :: rest =>
      x / 4 :: x mod 4 * 16 + y / 16 :: y mod 16 * 4 + z / 64 :: z mod 64
        :: sextets_of rest
  | [x; y] => [x / 4; x mod 4 * 16 + y / 16; y mod 16 * 4]
  | [x] => [x / 4; x mod 4 * 16]
  | [] => []
  end.

Definition padding (len : nat) : string :=
  match (len mod 3)%nat with
  | 1%nat => "=="
  | 2%nat => "="
  | _ => EmptyString
  end.

Definition encode (b : Buffer) : string :=
  (string_of_list_ascii (map char (sextets_of (map Byte.to_N b)))
   ++ padding (length b))%string.

Fixpoint sextets (s : string) : list N :=
  match s with
  | EmptyString => []
  | String c s' =>
      if Ascii.eqb c "="%char then []
      else match value c with
           | Some v => v :: sextets s'
           | None => sextets s'
           end
  end.

Fixpoint octets_of (l : list N) : list N :=
  match l with
  | a :: b :: c :: d :: rest =>
      a * 4 + b / 16 :: b mod 16 * 16 + c / 4 :: c mod 4 * 64 + d :: octets_of rest
  | [a; b; c] => [a * 4 + b / 16; b mod 16 * 16 + c / 4]
  | [a; b] => [a * 4 + b / 16]
  | _ => []
  end.

Definition decode (s : string) : Buffer := map byte_of_N (octets_of (sextets s)).

Definition octet (n : N) : Prop := n < 256.

End Base64.


(** A finite-field Diffie-Hellman exchange stands in for P-256: the private
    key is an exponent, the public key and the shared secret are residues
    modulo the prime [p], as four big-endian octets. *)
Module ToyDH.
Local Open Scope N_scope.

Definition p : N := 4294967291.
Definition g : N := 5.

Fixpoint pow_mod_pos (b : N) (e : positive) : N :=
  match e with
  | xH => b mod p
  | xO e' => let r := pow_mod_pos b e' in (r * r) mod p
  | xI e' => let r := pow_mod_pos b e' in (((r * r) mod p) * b) mod p
  end.

Definition pow_mod (b e : N) : N :=
  match e with
  | N0 => 1
  | Npos e' => pow_mod_pos b e'
  end.

Definition to_buffer (n : N) : Buffer := map byte_of_N (SHA256.be 4 n).

Definition of_buffer (b : Buffer) : N :=
  fold_left (fun acc x => acc * 256 + Byte.to_N x) b 0.

Definition getPublicKey (priv : N) : Buffer := to_buffer (pow_mod g priv).

Definition computeSecret (priv : N) (peer : Buffer) : option Buffer :=
  let y := of_buffer peer in
  if Nat.eqb (length peer) 4 && (1 <? y) && (y <? p)
  then Some (to_buffer (pow_mod y priv))
  else None.

End ToyDH.

(** A JSON printer and parser for the values of [json]: integers only, and
    in strings the escapes of the quote and the backslash. *)
Module MiniJSON.

Fixpoint escape (s : string) : string :=
  match s with
  | EmptyString => EmptyString
  | String c s' =>
      if Ascii.eqb c "034"%char || Ascii.eqb c "092"%char
      then String "092"%char (String c (escape s'))
      else String c (escape s')
  end.

Definition dquote : string := String "034"%char EmptyString.

Definition quote (s : string) : string := (dquote ++ escape s ++ dquote)%string.

Fixpoint stringify (v : json) : string :=
  match v with
  | JNull => "null"
  | JBool true => "true"
  | JBool false => "false"
  | JNum n => NilZero.string_of_int (Z.to_int n)
  | JStr s => quote s
  | JArr items => ("[" ++ String.concat "," (map stringify items) ++ "]")%string
  | JObj fields =>
      ("{" ++ String.concat ","
                (map (fun kv => match kv with
                                | (k, x) => quote k ++ ":" ++ stringify x
                                end) fields)
           ++ "}")%string
  end.

Definition is_ws (c : ascii) : bool :=
  Ascii.eqb c " "%char || Ascii.eqb c "009"%char
  || Ascii.eqb c "010"%char || Ascii.eqb c "013"%char.

Fixpoint skip_ws (s : string) : string :=
  match s with
  | String c s' => if is_ws c then skip_ws s' else s
  | EmptyString => s
  end.

(** The rest of a string literal after its opening quote. *)
Fixpoint string_body (s : string) (acc : list ascii) : option (string * string) :=
  match s with
  | EmptyString => None
  | String c s' =>
      if Ascii.eqb c "034"%char then Some (string_of_list_ascii (rev acc), s')
      else if Ascii.eqb c "092"%char then
        match s' with
        | String d s'' =>
            if Ascii.eqb d "034"%char || Ascii.eqb d "092"%char || Ascii.eqb d "/"%char
            then string_body s'' (d :: acc)
            else None
        | EmptyString => None
        end
      else string_body s' (c :: acc)
  end.

Definition is_digit (c : ascii) : bool :=
  (48 <=? N_of_ascii c)%N && (N_of_ascii c <=? 57)%N.

Fixpoint digits (s : string) (acc : Z) (seen : bool) : option (Z * string) :=
  match s with
  | String c s' =>
      if is_digit c
      then digits s' (acc * 10 + Z.of_N (N_of_ascii c - 48)) true
      else if seen then Some (acc, s) else None
  | EmptyString => if seen then Some (acc, s) else None
  end.

Definition number (s : string) : option (json * string) :=
  match s with
  | String "-"%char s' =>
      match digits s' 0 false with
      | Some (n, r) => Some (JNum (- n), r)
      | None => None
      end
  | _ =>
      match digits s 0 false with
      | Some (n, r) => Some (JNum n, r)
      | None => None
      end
  end.

Definition literal (word : string) (v : json) (s : string) : option (json * string) :=
  if String.prefix word s
  then Some (v, String.substring (String.length word)
                                 (String.length s - String.length word) s)
  else None.

Fixpoint value (fuel : nat) (s : string) : option (json * string) :=
  match fuel with
  | O => None
  | S f =>
      match skip_ws s with
      | String "n"%char _ as r => literal "null" JNull r
      | String "t"%char _ as r => literal "true" (JBool true) r
      | String "f"%char _ as r => literal "false" (JBool false) r
      | String "034"%char r =>
          match string_body r [] with
          | Some (x, r') => Some (JStr x, r')
          | None => None
          end
      | String "["%char r =>
          match skip_ws r with
          | String "]"%char r' => Some (JArr [], r')
          | r' => elements f r' []
          end
      | String "{"%char r =>
          match skip_ws r with
          | String "}"%char r' => Some (JObj [], r')
          | r' => members f r' []
          end
      | r => number r
      end
  end
with elements (fuel : nat) (s : string) (acc : list json) : option (json * string) :=
  match fuel with
  | O => None
  | S f =>
      match value f s with
      | Some (v, r) =>
          match skip_ws r with
          | String ","%char r' => elements f r' (v :: acc)
          | String "]"%char r' => Some (JArr (rev (v :: acc)), r')
          | _ => None
          end
      | None => None
      end
  end
with members (fuel : nat) (s : string) (acc : list (string * json))
  : option (json * string) :=
  match fuel with
  | O => None
  | S f =>
      match skip_ws s with
      | String "034"%char r =>
          match string_body r [] with
          | Some (k, r1) =>
              match skip_ws r1 with
              | String ":"%char r2 =>
                  match value f r2 with
                  | Some (v, r3) =>
                      match skip_ws r3 with
                      | String ","%char r' => members f r' ((k, v) :: acc)
                      | String "}"%char r' => Some (JObj (rev ((k, v) :: acc)), r')
                      | _ => None
                      end
                  | None => None
                  end
              | _ => None
              end
          | None => None
          end
      | _ => None
      end
  end.

Definition parse (s : string) : option json :=
  match value (2 * String.length s + 2) s with
  | Some (v, r) =>
      match skip_ws r with
      | EmptyString => Some v
      | _ => None
      end
  | None => None
  end.

End MiniJSON.


(** The reference runtime: real SHA-256, HMAC and base64, the small JSON
    codec and the toy exchange. *)
Definition reference_runtime : Runtime := {|
  hmac_sha256 := HMAC.hmac_sha256;
  ECDH := N;
  getPublicKey := ToyDH.getPublicKey;
  computeSecret := ToyDH.computeSecret;
  toBase64 := Base64.encode;
  fromBase64 := Base64.decode;
  JSON_parse := MiniJSON.parse;
  JSON_stringify := MiniJSON.stringify
|}.

(** ** The handshake as its owners run it *)

(** What the four messages were and where they left the two peers; [E] is
    the type of the key-pair objects. *)
Record Transcript (E : Type) : Type := mkTranscript {
  HANDSHAKE_INIT : string;
  HANDSHAKE_RESPONSE : json;
  KEY_CONFIRM_REQUEST : json;
  KEY_CONFIRMATION : json;
  provider_awaiting : World (SecureProvider.t E);
  consumer_responded : World (SecureConsumer.t E);
  provider_done : World (SecureProvider.t E);
  consumer_done : World (SecureConsumer.t E)
}.
Arguments mkTranscript {E} _ _ _ _ _ _ _ _.
Arguments HANDSHAKE_INIT {E} _.
Arguments HANDSHAKE_RESPONSE {E} _.
Arguments KEY_CONFIRM_REQUEST {E} _.
Arguments KEY_CONFIRMATION {E} _.
Arguments provider_awaiting {E} _.
Arguments consumer_responded {E} _.
Arguments provider_done {E} _.
Arguments consumer_done {E} _.

Section Protocol.
Context `{rt : Runtime}.

(** The key schedule in the spec's words: HKDF over the shared secret with
    the two nonces as salt and [info(label)], one block. *)
Definition kdf (secret salt : Buffer) (label : string) : Buffer :=
  hmac_sha256 (hmac_sha256 salt secret) (createContextInfo label 1 ++ [x01]).

(** The two confirmation MACs in the spec's words. *)
Definition MAC_I (K N_I N_R PK_I PK_R : Buffer) : Buffer :=
  hmac_sha256 K (N_I ++ N_R ++ PK_I ++ PK_R).

Definition MAC_R (K N_I N_R PK_I PK_R : Buffer) : Buffer :=
  hmac_sha256 K (N_R ++ N_I ++ PK_R ++ PK_I).

(** [raw] reaches the handler as the message [m]: the value itself, or a
    text that parses to it. *)
Definition delivers (raw : Raw) (m : json) : Prop :=
  match raw with
  | RawValue v => v = m
  | RawString s => JSON_parse s = Some m
  end.

(** The owner of the provider turns a [send-confirmation] result into the
    KEY_CONFIRM_REQUEST message. *)
Definition confirmRequest (mac : string) : json :=
  JObj [("type", JStr "key-confirmation-request"); ("confirmationMac", JStr mac)].

(** The run of the tests: the provider starts, each message is delivered
    unmodified to the other peer, and every step answers with the next
    message. [None] when a step answers otherwise. *)
Definition honest_run (p0 : World (SecureProvider.t ECDH)) (c0 : World (SecureConsumer.t ECDH))
  : option (Transcript ECDH) :=
  match SecureProvider.startHandshake p0 with
  | (inr m1, p0') =>
      match SecureConsumer.handleMessage (RawString m1) c0 with
      | (inr r1, c1) =>
          match SecureConsumer.response r1 with
          | Some m2 =>
              match SecureProvider.handleResponse (RawValue m2) p0' with
              | (inr r2, p1) =>
                  match SecureProvider.confirmationMac r2 with
                  | Some mac =>
                      let m3 := confirmRequest mac in
                      match SecureConsumer.handleMessage (RawValue m3) c1 with
                      | (inr r3, c2) =>
                          match SecureConsumer.response r3 with
                          | Some m4 =>
                              match SecureProvider.handleResponse (RawValue m4) p1 with
                              | (inr r4, p2) =>
                                  if String.eqb (SecureConsumer.type r1) "handshake-response"
                                     && String.eqb (SecureProvider.type r2) "send-confirmation"
                                     && String.eqb (SecureConsumer.type r3) "key-confirmation"
                                     && String.eqb (SecureProvider.type r4) "handshake-complete"
                                  then Some (mkTranscript m1 m2 m3 m4 p1 c1 p2 c2)
                                  else None
                              | _ => None
                              end
                          | None => None
                          end
                      | _ => None
                      end
                  | None => None
                  end
              | _ => None
              end
          | None => None
          end
      | _ => None
      end
  | _ => None
  end.

(** [m.type === t], for a message that is not [null]. *)
Definition has_type (m : json) (t : string) : bool :=
  match getProp m "type" with
  | inr ty => strict_eq_str ty t
  | inl _ => false
  end.

(** A HANDSHAKE_INIT the consumer with key pair [e] has nothing to object
    to: version 1, both algorithms offered, a nonce, and a public key that
    [computeSecret] accepts. *)
Definition well_formed_init (e : ECDH) (m : json) : Prop :=
  exists fields nonce pk ciphers hashes,
    m = JObj fields
    /\ assoc "type" fields = Some (JStr "handshake-init")
    /\ assoc "version" fields = Some (JNum 1)
    /\ assoc "supportedCiphers" fields = Some (JArr ciphers)
    /\ In (JStr "aes-256-gcm") ciphers
    /\ assoc "supportedHashes" fields = Some (JArr hashes)
    /\ In (JStr "sha256") hashes
    /\ assoc "providerNonce" fields = Some (JStr nonce)
    /\ assoc "publicKey" fields = Some (JStr pk)
    /\ computeSecret e (fromBase64 pk) <> None.

(** A HANDSHAKE_RESPONSE for the session [sid] of the provider with key
    pair [e]. *)
Definition well_formed_response (e : ECDH) (sid : string) (m : json) : Prop :=
  exists fields nonce pk,
    m = JObj fields
    /\ assoc "type" fields = Some (JStr "handshake-response")
    /\ assoc "sessionId" fields = Some (JStr sid)
    /\ assoc "consumerNonce" fields = Some (JStr nonce)
    /\ assoc "publicKey" fields = Some (JStr pk)
    /\ computeSecret e (fromBase64 pk) <> None.

(** The [confirmationMac] fields of KEY_CONFIRM_REQUEST and
    KEY_CONFIRMATION. *)
Definition transcript_macs {E} (tr : Transcript E) : option json * option json :=
  (match KEY_CONFIRM_REQUEST tr with
   | JObj fields => assoc "confirmationMac" fields
   | _ => None
   end,
   match KEY_CONFIRMATION tr with
   | JObj fields => assoc "confirmationMac" fields
   | _ => None
   end).

(** The keys a peer hands out, read through their references. *)
Definition exposed_bytes {S} (w : World S) (k : Exposed.keys) : Buffer * Buffer :=
  (deref (heap w) (Exposed.encryptionKey k),
   deref (heap w) (Exposed.authenticationKey k)).

End Protocol.

(** ** A reference run *)

Module Fixture.
#[local] Existing Instance reference_runtime.

(** Two CSPRNGs and two key pairs. *)
Definition rndP (n : nat) : Buffer :=
  map (fun i => byte_of_N (N.of_nat (17 * i + 1))) (seq 0 n).

Definition rndC (n : nat) : Buffer :=
  map (fun i => byte_of_N (N.of_nat (29 * i + 5))) (seq 0 n).

Definition eP : ECDH := 7%N.
Definition eC : ECDH := 11%N.

Definition sid : string := toBase64 (rndP 16).

Definition p0 : World (SecureProvider.t ECDH) :=
  mkWorld [rndP 32]
    (SecureProvider.mkT eP
       (SecureProvider.mkHandshakeState sid 0%nat None None None false)).

Definition c0 : World (SecureConsumer.t ECDH) :=
  mkWorld [rndC 32]
    (SecureConsumer.mkT eC
       (SecureConsumer.mkHandshakeState None None 0%nat None None false None)).

Definition secret : Buffer :=
  Eval vm_compute in default [] (computeSecret eP (getPublicKey eC)).

(** The four messages of the honest run between [p0] and [c0], and the
    states they lead to. *)
Definition K : Buffer := kdf secret (rndP 32 ++ rndC 32) "SubtylSocket-KeyConfirmation".

Definition macI : Buffer :=
  MAC_I K (rndP 32) (rndC 32) (getPublicKey eP) (getPublicKey eC).

Definition macR : Buffer :=
  MAC_R K (rndP 32) (rndC 32) (getPublicKey eP) (getPublicKey eC).

Definition init_text : string :=
  JSON_stringify (SecureProvider.initMessage sid (getPublicKey eP) (rndP 32)).

Definition response : json :=
  SecureConsumer.responseMessage (Some (JStr sid)) (getPublicKey eC) (rndC 32).

Definition request : json := confirmRequest (toBase64 macI).

Definition confirmation : json :=
  SecureConsumer.confirmationMessage (Some (JStr sid)) (getPublicKey eC) macR.

Definition c1 : World (SecureConsumer.t ECDH) :=
  snd (SecureConsumer.handleMessage (RawString init_text) c0).

Definition p1 : World (SecureProvider.t ECDH) :=
  snd (SecureProvider.handleResponse (RawValue response) p0).

Definition c2 : World (SecureConsumer.t ECDH) :=
  snd (SecureConsumer.handleMessage (RawValue request) c1).

Definition p2 : World (SecureProvider.t ECDH) :=
  snd (SecureProvider.handleResponse (RawValue confirmation) p1).

(** A third party: another key pair, another nonce, another session. *)
Definition eX : ECDH := 13%N.

Definition rndX (n : nat) : Buffer :=
  map (fun i => byte_of_N (N.of_nat (41 * i + 9))) (seq 0 n).

Definition second_init : json :=
  SecureProvider.initMessage "another-session" (getPublicKey eX) (rndX 32).

(** The honest HANDSHAKE_RESPONSE and KEY_CONFIRMATION with the session id
    rewritten on the way. *)
Definition foreign_response : json :=
  SecureConsumer.responseMessage (Some (JStr "different-session-id"))
    (getPublicKey eC) (rndC 32).

Definition foreign_confirmation : json :=
  SecureConsumer.confirmationMessage (Some (JStr "different-session-id"))
    (getPublicKey eC) macR.

(** KEY_CONFIRMATION messages whose [publicKey] is not the key the provider
    received in HANDSHAKE_RESPONSE: one with the MAC computed over that other
    key, one with the honest MAC. *)
Definition macX : Buffer :=
  hmac_sha256 K (rndC 32 ++ rndP 32 ++ getPublicKey eX ++ getPublicKey eP).

Definition swapped_key_confirmation : json :=
  SecureConsumer.confirmationMessage (Some (JStr sid)) (getPublicKey eX) macX.

Definition altered_key_confirmation : json :=
  SecureConsumer.confirmationMessage (Some (JStr sid)) (getPublicKey eX) macR.

(** A consumer that happened to draw the provider's nonce and key pair. *)
Definition c0_mirror : World (SecureConsumer.t ECDH) :=
  mkWorld [rndP 32]
    (SecureConsumer.mkT eP
       (SecureConsumer.mkHandshakeState None None 0%nat None None false None)).

Definition mirror_mac : Buffer :=
  let secret := default [] (computeSecret eP (getPublicKey eP)) in
  let K := kdf secret (rndP 32 ++ rndP 32) "SubtylSocket-KeyConfirmation" in
  MAC_I K (rndP 32) (rndP 32) (getPublicKey eP) (getPublicKey eP).

(** A plugin with keys, and two envelopes it cannot decrypt: one names
    another algorithm, one lacks the IV and the tag. *)
Definition plugin : BaseEncryptionPlugin.t :=
  MessageEncryptionPlugin.new
    (Some (BaseEncryptionPlugin.mkKeys (rndP 32) (rndC 32))).

Definition envelope (algorithm : string) (encrypted : json) : string :=
  JSON_stringify
    (JObj [("type", JStr "encrypted-plugin-message");
           ("algorithm", JStr algorithm);
           ("payload", JNull);
           ("encrypted", encrypted)]).

Definition wrong_algorithm_envelope : string :=
  envelope "chacha20-poly1305"
    (JObj [("data", JStr (toBase64 (rndX 8)));
           ("metadata", JObj [("iv", JStr (toBase64 (rndX 12)));
                              ("tag", JStr (toBase64 (rndX 16)))])]).

Definition no_metadata_envelope : string :=
  envelope "aes-256-gcm" (JObj [("data", JStr (toBase64 (rndX 8)))]).

(** An AES-GCM under which no tag verifies. *)
Definition rejecting_open (key iv ciphertext tag : Buffer) : option string := None.

End Fixture.

(** ** What destroy is to scrub *)

Definition key_refs (dk : option Derived.keys) : list nat :=
  match dk with
  | Some k =>
      [Derived.encryptionKey k; Derived.authenticationKey k; Derived.confirmationKey k]
  | None => []
  end.

(** The Buffers of a peer that hold secrets: the shared secret, the derived
    keys and the two nonces, in the order [destroy] visits them. *)
Definition provider_secrets {E} (o : SecureProvider.t E) : list nat :=
  let s := SecureProvider.handshakeState o in
  option_list (SecureProvider.sharedSecret s)
  ++ key_refs (SecureProvider.derivedKeys s)
  ++ [SecureProvider.providerNonce s]
  ++ option_list (SecureProvider.consumerNonce s).

Definition consumer_secrets {E} (o : SecureConsumer.t E) : list nat :=
  let s := SecureConsumer.handshakeState o in
  option_list (SecureConsumer.sharedSecret s)
  ++ key_refs (SecureConsumer.derivedKeys s)
  ++ [SecureConsumer.consumerNonce s]
  ++ option_list (SecureConsumer.providerNonce s).

(** [fill(0)] on each of the Buffers [rs] in turn. *)
Definition scrub (rs : list nat) (h : Heap) : Heap :=
  fold_left (fun h r => alter (fun b => zeros (length b)) r h) rs h.

(** ** Reachable states *)

Section Reachable.
Context `{rt : Runtime}.

(** The states a provider can be in: constructed, then any calls of its
    public methods, on any arguments. *)
Inductive provider_reachable : World (SecureProvider.t ECDH) -> Prop :=
| provider_new e randomBytes w :
    SecureProvider.new e randomBytes = ok w -> provider_reachable w
| provider_startHandshake w :
    provider_reachable w -> provider_reachable (snd (SecureProvider.startHandshake w))
| provider_handleResponse raw w :
    provider_reachable w -> provider_reachable (snd (SecureProvider.handleResponse raw w))
| provider_destroy w :
    provider_reachable w -> provider_reachable (snd (SecureProvider.destroy w)).

Inductive consumer_reachable : World (SecureConsumer.t ECDH) -> Prop :=
| consumer_new e randomBytes w :
    SecureConsumer.new e randomBytes = ok w -> consumer_reachable w
| consumer_handleMessage raw w :
    consumer_reachable w -> consumer_reachable (snd (SecureConsumer.handleMessage raw w))
| consumer_destroy w :
    consumer_reachable w -> consumer_reachable (snd (SecureConsumer.destroy w)).






(** A method keeps an invariant of the object's fields, whether it returns
    or throws. *)
Definition preserves {S A} (J : S -> Prop) (m : M S A) : Prop :=
  forall w, J (this w) -> J (this (snd (m w))).

End Reachable.

(** ** What a call does to the store and to the fields *)

(** Every run of the method relates the state before to the state after,
    whether it returns or throws. *)
Definition steps {S A} (R : World S -> World S -> Prop) (m : M S A) : Prop :=
  forall w, R w (snd (m w)).

Section Frames.
Context `{rt : Runtime}.

(** The Buffers that existed are still there, unchanged, and the provider
    has the key pair, the session id and the nonce object it had. *)
Definition provider_frame (w w' : World (SecureProvider.t ECDH)) : Prop :=
  heap w `prefix_of` heap w'
  /\ SecureProvider.ecdh (this w') = SecureProvider.ecdh (this w)
  /\ SecureProvider.sessionId (SecureProvider.handshakeState (this w'))
     = SecureProvider.sessionId (SecureProvider.handshakeState (this w))
  /\ SecureProvider.providerNonce (SecureProvider.handshakeState (this w'))
     = SecureProvider.providerNonce (SecureProvider.handshakeState (this w)).

Definition consumer_frame (w w' : World (SecureConsumer.t ECDH)) : Prop :=
  heap w `prefix_of` heap w'
  /\ SecureConsumer.ecdh (this w') = SecureConsumer.ecdh (this w)
  /\ SecureConsumer.consumerNonce (SecureConsumer.handshakeState (this w'))
     = SecureConsumer.consumerNonce (SecureConsumer.handshakeState (this w)).

Definition phs (w : World (SecureProvider.t ECDH)) : SecureProvider.HandshakeState :=
  SecureProvider.handshakeState (this w).

Definition chs (w : World (SecureConsumer.t ECDH)) : SecureConsumer.HandshakeState :=
  SecureConsumer.handshakeState (this w).

(** The three ways a call of [handleResponse] on [w] can end: an error
    result; a [send-confirmation] with new keys; a [handshake-complete] that
    sets the flag. *)
Definition provider_outcome_of (w : World (SecureProvider.t ECDH))
  (rw : result SecureProvider.Result * World (SecureProvider.t ECDH)) : Prop :=
  let r := fst rw in
  let w' := snd rw in
  (exists msg,
      r = ok (SecureProvider.mkResult "error" false (Some msg) None)
      /\ SecureProvider.sharedSecret (phs w') = SecureProvider.sharedSecret (phs w)
      /\ SecureProvider.derivedKeys (phs w') = SecureProvider.derivedKeys (phs w)
      /\ SecureProvider.confirmed (phs w') = SecureProvider.confirmed (phs w))
  \/ (exists mac dk,
        r = ok (SecureProvider.mkResult "send-confirmation" false None (Some mac))
        /\ SecureProvider.confirmed (phs w') = SecureProvider.confirmed (phs w)
        /\ SecureProvider.derivedKeys (phs w') = Some dk
        /\ length (deref (heap w') (Derived.encryptionKey dk)) = 32%nat
        /\ length (deref (heap w') (Derived.authenticationKey dk)) = 32%nat
        /\ length (deref (heap w') (Derived.confirmationKey dk)) = 32%nat)
  \/ (r = ok (SecureProvider.mkResult "handshake-complete" true None None)
      /\ w' = mkWorld (heap w) (SecureProvider.set_confirmed true (this w))
      /\ SecureProvider.derivedKeys (phs w) <> None).

(** The same for [handleMessage]: an error result; a [handshake-response]
    with new keys; a [key-confirmation] that sets the flag. *)
Definition consumer_outcome_of (w : World (SecureConsumer.t ECDH))
  (rw : result SecureConsumer.Result * World (SecureConsumer.t ECDH)) : Prop :=
  let r := fst rw in
  let w' := snd rw in
  (exists msg,
      r = ok (SecureConsumer.mkResult "error" None false (Some msg))
      /\ SecureConsumer.sharedSecret (chs w') = SecureConsumer.sharedSecret (chs w)
      /\ SecureConsumer.derivedKeys (chs w') = SecureConsumer.derivedKeys (chs w)
      /\ SecureConsumer.confirmed (chs w') = SecureConsumer.confirmed (chs w))
  \/ (exists resp dk,
        r = ok (SecureConsumer.mkResult "handshake-response" (Some resp) false None)
        /\ SecureConsumer.confirmed (chs w') = SecureConsumer.confirmed (chs w)
        /\ SecureConsumer.derivedKeys (chs w') = Some dk
        /\ length (deref (heap w') (Derived.encryptionKey dk)) = 32%nat
        /\ length (deref (heap w') (Derived.authenticationKey dk)) = 32%nat
        /\ length (deref (heap w') (Derived.confirmationKey dk)) = 32%nat)
  \/ (exists resp,
        r = ok (SecureConsumer.mkResult "key-confirmation" (Some resp) true None)
        /\ w' = mkWorld (heap w) (SecureConsumer.set_confirmed true (this w))
        /\ SecureConsumer.derivedKeys (chs w) <> None).

End Frames.

(** Each of the three derived keys is a Buffer of 32 octets. *)
Definition keys_32 (h : Heap) (dk : option Derived.keys) : Prop :=
  match dk with
  | Some k =>
      length (deref h (Derived.encryptionKey k)) = 32%nat
      /\ length (deref h (Derived.authenticationKey k)) = 32%nat
      /\ length (deref h (Derived.confirmationKey k)) = 32%nat
  | None => True
  end.

(** A state in order: a confirmed peer has its keys, the keys have 32
    octets, and the peer's own nonce is a Buffer of the store. *)
Definition provider_ok {E} (w : World (SecureProvider.t E)) : Prop :=
  let s := SecureProvider.handshakeState (this w) in
  (SecureProvider.confirmed s = true -> SecureProvider.derivedKeys s <> None)
  /\ keys_32 (heap w) (SecureProvider.derivedKeys s)
  /\ (SecureProvider.providerNonce s < length (heap w))%nat.

Definition consumer_ok {E} (w : World (SecureConsumer.t E)) : Prop :=
  let s := SecureConsumer.handshakeState (this w) in
  (SecureConsumer.confirmed s = true -> SecureConsumer.derivedKeys s <> None)
  /\ keys_32 (heap w) (SecureConsumer.derivedKeys s)
  /\ (SecureConsumer.consumerNonce s < length (heap w))%nat.

(** [new MessageEncryptionPlugin(keys)] for the object [keys] that
    [getDerivedKeys()] returned, as the example server and client build it:
    the plugin holds the peer's two Buffer objects, so at a call it reads
    what they hold in the peer's store then. *)
Definition plugin_on {S} (w : World S) (k : Exposed.keys) : World BaseEncryptionPlugin.t :=
  mkWorld (heap w)
    (MessageEncryptionPlugin.new
       (Some (BaseEncryptionPlugin.mkKeys
                (deref (heap w) (Exposed.encryptionKey k))
                (deref (heap w) (Exposed.authenticationKey k))))).

(** ** Runs of the envelope code *)

Module Demo.
#[local] Existing Instance reference_runtime.

(** A plugin with the keys of [Fixture.plugin], a chat message and the
    object [wrapMessage] builds for it. *)
Definition sender : World BaseEncryptionPlugin.t := mkWorld [] Fixture.plugin.

Definition chat : json := JObj [("type", JStr "chat"); ("payload", JStr "hello")].

(** A third-party init whose public key is not on the group: the residue 0. *)
Definition bad_key_init : json :=
  SecureProvider.initMessage "another-session" (ToyDH.to_buffer 0) (Fixture.rndX 32).

End Demo.

(** * Properties *)

(** ** Buffers and comparison *)

Lemma byte_to_N_inj (x y : byte) : Byte.to_N x = Byte.to_N y -> x = y.
Proof.
  intros E. apply (f_equal Byte.of_N) in E.
  rewrite !Byte.of_to_N in E. congruence.
Qed.

Lemma ctc_loop_zero (a b : Buffer) (idx : list nat) (r : N) :
  ctc_loop a b idx r = 0%N <->
  r = 0%N /\ Forall (fun i => at_or_0 a i = at_or_0 b i) idx.
Proof.
  unfold ctc_loop. revert r.
  induction idx as [|i idx IH]; intros r; simpl.
  - split; [intros ->; split; [reflexivity | constructor] | intros [-> _]; reflexivity].
  - rewrite IH, N.lor_eq_0_iff, N.lxor_eq_0_iff, Forall_cons. tauto.
Qed.

Lemma at_or_0_lookup (a b : Buffer) (i : nat) :
  (i < length a)%nat -> (i < length b)%nat ->
  at_or_0 a i = at_or_0 b i -> a !! i = b !! i.
Proof.
  intros Ha Hb. unfold at_or_0.
  destruct (lookup_lt_is_Some_2 a i Ha) as [x ->].
  destruct (lookup_lt_is_Some_2 b i Hb) as [y ->].
  intros E. f_equal. now apply byte_to_N_inj.
Qed.

(** [constantTimeCompare] decides equality of buffers. *)
Lemma constantTimeCompare_spec (a b : Buffer) :
  constantTimeCompare a b = true <-> a = b.
Proof.
  unfold constantTimeCompare.
  destruct (Nat.eqb_spec (length a) (length b)) as [El|Nl]; simpl.
  - rewrite N.eqb_eq, ctc_loop_zero. split.
    + intros [_ Hall]. apply list_eq. intros i.
      destruct (Nat.lt_ge_cases i (length a)) as [Hi|Hi].
      * apply at_or_0_lookup; [assumption | lia |].
        rewrite Forall_forall in Hall. apply Hall, elem_of_seq. lia.
      * rewrite !lookup_ge_None_2; [reflexivity | lia | lia].
    + intros ->. split; [reflexivity |]. apply Forall_forall. reflexivity.
  - split; [discriminate | intros ->; congruence].
Qed.

Lemma constantTimeCompare_refl (a : Buffer) : constantTimeCompare a a = true.
Proof. now apply constantTimeCompare_spec. Qed.

Lemma constantTimeCompare_neq (a b : Buffer) :
  a <> b -> constantTimeCompare a b = false.
Proof.
  intros N. destruct (constantTimeCompare a b) eqn:E; [|reflexivity].
  apply constantTimeCompare_spec in E. contradiction.
Qed.

(** ** HKDF *)

Section HKDF_facts.
Context `{rt : Runtime}.
Hypothesis hmac_len : forall key data, length (hmac_sha256 key data) = 32%nat.

Lemma expand_loop_T (prk info : Buffer) (k j : nat) (acc : list Buffer) :
  HKDF.expand_loop prk info k (Z.of_nat (S j)) (HKDF.T prk info j) acc
  = acc ++ map (HKDF.T prk info) (seq (S j) k).
Proof.
  revert j acc. induction k as [|k IH]; intros j acc.
  - simpl. now rewrite app_nil_r.
  - cbn [HKDF.expand_loop seq map].
    replace (Z.of_nat (S j) + 1)%Z with (Z.of_nat (S (S j))) by lia.
    change (hmac_sha256 prk (HKDF.T prk info j ++ info ++ [byte_of_Z (Z.of_nat (S j))]))
      with (HKDF.T prk info (S j)).
    rewrite IH, <- app_assoc. reflexivity.
Qed.

Lemma T_length (prk info : Buffer) (i : nat) :
  length (HKDF.T prk info (S i)) = 32%nat.
Proof. simpl. apply hmac_len. Qed.

Lemma concat_T_length (prk info : Buffer) (j n : nat) :
  length (concat (map (HKDF.T prk info) (seq (S j) n))) = (32 * n)%nat.
Proof.
  revert j. induction n as [|n IH]; intros j.
  - reflexivity.
  - cbn [seq map concat]. rewrite length_app, T_length, IH. lia.
Qed.

Lemma ceil_div_32_bounds (L : Z) :
  (32 * (HKDF.ceil_div L 32 - 1) < L <= 32 * HKDF.ceil_div L 32)%Z.
Proof. unfold HKDF.ceil_div. Z.div_mod_to_equations. lia. Qed.

Lemma expand_throws_iff (prk info : Buffer) (L : Z) :
  HKDF.expand prk info L = throw (Error "HKDF: requested length too large")
  <-> (L > 255 * 32)%Z.
Proof.
  unfold HKDF.expand, HKDF.hashLen.
  pose proof (ceil_div_32_bounds L) as B.
  destruct (Z.gtb_spec (HKDF.ceil_div L 32) 255) as [G|G].
  - split; [lia | reflexivity].
  - split; [discriminate | lia].
Qed.

Lemma expand_in_range (prk info : Buffer) (L : Z) :
  (0 <= L <= 255 * 32)%Z ->
  HKDF.expand prk info L
  = ok (HKDF.rfc5869_okm prk info (Z.to_nat (HKDF.ceil_div L 32)) (Z.to_nat L))
  /\ length (HKDF.rfc5869_okm prk info (Z.to_nat (HKDF.ceil_div L 32)) (Z.to_nat L))
     = Z.to_nat L.
Proof.
  intros HL. unfold HKDF.expand, HKDF.hashLen, HKDF.rfc5869_okm.
  pose proof (ceil_div_32_bounds L) as B.
  set (n := HKDF.ceil_div L 32) in *.
  destruct (Z.gtb_spec n 255) as [G|G]; [lia|].
  pose proof (expand_loop_T prk info (Z.to_nat n) 0 []) as E.
  simpl app in E. change (Z.of_nat 1) with 1%Z in E.
  change (HKDF.T prk info 0) with (@nil byte) in E. rewrite E.
  pose proof (concat_T_length prk info 0 (Z.to_nat n)) as Len.
  split.
  - unfold subarray0. rewrite Len.
    destruct (Z.ltb_spec L 0) as [?|_]; [lia|].
    do 2 f_equal. lia.
  - rewrite length_take, Len. lia.
Qed.

End HKDF_facts.

(** C9. [HKDF.derive] raises the length-too-large error exactly when the
    requested length exceeds [255 * 32 = 8160]: it raises it at [8161], and at
    [8160] it returns exactly 8160 octets, the blocks [T(1) .. T(255)] of the
    RFC 5869 expand iteration. *)
Theorem HKDF_derive_length_limit `{rt : Runtime}
  (hmac_len : forall key data, length (hmac_sha256 key data) = 32%nat)
  (ikm salt info : Buffer) :
  (forall L : Z,
      HKDF.derive ikm salt info L = throw (Error "HKDF: requested length too large")
      <-> (L > 255 * 32)%Z)
  /\ (forall L : Z, (L <= 255 * 32)%Z -> exists okm, HKDF.derive ikm salt info L = ok okm)
  /\ HKDF.derive ikm salt info 8161 = throw (Error "HKDF: requested length too large")
  /\ (exists okm,
        HKDF.derive ikm salt info 8160 = ok okm
        /\ Z.of_nat (length okm) = 8160%Z
        /\ okm = concat (map (HKDF.T (HKDF.extract salt ikm) info) (seq 1 255))).
Proof.
  unfold HKDF.derive. split; [|split; [|split]].
  - intros L. apply expand_throws_iff.
  - intros L HL. unfold HKDF.expand.
    pose proof (ceil_div_32_bounds L) as B. unfold HKDF.hashLen.
    destruct (Z.gtb_spec (HKDF.ceil_div L 32) 255) as [G|G]; [lia | eauto].
  - apply expand_throws_iff. lia.
  - destruct (expand_in_range hmac_len (HKDF.extract salt ikm) info 8160) as [E Len];
      [lia|].
    change (Z.to_nat (HKDF.ceil_div 8160 32)) with 255%nat in *.
    eexists. split; [exact E|]. split; [rewrite Len; lia|].
    unfold HKDF.rfc5869_okm. apply firstn_all2.
    rewrite (concat_T_length hmac_len). lia.
Qed.

(** C10. [SecureRandom.bytes(0)] and [SecureRandom.base64(0)] throw the
    insufficient-entropy error whatever the CSPRNG returns: the empty buffer
    passes the all-zeros test. *)
Theorem SecureRandom_zero_length_throws `{rt : Runtime}
  (randomBytes : nat -> Buffer)
  (randomBytes_length : forall n, length (randomBytes n) = n) :
  SecureRandom.bytes randomBytes 0
  = throw (Error "Insufficient entropy detected in random generation")
  /\ SecureRandom.base64 randomBytes 0
     = throw (Error "Insufficient entropy detected in random generation").
Proof.
  assert (E : randomBytes 0%nat = []).
  { apply length_zero_iff_nil, randomBytes_length. }
  unfold SecureRandom.base64, SecureRandom.bytes. rewrite E. split; reflexivity.
Qed.

(** ** The reference runtime keeps the laws *)

Lemma be_length (k : nat) (n : N) : length (SHA256.be k n) = k.
Proof.
  revert n. induction k as [|k IH]; intros n; simpl; [reflexivity|].
  rewrite length_app, IH. simpl. lia.
Qed.

Lemma sha256_length (m : Buffer) : length (SHA256.sha256 m) = 32%nat.
Proof.
  unfold SHA256.sha256, SHA256.digest_words.
  rewrite length_map, !length_app, !be_length. reflexivity.
Qed.

Lemma reference_hmac_length (key data : Buffer) :
  length (HMAC.hmac_sha256 key data) = 32%nat.
Proof. apply sha256_length. Qed.

Section Base64_facts.
Import Base64.
Local Open Scope N_scope.

Lemma base64_value_char (n : N) : n < 64 -> value (char n) = Some n.
Proof.
  intros H. destruct n as [|p]; [reflexivity|].
  do 6 (destruct p as [p|p|]; try reflexivity); lia.
Qed.

Lemma base64_char_not_pad (n : N) : n < 64 -> Ascii.eqb (char n) "="%char = false.
Proof.
  intros H. destruct n as [|p]; [reflexivity|].
  do 6 (destruct p as [p|p|]; try reflexivity); lia.
Qed.

Lemma sextets_chars (l : list N) (tail : string) :
  Forall (fun n => n < 64) l ->
  sextets (string_of_list_ascii (map char l) ++ tail) = l ++ sextets tail.
Proof.
  induction 1 as [|n l Hn _ IH]; cbn; [reflexivity|].
  now rewrite base64_char_not_pad, base64_value_char, IH.
Qed.

Lemma sextets_padding (len : nat) : sextets (padding len) = [].
Proof. unfold padding. destruct (len mod 3)%nat as [|[|[|]]]; reflexivity. Qed.

Ltac octet_arith := unfold octet in *; zify; Z.to_euclidean_division_equations; lia.

Lemma sextets_of_bounded (b : list N) :
  Forall octet b -> Forall (fun n => n < 64) (sextets_of b).
Proof.
  revert b. fix IH 1. intros [|x [|y [|z rest]]] H; cbn.
  - constructor.
  - inversion_clear H as [|? ? Hx _].
    repeat (apply List.Forall_cons; [octet_arith|]). constructor.
  - inversion_clear H as [|? ? Hx H']. inversion_clear H' as [|? ? Hy _].
    repeat (apply List.Forall_cons; [octet_arith|]). constructor.
  - inversion_clear H as [|? ? Hx H']. inversion_clear H' as [|? ? Hy H''].
    inversion_clear H'' as [|? ? Hz Hr].
    do 4 (apply List.Forall_cons; [octet_arith|]).
    apply IH, Hr.
Qed.

Lemma octets_sextets (b : list N) : Forall octet b -> octets_of (sextets_of b) = b.
Proof.
  revert b. fix IH 1. intros [|x [|y [|z rest]]] H; cbn.
  - reflexivity.
  - inversion_clear H as [|? ? Hx _]. f_equal. octet_arith.
  - inversion_clear H as [|? ? Hx H']. inversion_clear H' as [|? ? Hy _]. repeat f_equal; octet_arith.
  - inversion_clear H as [|? ? Hx H']. inversion_clear H' as [|? ? Hy H''].
    inversion_clear H'' as [|? ? Hz Hr]. rewrite (IH rest Hr).
    repeat f_equal; octet_arith.
Qed.

Lemma to_N_octets (b : Buffer) : Forall octet (map Byte.to_N b).
Proof.
  apply Forall_forall. intros n Hn. apply list_elem_of_fmap in Hn as (x & -> & _).
  unfold octet. pose proof (Byte.to_N_bounded x). lia.
Qed.

Lemma byte_of_to_N (x : byte) : byte_of_N (Byte.to_N x) = x.
Proof.
  unfold byte_of_N. pose proof (Byte.to_N_bounded x).
  rewrite N.mod_small by lia. now rewrite Byte.of_to_N.
Qed.

Lemma reference_base64_roundtrip (b : Buffer) :
  Base64.decode (Base64.encode b) = b.
Proof.
  unfold Base64.decode, Base64.encode.
  rewrite sextets_chars by apply sextets_of_bounded, to_N_octets.
  rewrite sextets_padding, app_nil_r, octets_sextets by apply to_N_octets.
  rewrite map_map. rewrite <- (map_id b) at 2. apply map_ext. intros x. apply byte_of_to_N.
Qed.

End Base64_facts.

#[export] Instance reference_laws : RuntimeLaws reference_runtime.
Proof.
  split.
  - exact reference_hmac_length.
  - exact reference_base64_roundtrip.
Qed.

(** SHA-256 of "abc" (FIPS 180-4) and HMAC-SHA-256 of RFC 4231, test case 2. *)
Example sha256_abc :
  Hex.encode (SHA256.sha256 (utf8 "abc"))
  = "ba7816bf8f01cfea414140de5dae2223b00361a396177a9cb410ff61f20015ad".
Proof. vm_compute. reflexivity. Qed.

Example hmac_rfc4231_case2 :
  Hex.encode (HMAC.hmac_sha256 (utf8 "Jefe") (utf8 "what do ya want for nothing?"))
  = "5bdcc146bf60754e6a042426089575c75a003f089d2739839dec58b964ec3843".
Proof. vm_compute. reflexivity. Qed.

(** [HKDF.derive] on RFC 5869, test case 1. *)
Example hkdf_rfc5869_case1 :
  HKDF.derive (rt := reference_runtime)
    (Hex.decode "0b0b0b0b0b0b0b0b0b0b0b0b0b0b0b0b0b0b0b0b0b0b")
    (Hex.decode "000102030405060708090a0b0c")
    (Hex.decode "f0f1f2f3f4f5f6f7f8f9") 42
  = ok (Hex.decode
          ("3cb25f25faacd57a90434f64d0362f2a2d2d0a90cf1a5a4c5db02d56ecc4c5bf"
           ++ "34007208d5b887185865")).
Proof. vm_compute. reflexivity. Qed.

Lemma HKDF_derive_length_limit_witness :
  (forall key data,
      length (hmac_sha256 (Runtime := reference_runtime) key data) = 32%nat)
  /\ HKDF.derive (rt := reference_runtime) (utf8 "test") (utf8 "salt") (utf8 "info") 8161
     = throw (Error "HKDF: requested length too large")
  /\ exists okm,
       HKDF.derive (rt := reference_runtime) (utf8 "test") (utf8 "salt") (utf8 "info") 8160
       = ok okm
       /\ Z.of_nat (length okm) = 8160%Z.
Proof.
  split; [exact reference_hmac_length|].
  destruct (HKDF_derive_length_limit (rt := reference_runtime) reference_hmac_length
              (utf8 "test") (utf8 "salt") (utf8 "info")) as (_ & _ & H1 & okm & H2 & H3 & _).
  split; [exact H1|]. exists okm. split; assumption.
Defined.

Lemma SecureRandom_zero_length_throws_witness :
  (forall n, length (repeat x2a n) = n)
  /\ SecureRandom.bytes (repeat x2a) 0
     = throw (Error "Insufficient entropy detected in random generation")
  /\ SecureRandom.base64 (H := reference_runtime) (repeat x2a) 0
     = throw (Error "Insufficient entropy detected in random generation").
Proof.
  split; [intros n; apply repeat_length|].
  apply (SecureRandom_zero_length_throws (rt := reference_runtime) (repeat x2a)).
  intros n. apply repeat_length.
Defined.

(** ** Running the handlers *)

Ltac unfold_js :=
  unfold SecureConsumer.handleMessage, SecureConsumer._processHandshakeInit,
    SecureConsumer._processKeyConfirmationRequest, SecureConsumer._deriveKeys,
    SecureProvider.handleResponse, SecureProvider._processHandshakeResponse,
    SecureProvider._processKeyConfirmation, SecureProvider._deriveKeys,
    SecureProvider.startHandshake,
    try_catch, bind, ret, lift, get, modify, alloc, read, read_opt, throw_if, throwM,
    _normalizeMessage.

Section Handshake.
Context `{rt : Runtime} {laws : RuntimeLaws rt}.

Lemma derive_32 (ikm salt : Buffer) (label : string) :
  HKDF.derive ikm salt (createContextInfo label 1) 32 = ok (kdf ikm salt label).
Proof.
  unfold HKDF.derive, HKDF.expand, HKDF.extract, kdf.
  change (HKDF.ceil_div 32 HKDF.hashLen) with 1%Z.
  change (Z.to_nat 1) with 1%nat.
  cbn [Z.gtb Z.compare Pos.compare Pos.compare_cont HKDF.expand_loop app concat].
  change (byte_of_Z 1) with x01.
  unfold subarray0. rewrite app_nil_r, hmac_sha256_length.
  cbn. rewrite firstn_all2; [reflexivity|]. rewrite hmac_sha256_length. lia.
Qed.

Lemma kdf_length (secret salt : Buffer) (label : string) :
  length (kdf secret salt label) = 32%nat.
Proof. apply hmac_sha256_length. Qed.

Lemma new_provider_inv (eP : ECDH) (rndP : nat -> Buffer) (p0 : World (SecureProvider.t ECDH)) :
  SecureProvider.new eP rndP = ok p0 ->
  p0 = mkWorld [rndP 32%nat]
         (SecureProvider.mkT eP
            (SecureProvider.mkHandshakeState (toBase64 (rndP 16%nat)) 0%nat
               None None None false)).
Proof.
  unfold SecureProvider.new, SecureRandom.base64, SecureRandom.bytes, SecureRandom.bytes_of.
  destruct (every_eq x00 (rndP 16%nat) || every_eq xff (rndP 16%nat)); [discriminate|].
  destruct (every_eq x00 (rndP 32%nat) || every_eq xff (rndP 32%nat)); [discriminate|].
  unfold ok. congruence.
Qed.

Lemma new_consumer_inv (eC : ECDH) (rndC : nat -> Buffer) (c0 : World (SecureConsumer.t ECDH)) :
  SecureConsumer.new eC rndC = ok c0 ->
  c0 = mkWorld [rndC 32%nat]
         (SecureConsumer.mkT eC
            (SecureConsumer.mkHandshakeState None None 0%nat None None false None)).
Proof.
  unfold SecureConsumer.new, SecureRandom.bytes, SecureRandom.bytes_of.
  destruct (every_eq x00 (rndC 32%nat) || every_eq xff (rndC 32%nat)); [discriminate|].
  unfold ok. congruence.
Qed.

(** A text that parses to [m] is handled as [m] itself. *)
Lemma provider_delivery (raw : Raw) (m : json) (w : World (SecureProvider.t ECDH)) :
  delivers raw m ->
  SecureProvider.handleResponse raw w = SecureProvider.handleResponse (RawValue m) w.
Proof.
  destruct raw as [s|v]; cbn; intros D; [|now subst].
  unfold_js. now rewrite D.
Qed.

Lemma consumer_delivery (raw : Raw) (m : json) (w : World (SecureConsumer.t ECDH)) :
  delivers raw m ->
  SecureConsumer.handleMessage raw w = SecureConsumer.handleMessage (RawValue m) w.
Proof.
  destruct raw as [s|v]; cbn; intros D; [|now subst].
  unfold_js. now rewrite D.
Qed.

End Handshake.

Ltac rewrite_derive :=
  repeat match goal with
    | |- context [HKDF.derive ?a ?b (createContextInfo ?l 1) 32] =>
        rewrite (derive_32 a b l)
    end.

Section HonestRun.
Context `{rt : Runtime} {laws : RuntimeLaws rt}.
Variables (eP eC : ECDH) (rndP rndC : nat -> Buffer).
Variables (p0 : World (SecureProvider.t ECDH)) (c0 : World (SecureConsumer.t ECDH)).
Variable secret : Buffer.
Hypothesis fresh_provider : SecureProvider.new eP rndP = ok p0.
Hypothesis fresh_consumer : SecureConsumer.new eC rndC = ok c0.
Hypothesis ecdh_provider : computeSecret eP (getPublicKey eC) = Some secret.
Hypothesis ecdh_consumer : computeSecret eC (getPublicKey eP) = Some secret.
Hypothesis init_parses :
  JSON_parse (JSON_stringify
                (SecureProvider.initMessage (toBase64 (rndP 16%nat)) (getPublicKey eP)
                   (rndP 32%nat)))
  = Some (SecureProvider.initMessage (toBase64 (rndP 16%nat)) (getPublicKey eP)
            (rndP 32%nat)).

Local Arguments HKDF.derive : simpl never.
Local Arguments createContextInfo : simpl never.

(** The honest run, step by step: the four messages and the two final
    states in terms of the nonces, the public keys and the shared secret. *)
Lemma honest_run_facts :
  let sid := toBase64 (rndP 16%nat) in
  let nP := rndP 32%nat in
  let nC := rndC 32%nat in
  let pkP := getPublicKey eP in
  let pkC := getPublicKey eC in
  let kE := kdf secret (nP ++ nC) "SubtylSocket-Encryption" in
  let kA := kdf secret (nP ++ nC) "SubtylSocket-Authentication" in
  let K := kdf secret (nP ++ nC) "SubtylSocket-KeyConfirmation" in
  exists tr,
    honest_run p0 c0 = Some tr
    /\ HANDSHAKE_INIT tr = JSON_stringify (SecureProvider.initMessage sid pkP nP)
    /\ HANDSHAKE_RESPONSE tr = SecureConsumer.responseMessage (Some (JStr sid)) pkC nC
    /\ KEY_CONFIRM_REQUEST tr = confirmRequest (toBase64 (MAC_I K nP nC pkP pkC))
    /\ KEY_CONFIRMATION tr
       = SecureConsumer.confirmationMessage (Some (JStr sid)) pkC (MAC_R K nP nC pkP pkC)
    /\ provider_awaiting tr
       = mkWorld [nP; nC; secret; kE; kA; K]
           (SecureProvider.mkT eP
              (SecureProvider.mkHandshakeState sid 0%nat (Some 1%nat) (Some 2%nat)
                 (Some (Derived.mk 3 4 5)) false))
    /\ provider_done tr
       = mkWorld [nP; nC; secret; kE; kA; K]
           (SecureProvider.mkT eP
              (SecureProvider.mkHandshakeState sid 0%nat (Some 1%nat) (Some 2%nat)
                 (Some (Derived.mk 3 4 5)) true))
    /\ consumer_done tr
       = mkWorld [nC; nP; pkP; secret; kE; kA; K]
           (SecureConsumer.mkT eC
              (SecureConsumer.mkHandshakeState (Some (JStr sid)) (Some 1%nat) 0%nat
                 (Some 3%nat) (Some (Derived.mk 4 5 6)) true (Some 2%nat))).
Proof.
  apply new_provider_inv in fresh_provider. apply new_consumer_inv in fresh_consumer.
  subst p0 c0. cbv zeta. unfold honest_run.
  unfold_js. cbn. rewrite init_parses. unfold SecureProvider.initMessage.
  repeat (progress (cbn;
    rewrite ?String.eqb_refl, ?base64_roundtrip, ?ecdh_consumer, ?ecdh_provider,
      ?constantTimeCompare_refl; rewrite_derive)).
  eexists. split; [reflexivity|]. cbn. repeat split; reflexivity.
Qed.

(** The consumer between its two messages: it has answered the
    handshake-init and waits for the KEY_CONFIRM_REQUEST. *)
Lemma honest_run_consumer_responded (tr : Transcript ECDH) :
  honest_run p0 c0 = Some tr ->
  let sid := toBase64 (rndP 16%nat) in
  let nP := rndP 32%nat in
  let nC := rndC 32%nat in
  let kE := kdf secret (nP ++ nC) "SubtylSocket-Encryption" in
  let kA := kdf secret (nP ++ nC) "SubtylSocket-Authentication" in
  let K := kdf secret (nP ++ nC) "SubtylSocket-KeyConfirmation" in
  consumer_responded tr
  = mkWorld [nC; nP; getPublicKey eP; secret; kE; kA; K]
      (SecureConsumer.mkT eC
         (SecureConsumer.mkHandshakeState (Some (JStr sid)) (Some 1%nat) 0%nat
            (Some 3%nat) (Some (Derived.mk 4 5 6)) false (Some 2%nat))).
Proof.
  apply new_provider_inv in fresh_provider. apply new_consumer_inv in fresh_consumer.
  subst p0 c0. cbv zeta. unfold honest_run.
  unfold_js. cbn. rewrite init_parses. unfold SecureProvider.initMessage.
  repeat (progress (cbn;
    rewrite ?String.eqb_refl, ?base64_roundtrip, ?ecdh_consumer, ?ecdh_provider,
      ?constantTimeCompare_refl; rewrite_derive)).
  intros E. injection E as <-. reflexivity.
Qed.

End HonestRun.

(** C1. In every honest four-message run between a freshly constructed
    provider and consumer, both peers end confirmed and hand out the same
    32-octet encryption key and the same 32-octet authentication key. *)
Theorem key_agreement `{rt : Runtime} {laws : RuntimeLaws rt}
  (eP eC : ECDH) (rndP rndC : nat -> Buffer)
  (p0 : World (SecureProvider.t ECDH)) (c0 : World (SecureConsumer.t ECDH)) (secret : Buffer)
  (fresh_provider : SecureProvider.new eP rndP = ok p0)
  (fresh_consumer : SecureConsumer.new eC rndC = ok c0)
  (ecdh_provider : computeSecret eP (getPublicKey eC) = Some secret)
  (ecdh_consumer : computeSecret eC (getPublicKey eP) = Some secret)
  (init_parses :
     JSON_parse (JSON_stringify
                   (SecureProvider.initMessage (toBase64 (rndP 16%nat)) (getPublicKey eP)
                      (rndP 32%nat)))
     = Some (SecureProvider.initMessage (toBase64 (rndP 16%nat)) (getPublicKey eP)
               (rndP 32%nat))) :
  exists tr kp kc,
    honest_run p0 c0 = Some tr
    /\ SecureProvider.isHandshakeConfirmed (this (provider_done tr)) = true
    /\ SecureConsumer.isHandshakeConfirmed (this (consumer_done tr)) = true
    /\ SecureProvider.getDerivedKeys (this (provider_done tr)) = Some kp
    /\ SecureConsumer.getDerivedKeys (this (consumer_done tr)) = Some kc
    /\ deref (heap (provider_done tr)) (Exposed.encryptionKey kp)
       = deref (heap (consumer_done tr)) (Exposed.encryptionKey kc)
    /\ deref (heap (provider_done tr)) (Exposed.authenticationKey kp)
       = deref (heap (consumer_done tr)) (Exposed.authenticationKey kc)
    /\ length (deref (heap (provider_done tr)) (Exposed.encryptionKey kp)) = 32%nat
    /\ length (deref (heap (provider_done tr)) (Exposed.authenticationKey kp)) = 32%nat.
Proof.
  destruct (honest_run_facts eP eC rndP rndC p0 c0 secret fresh_provider fresh_consumer
              ecdh_provider ecdh_consumer init_parses)
    as (tr & Hrun & _ & _ & _ & _ & _ & Hp & Hc).
  exists tr, (Exposed.mk 3 4), (Exposed.mk 4 5).
  rewrite Hp, Hc. cbn.
  split; [exact Hrun|]. repeat split; try reflexivity; apply kdf_length.
Qed.

Lemma key_agreement_witness :
  SecureProvider.new (rt := reference_runtime) Fixture.eP Fixture.rndP = ok Fixture.p0
  /\ SecureConsumer.new (rt := reference_runtime) Fixture.eC Fixture.rndC = ok Fixture.c0
  /\ exists tr kp kc,
       honest_run (rt := reference_runtime) Fixture.p0 Fixture.c0 = Some tr
       /\ SecureProvider.getDerivedKeys (this (provider_done tr)) = Some kp
       /\ SecureConsumer.getDerivedKeys (this (consumer_done tr)) = Some kc
       /\ deref (heap (provider_done tr)) (Exposed.encryptionKey kp)
          = deref (heap (consumer_done tr)) (Exposed.encryptionKey kc)
       /\ deref (heap (provider_done tr)) (Exposed.authenticationKey kp)
          = deref (heap (consumer_done tr)) (Exposed.authenticationKey kc).
Proof.
  assert (Hp : SecureProvider.new (rt := reference_runtime) Fixture.eP Fixture.rndP
               = ok Fixture.p0) by (vm_compute; reflexivity).
  assert (Hc : SecureConsumer.new (rt := reference_runtime) Fixture.eC Fixture.rndC
               = ok Fixture.c0) by (vm_compute; reflexivity).
  split; [exact Hp|]. split; [exact Hc|].
  destruct (key_agreement (rt := reference_runtime) Fixture.eP Fixture.eC
              Fixture.rndP Fixture.rndC Fixture.p0 Fixture.c0 Fixture.secret Hp Hc)
    as (tr & kp & kc & H1 & _ & _ & H2 & H3 & H4 & H5 & _).
  - vm_compute; reflexivity.
  - vm_compute; reflexivity.
  - vm_compute; reflexivity.
  - exists tr, kp, kc. exact (conj H1 (conj H2 (conj H3 (conj H4 H5)))).
Defined.

(** ** Invariants of the reachable states *)

Section Preservation.
Context {S : Type} (J : S -> Prop).

Lemma pres_ret {A} (a : A) : preserves J (ret a).
Proof. intros w H. exact H. Qed.

Lemma pres_lift {A} (r : result A) : preserves J (lift r).
Proof. intros w H. exact H. Qed.

Lemma pres_throwM {A} (e : exn) : preserves J (throwM (A := A) e).
Proof. intros w H. exact H. Qed.

Lemma pres_get : preserves J get.
Proof. intros w H. exact H. Qed.

Lemma pres_read (r : nat) : preserves J (read r).
Proof. intros w H. exact H. Qed.

Lemma pres_read_opt (r : option nat) : preserves J (read_opt r).
Proof. destruct r; intros w H; exact H. Qed.

Lemma pres_alloc (b : Buffer) : preserves J (alloc b).
Proof. intros w H. exact H. Qed.

Lemma pres_fill0 (r : nat) : preserves J (fill0 r).
Proof. intros w H. exact H. Qed.

Lemma pres_throw_if (c : bool) (e : exn) : preserves J (throw_if c e).
Proof. destruct c; intros w H; exact H. Qed.


Lemma pres_bind {A B} (m : M S A) (k : A -> M S B) :
  preserves J m -> (forall a, preserves J (k a)) -> preserves J (bind m k).
Proof.
  intros Hm Hk w H. unfold bind. specialize (Hm w H).
  destruct (m w) as [[e|a] w']; cbn in *; [exact Hm|]. now apply Hk.
Qed.

Lemma pres_try_catch {A} (body : M S A) (handler : exn -> M S A) :
  preserves J body -> (forall e, preserves J (handler e)) ->
  preserves J (try_catch body handler).
Proof.
  intros Hb Hh w H. unfold try_catch. specialize (Hb w H).
  destruct (body w) as [[e|a] w']; cbn in *; [|exact Hb]. now apply Hh.
Qed.

End Preservation.

Create HintDb pres.
#[export] Hint Resolve pres_ret pres_lift pres_throwM pres_get pres_read pres_read_opt
  pres_alloc pres_fill0 pres_throw_if pres_bind pres_try_catch : pres.
#[export] Hint Extern 2 (preserves _ (match ?x with _ => _ end)) => destruct x : pres.
#[export] Hint Extern 2 (preserves _ (if ?x then _ else _)) => destruct x : pres.

Section KeysDistinct.
Context `{rt : Runtime}.












End KeysDistinct.

(** ** How a call of a handler can end *)

Lemma lookup_fresh (h ext : Heap) (i : nat) : (h ++ ext) !! (length h + i)%nat = ext !! i.
Proof. rewrite lookup_app_r by lia. f_equal. lia. Qed.

(** Reading the Buffers a handler has just made: the store is the old one
    followed by the new objects. *)
Ltac fresh_lookups :=
  unfold deref; rewrite ?length_app; cbn [length];
  rewrite <- ?app_assoc; cbn [app];
  rewrite <- ?Nat.add_assoc; cbn [Nat.add];
  rewrite ?lookup_fresh; cbn [lookup list_lookup default].

Ltac error_case :=
  left; eexists; split; [reflexivity|]; cbn; auto.

Section Outcomes.
Context `{rt : Runtime} {laws : RuntimeLaws rt}.

Local Arguments HKDF.derive : simpl never.
Local Arguments createContextInfo : simpl never.

Lemma consumer_outcome_value (data : json) (w : World (SecureConsumer.t ECDH)) :
  consumer_outcome_of w (SecureConsumer.handleMessage (RawValue data) w).
Proof.
  unfold consumer_outcome_of, chs. cbv zeta. destruct w as [h o].
  destruct data as [|b|n|s|items|fields];
    try (unfold_js; cbn; error_case).
  unfold_js. cbn.
  destruct (strict_eq_str (assoc "type" fields) "handshake-init") eqn:T1; cbn.
  - destruct (strict_eq_num (assoc "version" fields) 1); cbn; [|error_case].
    destruct (opt_includes (assoc "supportedCiphers" fields) "aes-256-gcm") as [e|[|]];
      cbn; [error_case| |error_case].
    destruct (opt_includes (assoc "supportedHashes" fields) "sha256") as [e|[|]];
      cbn; [error_case| |error_case].
    destruct (Buffer_from_base64 (assoc "providerNonce" fields)) as [e|pnBuf];
      cbn; [error_case|].
    destruct (Buffer_from_base64 (assoc "publicKey" fields)) as [e|pkBuf];
      cbn; [error_case|].
    destruct (computeSecret (SecureConsumer.ecdh o) pkBuf) as [secret|]; cbn; [|error_case].
    rewrite_derive. cbn.
    right; left. do 2 eexists. split; [reflexivity|]. cbn.
    split; [reflexivity|]. split; [reflexivity|].
    cbn. fresh_lookups. repeat split; apply kdf_length.
  - destruct (strict_eq_str (assoc "type" fields) "key-confirmation-request") eqn:T2; cbn;
      [|error_case].
    destruct (Buffer_from_base64 (assoc "confirmationMac" fields)) as [e|mac];
      cbn; [error_case|].
    destruct (SecureConsumer.providerNonce (SecureConsumer.handshakeState o)) as [pn|];
      cbn; [|error_case].
    destruct (SecureConsumer.providerPublicKey (SecureConsumer.handshakeState o)) as [ppk|];
      cbn; [|error_case].
    destruct (SecureConsumer.derivedKeys (SecureConsumer.handshakeState o)) as [dk|] eqn:Edk;
      cbn; [|error_case].
    destruct (constantTimeCompare _ _); cbn; [|error_case].
    right; right. eexists. split; [reflexivity|]. split; [reflexivity|]. congruence.
Qed.

Lemma consumer_outcome (raw : Raw) (w : World (SecureConsumer.t ECDH)) :
  consumer_outcome_of w (SecureConsumer.handleMessage raw w).
Proof.
  destruct raw as [s|data]; [|apply consumer_outcome_value].
  destruct (JSON_parse s) as [data|] eqn:Ep.
  - rewrite (consumer_delivery (RawString s) data w Ep). apply consumer_outcome_value.
  - unfold consumer_outcome_of. unfold_js. cbn. rewrite Ep. cbn. error_case.
Qed.

Lemma provider_outcome_value (data : json) (w : World (SecureProvider.t ECDH)) :
  provider_outcome_of w (SecureProvider.handleResponse (RawValue data) w).
Proof.
  unfold provider_outcome_of, phs. cbv zeta. destruct w as [h o].
  destruct data as [|b|n|s|items|fields];
    try (unfold_js; cbn; error_case).
  unfold_js. cbn.
  destruct (strict_eq_str (assoc "type" fields) "handshake-response") eqn:T1; cbn.
  - destruct (strict_eq_str (assoc "sessionId" fields)
                (SecureProvider.sessionId (SecureProvider.handshakeState o)));
      cbn; [|error_case].
    destruct (Buffer_from_base64 (assoc "consumerNonce" fields)) as [e|cnBuf];
      cbn; [error_case|].
    destruct (Buffer_from_base64 (assoc "publicKey" fields)) as [e|pkBuf];
      cbn; [error_case|].
    destruct (computeSecret (SecureProvider.ecdh o) pkBuf) as [secret|]; cbn; [|error_case].
    rewrite_derive. cbn.
    right; left. do 2 eexists. split; [reflexivity|]. cbn.
    split; [reflexivity|]. split; [reflexivity|].
    cbn. fresh_lookups. repeat split; apply kdf_length.
  - destruct (strict_eq_str (assoc "type" fields) "key-confirmation") eqn:T2; cbn;
      [|error_case].
    destruct (Buffer_from_base64 (assoc "confirmationMac" fields)) as [e|mac];
      cbn; [error_case|].
    destruct (Buffer_from_base64 (assoc "publicKey" fields)) as [e|pkBuf];
      cbn; [error_case|].
    destruct (SecureProvider.consumerNonce (SecureProvider.handshakeState o)) as [cn|];
      cbn; [|error_case].
    destruct (SecureProvider.derivedKeys (SecureProvider.handshakeState o)) as [dk|] eqn:Edk;
      cbn; [|error_case].
    destruct (constantTimeCompare _ _); cbn; [|error_case].
    right; right. split; [reflexivity|]. split; [reflexivity|]. congruence.
Qed.

Lemma provider_outcome (raw : Raw) (w : World (SecureProvider.t ECDH)) :
  provider_outcome_of w (SecureProvider.handleResponse raw w).
Proof.
  destruct raw as [s|data]; [|apply provider_outcome_value].
  destruct (JSON_parse s) as [data|] eqn:Ep.
  - rewrite (provider_delivery (RawString s) data w Ep). apply provider_outcome_value.
  - unfold provider_outcome_of. unfold_js. cbn. rewrite Ep. cbn. error_case.
Qed.

End Outcomes.

(** ** The confirmed flag *)

Section Unconfirmed.
Context `{rt : Runtime} {laws : RuntimeLaws rt}.







End Unconfirmed.


(** ** What each handler does, in any state *)

Section Handlers.
Context `{rt : Runtime} {laws : RuntimeLaws rt}.

Local Arguments HKDF.derive : simpl never.
Local Arguments createContextInfo : simpl never.

Lemma provider_unknown_type (w : World (SecureProvider.t ECDH)) (raw : Raw) (data : json)
  (ty : option json) :
  delivers raw data ->
  getProp data "type" = ok ty ->
  strict_eq_str ty "handshake-response" = false ->
  strict_eq_str ty "key-confirmation" = false ->
  SecureProvider.handleResponse raw w
  = (ok (SecureProvider.mkResult "error" false (Some "Unknown message type") None), w).
Proof.
  intros D Hty H1 H2. rewrite (provider_delivery raw data w D).
  unfold_js. cbn. rewrite Hty. cbn. rewrite H1, H2. reflexivity.
Qed.

Lemma consumer_unknown_type (w : World (SecureConsumer.t ECDH)) (raw : Raw) (data : json)
  (ty : option json) :
  delivers raw data ->
  getProp data "type" = ok ty ->
  strict_eq_str ty "handshake-init" = false ->
  strict_eq_str ty "key-confirmation-request" = false ->
  SecureConsumer.handleMessage raw w
  = (ok (SecureConsumer.mkResult "error" None false (Some "Unknown message type")), w).
Proof.
  intros D Hty H1 H2. rewrite (consumer_delivery raw data w D).
  unfold_js. cbn. rewrite Hty. cbn. rewrite H1, H2. reflexivity.
Qed.

Lemma provider_session_mismatch (w : World (SecureProvider.t ECDH)) (raw : Raw)
  (fields : list (string * json)) :
  delivers raw (JObj fields) ->
  assoc "type" fields = Some (JStr "handshake-response") ->
  strict_eq_str (assoc "sessionId" fields) (SecureProvider.getSessionId (this w)) = false ->
  SecureProvider.handleResponse raw w
  = (ok (SecureProvider.mkResult "error" false (Some "Session ID mismatch") None), w).
Proof.
  intros D Hty Hsid. rewrite (provider_delivery raw _ w D).
  unfold SecureProvider.getSessionId in Hsid. destruct w as [h o].
  unfold_js. cbn in *. rewrite Hty. cbn. rewrite Hsid. reflexivity.
Qed.

Lemma provider_verifies (w : World (SecureProvider.t ECDH)) (raw : Raw)
  (fields : list (string * json)) (mac pk : string) (cn : nat) (dk : Derived.keys) :
  delivers raw (JObj fields) ->
  assoc "type" fields = Some (JStr "key-confirmation") ->
  assoc "confirmationMac" fields = Some (JStr mac) ->
  assoc "publicKey" fields = Some (JStr pk) ->
  SecureProvider.consumerNonce (SecureProvider.handshakeState (this w)) = Some cn ->
  SecureProvider.derivedKeys (SecureProvider.handshakeState (this w)) = Some dk ->
  let h := heap w in
  let o := this w in
  let expectedMac :=
    hmac_sha256 (deref h (Derived.confirmationKey dk))
      (deref h cn
       ++ deref h (SecureProvider.providerNonce (SecureProvider.handshakeState o))
       ++ fromBase64 pk ++ getPublicKey (SecureProvider.ecdh o)) in
  SecureProvider.handleResponse raw w
  = if constantTimeCompare (fromBase64 mac) expectedMac
    then (ok (SecureProvider.mkResult "handshake-complete" true None None),
          mkWorld h (SecureProvider.set_confirmed true o))
    else (ok (SecureProvider.mkResult "error" false
                (Some "Key confirmation failed - potential MITM attack") None), w).
Proof.
  intros D Hty Hmac Hpk Hcn Hdk. cbv zeta. rewrite (provider_delivery raw _ w D).
  destruct w as [h o].
  unfold_js. cbn in *. rewrite Hty. cbn. rewrite Hmac, Hpk. cbn. rewrite Hcn. cbn.
  rewrite Hdk. cbn.
  destruct (constantTimeCompare _ _); reflexivity.
Qed.

Lemma consumer_verifies (w : World (SecureConsumer.t ECDH)) (raw : Raw)
  (fields : list (string * json)) (mac : string) (pn ppk : nat) (dk : Derived.keys) :
  delivers raw (JObj fields) ->
  assoc "type" fields = Some (JStr "key-confirmation-request") ->
  assoc "confirmationMac" fields = Some (JStr mac) ->
  SecureConsumer.providerNonce (SecureConsumer.handshakeState (this w)) = Some pn ->
  SecureConsumer.providerPublicKey (SecureConsumer.handshakeState (this w)) = Some ppk ->
  SecureConsumer.derivedKeys (SecureConsumer.handshakeState (this w)) = Some dk ->
  let h := heap w in
  let o := this w in
  let K := deref h (Derived.confirmationKey dk) in
  let N_I := deref h pn in
  let N_R := deref h (SecureConsumer.consumerNonce (SecureConsumer.handshakeState o)) in
  let PK_I := deref h ppk in
  let PK_R := getPublicKey (SecureConsumer.ecdh o) in
  let expectedMac := hmac_sha256 K (N_I ++ N_R ++ PK_I ++ PK_R) in
  SecureConsumer.handleMessage raw w
  = if constantTimeCompare (fromBase64 mac) expectedMac
    then (ok (SecureConsumer.mkResult "key-confirmation"
                (Some (SecureConsumer.confirmationMessage
                         (SecureConsumer.sessionId (SecureConsumer.handshakeState o))
                         PK_R (hmac_sha256 K (N_R ++ N_I ++ PK_R ++ PK_I))))
                true None),
          mkWorld h (SecureConsumer.set_confirmed true o))
    else (ok (SecureConsumer.mkResult "error" None false
                (Some "Provider key confirmation failed - potential MITM attack")), w).
Proof.
  intros D Hty Hmac Hpn Hppk Hdk. cbv zeta. rewrite (consumer_delivery raw _ w D).
  destruct w as [h o].
  unfold_js. cbn in *. rewrite Hty. cbn. rewrite Hmac. cbn. rewrite Hpn. cbn.
  rewrite Hppk. cbn. rewrite Hdk. cbn.
  destruct (constantTimeCompare _ _); reflexivity.
Qed.

(** A well-formed handshake-init is processed in every state. *)
Lemma consumer_accepts_init (w : World (SecureConsumer.t ECDH)) (raw : Raw)
  (fields : list (string * json)) (nonce pk : string) (ciphers hashes : list json)
  (secret : Buffer) :
  delivers raw (JObj fields) ->
  assoc "type" fields = Some (JStr "handshake-init") ->
  assoc "version" fields = Some (JNum 1) ->
  assoc "supportedCiphers" fields = Some (JArr ciphers) ->
  assoc "supportedHashes" fields = Some (JArr hashes) ->
  In (JStr "aes-256-gcm") ciphers ->
  In (JStr "sha256") hashes ->
  assoc "providerNonce" fields = Some (JStr nonce) ->
  assoc "publicKey" fields = Some (JStr pk) ->
  computeSecret (SecureConsumer.ecdh (this w)) (fromBase64 pk) = Some secret ->
  exists resp w',
    SecureConsumer.handleMessage raw w
    = (ok (SecureConsumer.mkResult "handshake-response" (Some resp) false None), w')
    /\ SecureConsumer.getSessionId (this w') = assoc "sessionId" fields
    /\ SecureConsumer.isHandshakeConfirmed (this w')
       = SecureConsumer.isHandshakeConfirmed (this w)
    /\ exists dk,
        SecureConsumer.derivedKeys (SecureConsumer.handshakeState (this w')) = Some dk
        /\ (length (heap w) <= Derived.encryptionKey dk)%nat.
Proof.
  intros D Hty Hv Hc Hh Hinc Hinh Hn Hpk Hs.
  rewrite (consumer_delivery raw _ w D). destruct w as [h o].
  assert (Ec : existsb (fun i => strict_eq_str (Some i) "aes-256-gcm") ciphers = true).
  { apply existsb_exists. eexists; split; [exact Hinc | reflexivity]. }
  assert (Eh : existsb (fun i => strict_eq_str (Some i) "sha256") hashes = true).
  { apply existsb_exists. eexists; split; [exact Hinh | reflexivity]. }
  unfold_js. cbn in *. rewrite Hty. cbn. rewrite Hv. cbn. rewrite Hc. cbn. rewrite Ec. cbn.
  rewrite Hh. cbn. rewrite Eh. cbn. rewrite Hn. cbn. rewrite Hpk. cbn. rewrite Hs. cbn.
  rewrite_derive. cbn.
  do 2 eexists. split; [reflexivity|]. cbn. split; [reflexivity|]. split; [reflexivity|].
  eexists. split; [reflexivity|]. cbn. rewrite !length_app. lia.
Qed.

(** A well-formed handshake-response carrying the provider's session id is
    processed in every state. *)
Lemma provider_accepts_response (w : World (SecureProvider.t ECDH)) (raw : Raw)
  (fields : list (string * json)) (nonce pk : string) (secret : Buffer) :
  delivers raw (JObj fields) ->
  assoc "type" fields = Some (JStr "handshake-response") ->
  assoc "sessionId" fields = Some (JStr (SecureProvider.getSessionId (this w))) ->
  assoc "consumerNonce" fields = Some (JStr nonce) ->
  assoc "publicKey" fields = Some (JStr pk) ->
  computeSecret (SecureProvider.ecdh (this w)) (fromBase64 pk) = Some secret ->
  exists mac w',
    SecureProvider.handleResponse raw w
    = (ok (SecureProvider.mkResult "send-confirmation" false None (Some mac)), w')
    /\ SecureProvider.isHandshakeConfirmed (this w')
       = SecureProvider.isHandshakeConfirmed (this w)
    /\ exists dk,
        SecureProvider.derivedKeys (SecureProvider.handshakeState (this w')) = Some dk
        /\ (length (heap w) <= Derived.encryptionKey dk)%nat.
Proof.
  intros D Hty Hsid Hn Hpk Hs.
  rewrite (provider_delivery raw _ w D). destruct w as [h o].
  unfold SecureProvider.getSessionId in Hsid.
  unfold_js. cbn in *. rewrite Hty. cbn. rewrite Hsid. cbn. rewrite String.eqb_refl. cbn.
  rewrite Hn. cbn. rewrite Hpk. cbn. rewrite Hs. cbn.
  rewrite_derive. cbn.
  do 2 eexists. split; [reflexivity|]. cbn. split; [reflexivity|].
  eexists. split; [reflexivity|]. cbn. rewrite !length_app. lia.
Qed.

(** A message of the confirmation step that arrives before any keys were
    derived is answered with an error, and nothing changes. *)
Lemma has_type_exclusive (m : json) (t u : string) :
  has_type m t = true -> t <> u ->
  exists ty, getProp m "type" = ok ty /\ strict_eq_str ty t = true
             /\ strict_eq_str ty u = false.
Proof.
  unfold has_type. intros H Hne.
  destruct (getProp m "type") as [e|ty]; [discriminate|].
  exists ty. split; [reflexivity|]. split; [exact H|].
  destruct ty as [[]|]; try discriminate. cbn in *.
  apply String.eqb_eq in H. subst. now apply String.eqb_neq.
Qed.

Lemma consumer_early_request (w : World (SecureConsumer.t ECDH)) (raw : Raw) (m : json) :
  delivers raw m ->
  has_type m "key-confirmation-request" = true ->
  SecureConsumer.derivedKeys (SecureConsumer.handshakeState (this w)) = None ->
  exists msg,
    SecureConsumer.handleMessage raw w
    = (ok (SecureConsumer.mkResult "error" None false (Some msg)), w).
Proof.
  intros D Hty Hdk. rewrite (consumer_delivery raw m w D). destruct w as [h o].
  destruct (has_type_exclusive m _ "handshake-init" Hty) as (ty & E & E1 & E2);
    [discriminate|].
  unfold_js. cbn in *. rewrite E. cbn. rewrite E2, E1. cbn.
  destruct (getProp m "confirmationMac") as [e|mac]; cbn; [eauto|].
  destruct (Buffer_from_base64 mac); cbn; [eauto|].
  destruct (SecureConsumer.providerNonce (SecureConsumer.handshakeState o)); cbn; [|eauto].
  destruct (SecureConsumer.providerPublicKey (SecureConsumer.handshakeState o)); cbn; [|eauto].
  rewrite Hdk. cbn. eauto.
Qed.

Lemma provider_early_confirmation (w : World (SecureProvider.t ECDH)) (raw : Raw) (m : json) :
  delivers raw m ->
  has_type m "key-confirmation" = true ->
  SecureProvider.derivedKeys (SecureProvider.handshakeState (this w)) = None ->
  exists msg,
    SecureProvider.handleResponse raw w
    = (ok (SecureProvider.mkResult "error" false (Some msg) None), w).
Proof.
  intros D Hty Hdk. rewrite (provider_delivery raw m w D). destruct w as [h o].
  destruct (has_type_exclusive m _ "handshake-response" Hty) as (ty & E & E1 & E2);
    [discriminate|].
  unfold_js. cbn in *. rewrite E. cbn. rewrite E2, E1. cbn.
  destruct (getProp m "confirmationMac") as [e|mac]; cbn; [eauto|].
  destruct (Buffer_from_base64 mac); cbn; [eauto|].
  destruct (getProp m "publicKey") as [e|pk]; cbn; [eauto|].
  destruct (Buffer_from_base64 pk); cbn; [eauto|].
  destruct (SecureProvider.consumerNonce (SecureProvider.handshakeState o)); cbn; [|eauto].
  rewrite Hdk. cbn. eauto.
Qed.

End Handlers.

(** ** The reference run *)

Lemma fixture_run :
  honest_run (rt := reference_runtime) Fixture.p0 Fixture.c0
  = Some (mkTranscript Fixture.init_text Fixture.response Fixture.request
            Fixture.confirmation Fixture.p1 Fixture.c1 Fixture.p2 Fixture.c2).
Proof. vm_compute. reflexivity. Qed.

Lemma has_type_getProp (m : json) (t : string) :
  m <> JNull -> exists ty, getProp m "type" = ok ty /\ strict_eq_str ty t = has_type m t.
Proof.
  intros Hm. unfold has_type. destruct m; try contradiction; cbn; eauto.
Qed.

(** C3, as amended. A message whose type is none of the two a peer handles
    gets the error result "Unknown message type" and leaves the peer as it
    was. The peers have no Failed state: in every state, whatever was received
    or answered before, a consumer processes a well-formed handshake-init
    (it answers handshake-response, takes the message's session id and derives
    new keys) and a provider processes a well-formed handshake-response that
    carries its session id. A key-confirmation-request, or a
    key-confirmation, that reaches a peer without derived keys gets an error
    result and leaves the peer as it was. *)
Theorem no_failed_state `{rt : Runtime} (laws : RuntimeLaws rt) :
  (forall (w : World (SecureConsumer.t ECDH)) raw m,
      delivers raw m -> m <> JNull ->
      has_type m "handshake-init" = false ->
      has_type m "key-confirmation-request" = false ->
      SecureConsumer.handleMessage raw w
      = (ok (SecureConsumer.mkResult "error" None false (Some "Unknown message type")), w))
  /\ (forall (w : World (SecureProvider.t ECDH)) raw m,
        delivers raw m -> m <> JNull ->
        has_type m "handshake-response" = false ->
        has_type m "key-confirmation" = false ->
        SecureProvider.handleResponse raw w
        = (ok (SecureProvider.mkResult "error" false (Some "Unknown message type") None), w))
  /\ (forall (w : World (SecureConsumer.t ECDH)) raw m,
        delivers raw m ->
        well_formed_init (SecureConsumer.ecdh (this w)) m ->
        exists resp w',
          SecureConsumer.handleMessage raw w
          = (ok (SecureConsumer.mkResult "handshake-response" (Some resp) false None), w')
          /\ getProp m "sessionId" = ok (SecureConsumer.getSessionId (this w'))
          /\ exists dk,
              SecureConsumer.derivedKeys (SecureConsumer.handshakeState (this w')) = Some dk
              /\ (length (heap w) <= Derived.encryptionKey dk)%nat)
  /\ (forall (w : World (SecureProvider.t ECDH)) raw m,
        delivers raw m ->
        well_formed_response (SecureProvider.ecdh (this w))
          (SecureProvider.getSessionId (this w)) m ->
        exists mac w',
          SecureProvider.handleResponse raw w
          = (ok (SecureProvider.mkResult "send-confirmation" false None (Some mac)), w')
          /\ exists dk,
              SecureProvider.derivedKeys (SecureProvider.handshakeState (this w')) = Some dk
              /\ (length (heap w) <= Derived.encryptionKey dk)%nat)
  /\ (forall (w : World (SecureConsumer.t ECDH)) raw m,
        delivers raw m ->
        has_type m "key-confirmation-request" = true ->
        SecureConsumer.derivedKeys (SecureConsumer.handshakeState (this w)) = None ->
        exists msg,
          SecureConsumer.handleMessage raw w
          = (ok (SecureConsumer.mkResult "error" None false (Some msg)), w))
  /\ (forall (w : World (SecureProvider.t ECDH)) raw m,
        delivers raw m ->
        has_type m "key-confirmation" = true ->
        SecureProvider.derivedKeys (SecureProvider.handshakeState (this w)) = None ->
        exists msg,
          SecureProvider.handleResponse raw w
          = (ok (SecureProvider.mkResult "error" false (Some msg) None), w)).
Proof.
  split; [|split; [|split; [|split; [|split]]]];
    [| | | | exact consumer_early_request | exact provider_early_confirmation].
  - intros w raw m D Hm H1 H2.
    destruct (has_type_getProp m "handshake-init" Hm) as (ty & Hty & E1).
    apply (consumer_unknown_type w raw m ty D Hty); [congruence|].
    unfold has_type in H2. now rewrite Hty in H2.
  - intros w raw m D Hm H1 H2.
    destruct (has_type_getProp m "handshake-response" Hm) as (ty & Hty & E1).
    apply (provider_unknown_type w raw m ty D Hty); [congruence|].
    unfold has_type in H2. now rewrite Hty in H2.
  - intros w raw m D (fields & nonce & pk & ciphers & hashes & -> & Hty & Hv & Hc & Hic
                      & Hh & Hih & Hn & Hpk & Hs).
    destruct (computeSecret (SecureConsumer.ecdh (this w)) (fromBase64 pk))
      as [secret|] eqn:Es; [|contradiction].
    destruct (consumer_accepts_init w raw fields nonce pk ciphers hashes secret
                D Hty Hv Hc Hh Hic Hih Hn Hpk Es)
      as (resp & w' & Hrun & Hsid & _ & dk & Hdk & Hfresh).
    exists resp, w'. split; [exact Hrun|]. split; [cbn; now rewrite Hsid|].
    exists dk. split; assumption.
  - intros w raw m D (fields & nonce & pk & -> & Hty & Hsid & Hn & Hpk & Hs).
    destruct (computeSecret (SecureProvider.ecdh (this w)) (fromBase64 pk))
      as [secret|] eqn:Es; [|contradiction].
    destruct (provider_accepts_response w raw fields nonce pk secret
                D Hty Hsid Hn Hpk Es)
      as (mac & w' & Hrun & _ & dk & Hdk & Hfresh).
    exists mac, w'. split; [exact Hrun|]. exists dk. split; assumption.
Qed.

(** C4, as amended. A HANDSHAKE_RESPONSE whose sessionId is not the one the
    provider generated at construction is rejected with the error
    "Session ID mismatch", and the provider stays as it was. *)
Theorem session_id_checked_on_response `{rt : Runtime}
  (w : World (SecureProvider.t ECDH)) (raw : Raw) (fields : list (string * json))
  (delivered : delivers raw (JObj fields))
  (is_response : assoc "type" fields = Some (JStr "handshake-response"))
  (foreign : assoc "sessionId" fields <> Some (JStr (SecureProvider.getSessionId (this w)))) :
  SecureProvider.handleResponse raw w
  = (ok (SecureProvider.mkResult "error" false (Some "Session ID mismatch") None), w).
Proof.
  apply (provider_session_mismatch w raw fields delivered is_response).
  destruct (assoc "sessionId" fields) as [[| | |sid'| |]|]; try reflexivity. cbn.
  apply String.eqb_neq. congruence.
Qed.

(** C5, as amended. To verify a KEY_CONFIRM_REQUEST the consumer recomputes
    the MAC from stored state alone: the provider's nonce and public key it
    stored from HANDSHAKE_INIT, its own nonce and key. To verify a
    KEY_CONFIRMATION the provider recomputes the MAC from the stored nonces,
    its own key and the [publicKey] field of the message being verified. Both
    compare with [constantTimeCompare], and a mismatch gives the
    key-confirmation-failed error and leaves the peer as it was. *)
Theorem confirmation_mac_verification `{rt : Runtime} :
  (forall (w : World (SecureConsumer.t ECDH)) raw fields mac pn ppk dk,
      delivers raw (JObj fields) ->
      assoc "type" fields = Some (JStr "key-confirmation-request") ->
      assoc "confirmationMac" fields = Some (JStr mac) ->
      SecureConsumer.providerNonce (SecureConsumer.handshakeState (this w)) = Some pn ->
      SecureConsumer.providerPublicKey (SecureConsumer.handshakeState (this w)) = Some ppk ->
      SecureConsumer.derivedKeys (SecureConsumer.handshakeState (this w)) = Some dk ->
      let h := heap w in
      let o := this w in
      let K := deref h (Derived.confirmationKey dk) in
      let N_I := deref h pn in
      let N_R := deref h (SecureConsumer.consumerNonce (SecureConsumer.handshakeState o)) in
      let PK_I := deref h ppk in
      let PK_R := getPublicKey (SecureConsumer.ecdh o) in
      SecureConsumer.handleMessage raw w
      = if constantTimeCompare (fromBase64 mac) (MAC_I K N_I N_R PK_I PK_R)
        then (ok (SecureConsumer.mkResult "key-confirmation"
                    (Some (SecureConsumer.confirmationMessage
                             (SecureConsumer.getSessionId o) PK_R
                             (MAC_R K N_I N_R PK_I PK_R)))
                    true None),
              mkWorld h (SecureConsumer.set_confirmed true o))
        else (ok (SecureConsumer.mkResult "error" None false
                    (Some "Provider key confirmation failed - potential MITM attack")),
              w))
  /\ (forall (w : World (SecureProvider.t ECDH)) raw fields mac pk cn dk,
        delivers raw (JObj fields) ->
        assoc "type" fields = Some (JStr "key-confirmation") ->
        assoc "confirmationMac" fields = Some (JStr mac) ->
        assoc "publicKey" fields = Some (JStr pk) ->
        SecureProvider.consumerNonce (SecureProvider.handshakeState (this w)) = Some cn ->
        SecureProvider.derivedKeys (SecureProvider.handshakeState (this w)) = Some dk ->
        let h := heap w in
        let o := this w in
        let K := deref h (Derived.confirmationKey dk) in
        let N_I := deref h (SecureProvider.providerNonce (SecureProvider.handshakeState o)) in
        let N_R := deref h cn in
        let PK_I := getPublicKey (SecureProvider.ecdh o) in
        SecureProvider.handleResponse raw w
        = if constantTimeCompare (fromBase64 mac) (MAC_R K N_I N_R PK_I (fromBase64 pk))
          then (ok (SecureProvider.mkResult "handshake-complete" true None None),
                mkWorld h (SecureProvider.set_confirmed true o))
          else (ok (SecureProvider.mkResult "error" false
                      (Some "Key confirmation failed - potential MITM attack") None),
                w)).
Proof.
  split.
  - intros w raw fields mac pn ppk dk D Hty Hmac Hpn Hppk Hdk.
    exact (consumer_verifies w raw fields mac pn ppk dk D Hty Hmac Hpn Hppk Hdk).
  - intros w raw fields mac pk cn dk D Hty Hmac Hpk Hcn Hdk.
    exact (provider_verifies w raw fields mac pk cn dk D Hty Hmac Hpk Hcn Hdk).
Qed.

(** The two layouts give one octet string only when the nonces are the same
    and the public keys are the same. *)
Lemma layouts_differ (N_I N_R PK_I PK_R : Buffer) :
  (length N_I = length N_R /\ N_I <> N_R)
  \/ (length PK_I = length PK_R /\ PK_I <> PK_R) ->
  N_I ++ N_R ++ PK_I ++ PK_R <> N_R ++ N_I ++ PK_R ++ PK_I.
Proof.
  intros [[Hlen Hne] | [Hlen Hne]] E; apply Hne.
  - apply (app_inj_1 _ _ _ _ Hlen E).
  - rewrite (app_assoc N_I), (app_assoc N_R) in E.
    apply app_inj_1 in E as [_ E]; [|rewrite !length_app; lia].
    apply (app_inj_1 _ _ _ _ Hlen E).
Qed.

(** C6, as amended. In every honest run the MAC of KEY_CONFIRM_REQUEST is
    HMAC-SHA-256 under the derived confirmation key over
    providerNonce || consumerNonce || providerPublicKey || consumerPublicKey,
    and the MAC of KEY_CONFIRMATION the same over
    consumerNonce || providerNonce || consumerPublicKey || providerPublicKey,
    each public key being the octets whose base64 is on the wire. When the two
    nonces differ, or the two public keys (of one length) differ, the two MAC
    inputs differ. Either MAC sent back in the opposite direction is accepted
    exactly when the two MACs are equal: the provider's own MAC returned to
    it in a KEY_CONFIRMATION, and the consumer's MAC presented to it in a
    KEY_CONFIRM_REQUEST. *)
Theorem confirmation_mac_layouts `{rt : Runtime} (laws : RuntimeLaws rt)
  (eP eC : ECDH) (rndP rndC : nat -> Buffer)
  (p0 : World (SecureProvider.t ECDH)) (c0 : World (SecureConsumer.t ECDH))
  (secret : Buffer)
  (rndP_length : forall n, length (rndP n) = n)
  (rndC_length : forall n, length (rndC n) = n)
  (fresh_provider : SecureProvider.new eP rndP = ok p0)
  (fresh_consumer : SecureConsumer.new eC rndC = ok c0)
  (ecdh_provider : computeSecret eP (getPublicKey eC) = Some secret)
  (ecdh_consumer : computeSecret eC (getPublicKey eP) = Some secret)
  (init_parses :
     JSON_parse (JSON_stringify
                   (SecureProvider.initMessage (toBase64 (rndP 16%nat)) (getPublicKey eP)
                      (rndP 32%nat)))
     = Some (SecureProvider.initMessage (toBase64 (rndP 16%nat)) (getPublicKey eP)
               (rndP 32%nat))) :
  let sid := toBase64 (rndP 16%nat) in
  let N_I := rndP 32%nat in
  let N_R := rndC 32%nat in
  let PK_I := getPublicKey eP in
  let PK_R := getPublicKey eC in
  let K := kdf secret (N_I ++ N_R) "SubtylSocket-KeyConfirmation" in
  exists tr,
    honest_run p0 c0 = Some tr
    /\ HANDSHAKE_INIT tr = JSON_stringify (SecureProvider.initMessage sid PK_I N_I)
    /\ HANDSHAKE_RESPONSE tr = SecureConsumer.responseMessage (Some (JStr sid)) PK_R N_R
    /\ KEY_CONFIRM_REQUEST tr = confirmRequest (toBase64 (MAC_I K N_I N_R PK_I PK_R))
    /\ KEY_CONFIRMATION tr
       = SecureConsumer.confirmationMessage (Some (JStr sid)) PK_R
           (MAC_R K N_I N_R PK_I PK_R)
    /\ (N_I <> N_R \/ (length PK_I = length PK_R /\ PK_I <> PK_R) ->
        N_I ++ N_R ++ PK_I ++ PK_R <> N_R ++ N_I ++ PK_R ++ PK_I)
    /\ (fst (SecureProvider.handleResponse
               (RawValue (SecureConsumer.confirmationMessage (Some (JStr sid)) PK_R
                            (MAC_I K N_I N_R PK_I PK_R)))
               (provider_awaiting tr))
        = ok (SecureProvider.mkResult "handshake-complete" true None None)
        <-> MAC_I K N_I N_R PK_I PK_R = MAC_R K N_I N_R PK_I PK_R)
    /\ (fst (SecureConsumer.handleMessage
               (RawValue (confirmRequest (toBase64 (MAC_R K N_I N_R PK_I PK_R))))
               (consumer_responded tr))
        = ok (SecureConsumer.mkResult "key-confirmation"
                (Some (SecureConsumer.confirmationMessage (Some (JStr sid)) PK_R
                         (MAC_R K N_I N_R PK_I PK_R)))
                true None)
        <-> MAC_R K N_I N_R PK_I PK_R = MAC_I K N_I N_R PK_I PK_R).
Proof.
  destruct (honest_run_facts eP eC rndP rndC p0 c0 secret fresh_provider fresh_consumer
              ecdh_provider ecdh_consumer init_parses)
    as (tr & Hrun & H1 & H2 & H3 & H4 & Hp1 & _ & _).
  pose proof (honest_run_consumer_responded eP eC rndP rndC p0 c0 secret fresh_provider
                fresh_consumer ecdh_provider ecdh_consumer init_parses tr Hrun) as Hc1.
  cbv zeta in *. exists tr.
  split; [exact Hrun|]. split; [exact H1|]. split; [exact H2|]. split; [exact H3|].
  split; [exact H4|].
  set (K := kdf secret (rndP 32%nat ++ rndC 32%nat) "SubtylSocket-KeyConfirmation") in *.
  set (mI := MAC_I K (rndP 32%nat) (rndC 32%nat) (getPublicKey eP) (getPublicKey eC)).
  set (mR := MAC_R K (rndP 32%nat) (rndC 32%nat) (getPublicKey eP) (getPublicKey eC)).
  split; [|split].
  - intros [Hn | Hk]; apply layouts_differ; [left | right; exact Hk].
    split; [now rewrite rndP_length, rndC_length | exact Hn].
  - rewrite Hp1.
    match goal with
    | |- context [SecureProvider.handleResponse ?raw ?w] =>
        rewrite (provider_verifies w raw
                   [("type", JStr "key-confirmation");
                    ("sessionId", JStr (toBase64 (rndP 16%nat)));
                    ("publicKey", JStr (toBase64 (getPublicKey eC)));
                    ("confirmationMac", JStr (toBase64 mI))]
                   (toBase64 mI) (toBase64 (getPublicKey eC)) 1%nat (Derived.mk 3 4 5)
                   eq_refl eq_refl eq_refl eq_refl eq_refl eq_refl)
    end.
    cbn [heap this deref lookup list_lookup default id Derived.confirmationKey
         SecureProvider.providerNonce SecureProvider.handshakeState SecureProvider.ecdh].
    rewrite !base64_roundtrip. change (hmac_sha256 K _) with mR.
    destruct (constantTimeCompare mI mR) eqn:E; cbn.
    + apply constantTimeCompare_spec in E. split; [intros _; exact E | reflexivity].
    + split; [discriminate|]. intros E'. rewrite E', constantTimeCompare_refl in E.
      discriminate.
  - rewrite Hc1.
    match goal with
    | |- context [SecureConsumer.handleMessage ?raw ?w] =>
        rewrite (consumer_verifies w raw
                   [("type", JStr "key-confirmation-request");
                    ("confirmationMac", JStr (toBase64 mR))]
                   (toBase64 mR) 1%nat 2%nat (Derived.mk 4 5 6)
                   eq_refl eq_refl eq_refl eq_refl eq_refl eq_refl)
    end.
    cbn [heap this deref lookup list_lookup default id Derived.confirmationKey
         SecureConsumer.consumerNonce SecureConsumer.handshakeState SecureConsumer.ecdh
         SecureConsumer.sessionId].
    rewrite !base64_roundtrip.
    change (hmac_sha256 K (rndP 32%nat ++ rndC 32%nat ++ getPublicKey eP ++ getPublicKey eC))
      with mI.
    change (hmac_sha256 K (rndC 32%nat ++ rndP 32%nat ++ getPublicKey eC ++ getPublicKey eP))
      with mR.
    destruct (constantTimeCompare mR mI) eqn:E; cbn.
    + apply constantTimeCompare_spec in E. split; [intros _; exact E | reflexivity].
    + split; [discriminate|]. intros E'. rewrite E', constantTimeCompare_refl in E.
      discriminate.
Qed.

(** ** destroy *)

Lemma zeros_zeros (n : nat) : zeros (length (zeros n)) = zeros n.
Proof. unfold zeros. now rewrite repeat_length. Qed.

Lemma lookup_scrub (rs : list nat) (h : Heap) (r : nat) :
  scrub rs h !! r
  = if decide (r ∈ rs) then (fun b => zeros (length b)) <$> h !! r else h !! r.
Proof.
  unfold scrub. revert h. induction rs as [|r0 rs IH]; intros h; cbn.
  - destruct (decide (r ∈ [])) as [H|_]; [|reflexivity]. now apply elem_of_nil in H.
  - rewrite IH. destruct (decide (r0 = r)) as [->|Hne].
    + rewrite list_lookup_alter_eq.
      destruct (decide (r ∈ r :: rs)) as [_|H]; [|exfalso; apply H; left].
      destruct (decide (r ∈ rs)); [|reflexivity].
      destruct (h !! r) as [b|]; cbn; [|reflexivity]. now rewrite zeros_zeros.
    + rewrite list_lookup_alter_ne by exact Hne.
      destruct (decide (r ∈ rs)) as [Hin|Hnin].
      * destruct (decide (r ∈ r0 :: rs)) as [_|H]; [reflexivity|].
        exfalso. apply H. now right.
      * destruct (decide (r ∈ r0 :: rs)) as [H|_]; [|reflexivity].
        apply elem_of_cons in H. destruct H as [->|H]; contradiction.
Qed.

Lemma deref_scrub (rs : list nat) (h : Heap) (r : nat) :
  r ∈ rs -> deref (scrub rs h) r = zeros (length (deref h r)).
Proof.
  intros Hin. unfold deref. rewrite lookup_scrub.
  destruct (decide (r ∈ rs)); [|contradiction].
  destruct (h !! r); reflexivity.
Qed.

Lemma scrub_scrub (rs' rs : list nat) (h : Heap) :
  rs' ⊆ rs -> scrub rs' (scrub rs h) = scrub rs h.
Proof.
  intros Hsub. apply list_eq. intros r. rewrite lookup_scrub.
  destruct (decide (r ∈ rs')) as [Hin|]; [|reflexivity].
  rewrite lookup_scrub. destruct (decide (r ∈ rs)) as [|Hnin]; [|exfalso; auto].
  destruct (h !! r) as [b|]; cbn; [|reflexivity]. now rewrite zeros_zeros.
Qed.

Lemma provider_destroy_eq `{rt : Runtime} (w : World (SecureProvider.t ECDH)) :
  SecureProvider.destroy w
  = (ok tt,
     mkWorld (scrub (provider_secrets (this w)) (heap w))
       (SecureProvider.set_confirmed false
          (SecureProvider.set_derivedKeys None (this w)))).
Proof.
  destruct w as [h [e [sid pn cn ss dk cf]]].
  destruct ss, dk, cn; reflexivity.
Qed.

Lemma consumer_destroy_eq `{rt : Runtime} (w : World (SecureConsumer.t ECDH)) :
  SecureConsumer.destroy w
  = (ok tt,
     mkWorld (scrub (consumer_secrets (this w)) (heap w))
       (SecureConsumer.set_confirmed false
          (SecureConsumer.set_derivedKeys None (this w)))).
Proof.
  destruct w as [h [e [sid pn cn ss dk cf ppk]]].
  destruct ss, dk, pn; reflexivity.
Qed.

(** C7, as amended. [destroy()] overwrites the peer's nonces, shared secret
    and three derived keys with zeros, drops the derived keys and clears
    [confirmed], so that [getDerivedKeys()] returns null; a second [destroy()]
    is safe and leaves the same state. It marks no Failed state. *)
Theorem destroy_zeroizes `{rt : Runtime} :
  (forall w : World (SecureProvider.t ECDH),
      let w' := snd (SecureProvider.destroy w) in
      fst (SecureProvider.destroy w) = ok tt
      /\ (forall r, r ∈ provider_secrets (this w) ->
           deref (heap w') r = zeros (length (deref (heap w) r)))
      /\ SecureProvider.derivedKeys (SecureProvider.handshakeState (this w')) = None
      /\ SecureProvider.isHandshakeConfirmed (this w') = false
      /\ SecureProvider.getDerivedKeys (this w') = None
      /\ SecureProvider.destroy w' = (ok tt, w'))
  /\ (forall w : World (SecureConsumer.t ECDH),
        let w' := snd (SecureConsumer.destroy w) in
        fst (SecureConsumer.destroy w) = ok tt
        /\ (forall r, r ∈ consumer_secrets (this w) ->
             deref (heap w') r = zeros (length (deref (heap w) r)))
        /\ SecureConsumer.derivedKeys (SecureConsumer.handshakeState (this w')) = None
        /\ SecureConsumer.isHandshakeConfirmed (this w') = false
        /\ SecureConsumer.getDerivedKeys (this w') = None
        /\ SecureConsumer.destroy w' = (ok tt, w')).
Proof.
  split; intros w; cbv zeta.
  - rewrite provider_destroy_eq. cbn [fst snd heap this].
    split; [reflexivity|]. split; [intros r; apply deref_scrub|].
    split; [reflexivity|]. split; [reflexivity|]. split; [reflexivity|].
    rewrite provider_destroy_eq. cbn [heap this]. f_equal. f_equal.
    apply scrub_scrub.
    destruct w as [h [e [sid pn cn ss dk cf]]]. unfold provider_secrets. cbn.
    intros r Hr. rewrite !elem_of_app in *. tauto.
  - rewrite consumer_destroy_eq. cbn [fst snd heap this].
    split; [reflexivity|]. split; [intros r; apply deref_scrub|].
    split; [reflexivity|]. split; [reflexivity|]. split; [reflexivity|].
    rewrite consumer_destroy_eq. cbn [heap this]. f_equal. f_equal.
    apply scrub_scrub.
    destruct w as [h [e [sid pn cn ss dk cf ppk]]]. unfold consumer_secrets. cbn.
    intros r Hr. rewrite !elem_of_app in *. tauto.
Qed.

(** ** The envelope *)

Section Envelope.
Context `{rt : Runtime}.
Variable decrypt : json -> M BaseEncryptionPlugin.t string.

(** When an encrypted envelope cannot be decrypted, whatever was thrown is
    caught and the raw text comes back. *)
Lemma processIncomingMessage_failure (s : string) (w : World BaseEncryptionPlugin.t)
  (parsed : json) (encrypted algorithm : option json) :
  JSON_parse s = Some parsed ->
  has_type parsed "encrypted-plugin-message" = true ->
  getProp parsed "encrypted" = ok encrypted ->
  truthy encrypted = true ->
  getProp parsed "algorithm" = ok algorithm ->
  BaseEncryptionPlugin.isEnabled (this w) = false
  \/ (truthy algorithm = true
      /\ strict_eq_str algorithm (BaseEncryptionPlugin.algorithmName (this w)) = false)
  \/ (exists e, fst (decrypt (default JNull encrypted) w) = throw e) ->
  fst (BaseEncryptionPlugin.processIncomingMessage decrypt s w) = ok (JStr s).
Proof.
  intros Hp Hty Henc Htr Halg Hfail.
  unfold BaseEncryptionPlugin.processIncomingMessage, BaseEncryptionPlugin.parseM,
    try_catch, bind, lift, get, throw_if, throwM, ret.
  rewrite Hp. unfold has_type in Hty. cbn.
  destruct (getProp parsed "type") as [?|ty]; [discriminate|]. cbn.
  rewrite Henc. cbn. rewrite Hty, Htr. cbn.
  destruct (BaseEncryptionPlugin.isEnabled (this w)) eqn:En; cbn; [|reflexivity].
  rewrite Halg. cbn.
  destruct (truthy algorithm
            && negb (strict_eq_str algorithm (BaseEncryptionPlugin.algorithmName (this w))))
    eqn:Mis; cbn; [reflexivity|].
  destruct Hfail as [Hf|[[Ht Hs]|[e He]]].
  - discriminate.
  - rewrite Ht, Hs in Mis. discriminate.
  - destruct (decrypt (default JNull encrypted) w) as [[e'|d] w']; cbn in *;
      [reflexivity | discriminate].
Qed.

(** C8, as amended. [unwrapMessage] never throws, and for every input on
    which decryption of an encrypted envelope fails (encryption not enabled,
    another algorithm named, or [decrypt] throwing) it returns null: null is
    how it reports the failure to its caller. *)
Theorem unwrapMessage_reports_null :
  (forall s w, exists r, fst (BaseEncryptionPlugin.unwrapMessage decrypt s w) = ok r)
  /\ (forall s w parsed encrypted algorithm,
        JSON_parse s = Some parsed ->
        has_type parsed "encrypted-plugin-message" = true ->
        getProp parsed "encrypted" = ok encrypted ->
        truthy encrypted = true ->
        getProp parsed "algorithm" = ok algorithm ->
        BaseEncryptionPlugin.isEnabled (this w) = false
        \/ (truthy algorithm = true
            /\ strict_eq_str algorithm (BaseEncryptionPlugin.algorithmName (this w)) = false)
        \/ (exists e, fst (decrypt (default JNull encrypted) w) = throw e) ->
        fst (BaseEncryptionPlugin.unwrapMessage decrypt s w) = ok None).
Proof.
  split.
  - intros s w. unfold BaseEncryptionPlugin.unwrapMessage, try_catch.
    match goal with |- context [match ?m w with _ => _ end] =>
      destruct (m w) as [[e|r] w'] end; cbn; eauto.
  - intros s w parsed encrypted algorithm Hp Hty Henc Htr Halg Hfail.
    pose proof (processIncomingMessage_failure s w parsed encrypted algorithm
                  Hp Hty Henc Htr Halg Hfail) as H.
    unfold BaseEncryptionPlugin.unwrapMessage, try_catch, bind.
    destruct (BaseEncryptionPlugin.processIncomingMessage decrypt s w) as [r w'].
    cbn in H. subst r. reflexivity.
Qed.

End Envelope.

Section ReferenceRun.
#[local] Existing Instance reference_runtime.

Lemma second_init_well_formed :
  well_formed_init (SecureConsumer.ecdh (this Fixture.c1)) Fixture.second_init.
Proof.
  unfold well_formed_init, Fixture.second_init, SecureProvider.initMessage.
  eexists _, _, _, _, _. split; [reflexivity|].
  repeat (split; [first [reflexivity | left; reflexivity]|]).
  vm_compute. discriminate.
Qed.



(** C3 as stated fails: a consumer that has processed a handshake-init
    processes a second one, from another provider, and takes its session id;
    and a consumer that has answered with an error processes the next
    message. *)
Lemma no_failed_state_counterexample :
  SecureConsumer.handleMessage (RawString Fixture.init_text) Fixture.c0
  = (ok (SecureConsumer.mkResult "handshake-response" (Some Fixture.response) false None),
     Fixture.c1)
  /\ fst (SecureConsumer.handleMessage (RawValue Fixture.second_init) Fixture.c1)
     = ok (SecureConsumer.mkResult "handshake-response"
             (Some (SecureConsumer.responseMessage (Some (JStr "another-session"))
                      (getPublicKey Fixture.eC) (Fixture.rndC 32)))
             false None)
  /\ SecureConsumer.getSessionId
       (this (snd (SecureConsumer.handleMessage (RawValue Fixture.second_init) Fixture.c1)))
     = Some (JStr "another-session")
  /\ SecureConsumer.handleMessage (RawValue Fixture.confirmation) Fixture.c0
     = (ok (SecureConsumer.mkResult "error" None false (Some "Unknown message type")),
        Fixture.c0)
  /\ fst (SecureConsumer.handleMessage (RawString Fixture.init_text)
            (snd (SecureConsumer.handleMessage (RawValue Fixture.confirmation) Fixture.c0)))
     = ok (SecureConsumer.mkResult "handshake-response" (Some Fixture.response) false None).
Proof. repeat (apply conj); vm_compute; reflexivity. Qed.

Lemma no_failed_state_witness :
  delivers (RawValue Fixture.second_init) Fixture.second_init
  /\ well_formed_init (SecureConsumer.ecdh (this Fixture.c1)) Fixture.second_init
  /\ (exists resp w',
        SecureConsumer.handleMessage (RawValue Fixture.second_init) Fixture.c1
        = (ok (SecureConsumer.mkResult "handshake-response" (Some resp) false None), w'))
  /\ has_type Fixture.request "key-confirmation-request" = true
  /\ SecureConsumer.derivedKeys (SecureConsumer.handshakeState (this Fixture.c0)) = None
  /\ exists msg,
       SecureConsumer.handleMessage (RawValue Fixture.request) Fixture.c0
       = (ok (SecureConsumer.mkResult "error" None false (Some msg)), Fixture.c0).
Proof.
  split; [reflexivity|]. split; [exact second_init_well_formed|].
  destruct (no_failed_state reference_laws) as (_ & _ & H & _ & Hearly & _).
  split.
  - destruct (H Fixture.c1 (RawValue Fixture.second_init) Fixture.second_init
                eq_refl second_init_well_formed) as (resp & w' & Hrun & _).
    exists resp, w'. exact Hrun.
  - split; [reflexivity|]. split; [reflexivity|].
    exact (Hearly Fixture.c0 (RawValue Fixture.request) Fixture.request
             eq_refl eq_refl eq_refl).
Defined.

(** C4 as stated fails. A provider that has rejected a HANDSHAKE_RESPONSE
    for its session id is not Failed: it processes the honest response next.
    And a KEY_CONFIRMATION whose sessionId differs from the provider's is
    accepted. *)
Lemma session_id_counterexample :
  SecureProvider.handleResponse (RawValue Fixture.foreign_response) Fixture.p0
  = (ok (SecureProvider.mkResult "error" false (Some "Session ID mismatch") None),
     Fixture.p0)
  /\ SecureProvider.handleResponse (RawValue Fixture.response)
       (snd (SecureProvider.handleResponse (RawValue Fixture.foreign_response) Fixture.p0))
     = (ok (SecureProvider.mkResult "send-confirmation" false None
              (Some (toBase64 Fixture.macI))),
        Fixture.p1)
  /\ getProp Fixture.foreign_confirmation "sessionId"
     = ok (Some (JStr "different-session-id"))
  /\ SecureProvider.getSessionId (this Fixture.p1) <> "different-session-id"
  /\ SecureProvider.handleResponse (RawValue Fixture.foreign_confirmation) Fixture.p1
     = (ok (SecureProvider.mkResult "handshake-complete" true None None), Fixture.p2).
Proof.
  repeat (apply conj); try (vm_compute; reflexivity). vm_compute. discriminate.
Qed.

Lemma session_id_checked_on_response_witness :
  let fields :=
    [("type", JStr "handshake-response");
     ("sessionId", JStr "different-session-id");
     ("publicKey", JStr (toBase64 (getPublicKey Fixture.eC)));
     ("consumerNonce", JStr (toBase64 (Fixture.rndC 32)));
     ("selectedCipher", JStr "aes-256-gcm");
     ("selectedHash", JStr "sha256")] in
  delivers (RawValue Fixture.foreign_response) (JObj fields)
  /\ assoc "type" fields = Some (JStr "handshake-response")
  /\ assoc "sessionId" fields <> Some (JStr (SecureProvider.getSessionId (this Fixture.p0)))
  /\ SecureProvider.handleResponse (RawValue Fixture.foreign_response) Fixture.p0
     = (ok (SecureProvider.mkResult "error" false (Some "Session ID mismatch") None),
        Fixture.p0).
Proof.
  cbv zeta.
  assert (F : assoc "sessionId"
                [("type", JStr "handshake-response");
                 ("sessionId", JStr "different-session-id");
                 ("publicKey", JStr (toBase64 (getPublicKey Fixture.eC)));
                 ("consumerNonce", JStr (toBase64 (Fixture.rndC 32)));
                 ("selectedCipher", JStr "aes-256-gcm");
                 ("selectedHash", JStr "sha256")]
              <> Some (JStr (SecureProvider.getSessionId (this Fixture.p0)))).
  { vm_compute. discriminate. }
  split; [reflexivity|]. split; [reflexivity|]. split; [exact F|].
  exact (session_id_checked_on_response Fixture.p0 (RawValue Fixture.foreign_response)
           _ eq_refl eq_refl F).
Defined.

(** C5 as stated fails for the provider: the MAC it expects follows the
    [publicKey] field of the KEY_CONFIRMATION it is verifying. With another
    key in that field and the MAC computed over that key, the message is
    accepted, though the key is not the one received in HANDSHAKE_RESPONSE;
    with another key in that field and the honest MAC, it is rejected. *)
Lemma confirmation_mac_counterexample :
  getPublicKey Fixture.eX <> getPublicKey Fixture.eC
  /\ Fixture.macX <> Fixture.macR
  /\ getProp Fixture.swapped_key_confirmation "confirmationMac"
     = ok (Some (JStr (toBase64 Fixture.macX)))
  /\ fst (SecureProvider.handleResponse (RawValue Fixture.swapped_key_confirmation)
            Fixture.p1)
     = ok (SecureProvider.mkResult "handshake-complete" true None None)
  /\ getProp Fixture.altered_key_confirmation "confirmationMac"
     = getProp Fixture.confirmation "confirmationMac"
  /\ fst (SecureProvider.handleResponse (RawValue Fixture.confirmation) Fixture.p1)
     = ok (SecureProvider.mkResult "handshake-complete" true None None)
  /\ fst (SecureProvider.handleResponse (RawValue Fixture.altered_key_confirmation)
            Fixture.p1)
     = ok (SecureProvider.mkResult "error" false
             (Some "Key confirmation failed - potential MITM attack") None).
Proof.
  repeat (apply conj); try (vm_compute; reflexivity); vm_compute; discriminate.
Qed.

Lemma confirmation_mac_verification_witness :
  let fields :=
    [("type", JStr "key-confirmation");
     ("sessionId", JStr Fixture.sid);
     ("publicKey", JStr (toBase64 (getPublicKey Fixture.eC)));
     ("confirmationMac", JStr (toBase64 Fixture.macR))] in
  delivers (RawValue Fixture.confirmation) (JObj fields)
  /\ SecureProvider.consumerNonce (SecureProvider.handshakeState (this Fixture.p1))
     = Some 1%nat
  /\ SecureProvider.derivedKeys (SecureProvider.handshakeState (this Fixture.p1))
     = Some (Derived.mk 3 4 5)
  /\ SecureProvider.handleResponse (RawValue Fixture.confirmation) Fixture.p1
     = (ok (SecureProvider.mkResult "handshake-complete" true None None), Fixture.p2).
Proof.
  cbv zeta.
  assert (Hcn : SecureProvider.consumerNonce
                  (SecureProvider.handshakeState (this Fixture.p1)) = Some 1%nat)
    by (vm_compute; reflexivity).
  assert (Hdk : SecureProvider.derivedKeys
                  (SecureProvider.handshakeState (this Fixture.p1))
                = Some (Derived.mk 3 4 5))
    by (vm_compute; reflexivity).
  split; [reflexivity|]. split; [exact Hcn|]. split; [exact Hdk|].
  destruct confirmation_mac_verification as [_ HP].
  rewrite (HP Fixture.p1 (RawValue Fixture.confirmation) _ _ _ 1%nat (Derived.mk 3 4 5)
             eq_refl eq_refl eq_refl eq_refl Hcn Hdk).
  vm_compute. reflexivity.
Defined.

(** C6 as stated fails: a consumer that drew the provider's nonce and key
    pair completes an honest run in which the two confirmation MACs are the
    same string. *)
Lemma confirmation_mac_layouts_counterexample :
  SecureConsumer.new Fixture.eP Fixture.rndP = ok Fixture.c0_mirror
  /\ option_map transcript_macs (honest_run Fixture.p0 Fixture.c0_mirror)
     = Some (Some (JStr (toBase64 Fixture.mirror_mac)),
             Some (JStr (toBase64 Fixture.mirror_mac)))
  /\ option_map
       (fun tr => (SecureProvider.isHandshakeConfirmed (this (provider_done tr)),
                   SecureConsumer.isHandshakeConfirmed (this (consumer_done tr))))
       (honest_run Fixture.p0 Fixture.c0_mirror)
     = Some (true, true).
Proof. repeat (apply conj); vm_compute; reflexivity. Qed.

Lemma fixture_rnd_length :
  (forall n, length (Fixture.rndP n) = n) /\ (forall n, length (Fixture.rndC n) = n).
Proof.
  split; intros n; unfold Fixture.rndP, Fixture.rndC;
    now rewrite length_map, length_seq.
Qed.

Lemma confirmation_mac_layouts_witness :
  SecureProvider.new Fixture.eP Fixture.rndP = ok Fixture.p0
  /\ SecureConsumer.new Fixture.eC Fixture.rndC = ok Fixture.c0
  /\ computeSecret Fixture.eP (getPublicKey Fixture.eC) = Some Fixture.secret
  /\ computeSecret Fixture.eC (getPublicKey Fixture.eP) = Some Fixture.secret
  /\ exists tr,
       honest_run Fixture.p0 Fixture.c0 = Some tr
       /\ KEY_CONFIRM_REQUEST tr = confirmRequest (toBase64 Fixture.macI)
       /\ KEY_CONFIRMATION tr
          = SecureConsumer.confirmationMessage (Some (JStr Fixture.sid))
              (getPublicKey Fixture.eC) Fixture.macR.
Proof.
  assert (Hp : SecureProvider.new Fixture.eP Fixture.rndP = ok Fixture.p0)
    by (vm_compute; reflexivity).
  assert (Hc : SecureConsumer.new Fixture.eC Fixture.rndC = ok Fixture.c0)
    by (vm_compute; reflexivity).
  assert (Sp : computeSecret Fixture.eP (getPublicKey Fixture.eC) = Some Fixture.secret)
    by (vm_compute; reflexivity).
  assert (Sc : computeSecret Fixture.eC (getPublicKey Fixture.eP) = Some Fixture.secret)
    by (vm_compute; reflexivity).
  split; [exact Hp|]. split; [exact Hc|]. split; [exact Sp|]. split; [exact Sc|].
  destruct fixture_rnd_length as [Lp Lc].
  destruct (confirmation_mac_layouts reference_laws Fixture.eP Fixture.eC
              Fixture.rndP Fixture.rndC Fixture.p0 Fixture.c0 Fixture.secret
              Lp Lc Hp Hc Sp Sc)
    as (tr & H1 & _ & _ & H2 & H3 & _).
  - vm_compute. reflexivity.
  - exists tr. exact (conj H1 (conj H2 H3)).
Defined.

(** C7 as stated fails: a destroyed peer is not Failed. The consumer of the
    reference run, destroyed after the handshake, answers the next
    handshake-init with a handshake-response (carrying its zeroed nonce) and
    derives keys again; the destroyed provider answers a handshake-response
    with send-confirmation. *)
Lemma destroy_counterexample :
  fst (SecureConsumer.handleMessage (RawString Fixture.init_text)
         (snd (SecureConsumer.destroy Fixture.c2)))
  = ok (SecureConsumer.mkResult "handshake-response"
          (Some (SecureConsumer.responseMessage (Some (JStr Fixture.sid))
                   (getPublicKey Fixture.eC) (zeros 32)))
          false None)
  /\ SecureConsumer.derivedKeys
       (SecureConsumer.handshakeState
          (this (snd (SecureConsumer.handleMessage (RawString Fixture.init_text)
                        (snd (SecureConsumer.destroy Fixture.c2))))))
     = Some (Derived.mk 10 11 12)
  /\ fst (SecureProvider.handleResponse (RawValue Fixture.response)
            (snd (SecureProvider.destroy Fixture.p2)))
     = ok (SecureProvider.mkResult "send-confirmation" false None
             (Some (toBase64
                      (MAC_I (kdf Fixture.secret (zeros 32 ++ Fixture.rndC 32)
                                "SubtylSocket-KeyConfirmation")
                         (zeros 32) (Fixture.rndC 32)
                         (getPublicKey Fixture.eP) (getPublicKey Fixture.eC))))).
Proof. repeat (apply conj); vm_compute; reflexivity. Qed.

(** C8 as stated fails: an envelope that names another algorithm, and one
    whose [decrypt] throws for want of an IV and a tag, come back from
    [processIncomingMessage] as the raw text and from [unwrapMessage] as null;
    no error reaches the caller. *)
Lemma envelope_counterexample :
  let decrypt := MessageEncryptionPlugin.decrypt Fixture.rejecting_open in
  let w := mkWorld [] Fixture.plugin in
  BaseEncryptionPlugin.isEnabled Fixture.plugin = true
  /\ BaseEncryptionPlugin.processIncomingMessage decrypt Fixture.wrong_algorithm_envelope w
     = (ok (JStr Fixture.wrong_algorithm_envelope), w)
  /\ BaseEncryptionPlugin.unwrapMessage decrypt Fixture.wrong_algorithm_envelope w
     = (ok None, w)
  /\ fst (decrypt (JObj [("data", JStr (toBase64 (Fixture.rndX 8)))]) w)
     = throw (Error "Missing required metadata for AES-GCM decryption")
  /\ BaseEncryptionPlugin.processIncomingMessage decrypt Fixture.no_metadata_envelope w
     = (ok (JStr Fixture.no_metadata_envelope), w)
  /\ BaseEncryptionPlugin.unwrapMessage decrypt Fixture.no_metadata_envelope w
     = (ok None, w).
Proof. cbv zeta. repeat (apply conj); vm_compute; reflexivity. Qed.

Lemma unwrapMessage_reports_null_witness :
  let decrypt := MessageEncryptionPlugin.decrypt Fixture.rejecting_open in
  let w := mkWorld [] Fixture.plugin in
  let encrypted := JObj [("data", JStr (toBase64 (Fixture.rndX 8)))] in
  let parsed :=
    JObj [("type", JStr "encrypted-plugin-message");
          ("algorithm", JStr "aes-256-gcm");
          ("payload", JNull);
          ("encrypted", encrypted)] in
  JSON_parse Fixture.no_metadata_envelope = Some parsed
  /\ (exists e, fst (decrypt encrypted w) = throw e)
  /\ fst (BaseEncryptionPlugin.unwrapMessage decrypt Fixture.no_metadata_envelope w)
     = ok None.
Proof.
  cbv zeta.
  assert (Hp : JSON_parse Fixture.no_metadata_envelope
               = Some (JObj [("type", JStr "encrypted-plugin-message");
                             ("algorithm", JStr "aes-256-gcm");
                             ("payload", JNull);
                             ("encrypted",
                               JObj [("data", JStr (toBase64 (Fixture.rndX 8)))])]))
    by (vm_compute; reflexivity).
  assert (Hd : exists e,
             fst (MessageEncryptionPlugin.decrypt Fixture.rejecting_open
                    (JObj [("data", JStr (toBase64 (Fixture.rndX 8)))])
                    (mkWorld [] Fixture.plugin)) = throw e).
  { eexists. vm_compute. reflexivity. }
  split; [exact Hp|]. split; [exact Hd|].
  destruct (unwrapMessage_reports_null
              (MessageEncryptionPlugin.decrypt Fixture.rejecting_open)) as [_ H].
  apply (H Fixture.no_metadata_envelope (mkWorld [] Fixture.plugin) _
           (Some (JObj [("data", JStr (toBase64 (Fixture.rndX 8)))]))
           (Some (JStr "aes-256-gcm")) Hp); try reflexivity.
  right. right. exact Hd.
Defined.

End ReferenceRun.

(** * Further properties *)

(** ** The utilities *)

(** X1. [constantTimeCompare] answers true exactly when the two buffers hold
    the same octets; buffers of different lengths compare false. *)
Theorem constantTimeCompare_decides (a b : Buffer) :
  (constantTimeCompare a b = true <-> a = b)
  /\ (length a <> length b -> constantTimeCompare a b = false).
Proof.
  split; [apply constantTimeCompare_spec|].
  intros Hlen. apply constantTimeCompare_neq. congruence.
Qed.

Section HKDF_output.
Context `{rt : Runtime}.
Hypothesis hmac_len : forall key data, length (hmac_sha256 key data) = 32%nat.

Lemma blocks_prefix (prk info : Buffer) (n m : nat) :
  (n <= m)%nat ->
  exists rest,
    concat (map (HKDF.T prk info) (seq 1 m))
    = concat (map (HKDF.T prk info) (seq 1 n)) ++ rest.
Proof.
  intros Hnm. replace m with (n + (m - n))%nat by lia.
  rewrite seq_app, map_app, concat_app. eauto.
Qed.

Lemma ceil_div_mono (a b : Z) : (a <= b)%Z -> (HKDF.ceil_div a 32 <= HKDF.ceil_div b 32)%Z.
Proof. intros H. unfold HKDF.ceil_div. Z.div_mod_to_equations. lia. Qed.

Lemma okm_prefix (prk info : Buffer) (L1 L2 : Z) :
  (0 <= L1 <= L2)%Z ->
  HKDF.rfc5869_okm prk info (Z.to_nat (HKDF.ceil_div L1 32)) (Z.to_nat L1)
  = firstn (Z.to_nat L1)
      (HKDF.rfc5869_okm prk info (Z.to_nat (HKDF.ceil_div L2 32)) (Z.to_nat L2)).
Proof.
  intros H. unfold HKDF.rfc5869_okm.
  pose proof (ceil_div_mono L1 L2 (proj2 H)) as Hn.
  pose proof (ceil_div_32_bounds L1) as B1.
  destruct (blocks_prefix prk info (Z.to_nat (HKDF.ceil_div L1 32))
              (Z.to_nat (HKDF.ceil_div L2 32))) as [rest ->]; [lia|].
  rewrite firstn_firstn, Nat.min_l by lia.
  rewrite take_app_le; [reflexivity|].
  rewrite (concat_T_length hmac_len). lia.
Qed.

End HKDF_output.

(** X2. For a length [L] between 0 and 8160, [HKDF.derive] returns exactly
    [L] octets: the first [L] of [T(1) || T(2) || ...], from
    [ceil(L / 32)] blocks. For a length that is zero or negative it returns
    the empty buffer, without an error. *)
Theorem HKDF_derive_output `{rt : Runtime}
  (hmac_len : forall key data, length (hmac_sha256 key data) = 32%nat)
  (ikm salt info : Buffer) (L : Z) :
  ((0 <= L <= 8160)%Z ->
   exists okm,
     HKDF.derive ikm salt info L = ok okm
     /\ Z.of_nat (length okm) = L
     /\ okm = firstn (Z.to_nat L)
                (concat (map (HKDF.T (HKDF.extract salt ikm) info)
                           (seq 1 (Z.to_nat (HKDF.ceil_div L 32))))))
  /\ ((L <= 0)%Z -> HKDF.derive ikm salt info L = ok []).
Proof.
  split.
  - intros HL.
    destruct (expand_in_range hmac_len (HKDF.extract salt ikm) info L) as [E Len]; [lia|].
    eexists. split; [exact E|]. split; [rewrite Len; lia | reflexivity].
  - intros HL. unfold HKDF.derive, HKDF.expand, HKDF.hashLen.
    pose proof (ceil_div_32_bounds L) as B.
    destruct (Z.gtb_spec (HKDF.ceil_div L 32) 255) as [G|G]; [lia|].
    replace (Z.to_nat (HKDF.ceil_div L 32)) with 0%nat by lia.
    cbn. unfold subarray0. now rewrite firstn_nil.
Qed.

(** X3. Output keying material for a shorter length is a prefix of the
    material for a longer one, from the same inputs: for
    [0 <= L1 <= L2 <= 8160], [derive(.., L1)] is the first [L1] octets of
    [derive(.., L2)]. *)
Theorem HKDF_derive_prefix `{rt : Runtime}
  (hmac_len : forall key data, length (hmac_sha256 key data) = 32%nat)
  (ikm salt info : Buffer) (L1 L2 : Z)
  (range : (0 <= L1 <= L2)%Z /\ (L2 <= 8160)%Z) :
  exists okm1 okm2,
    HKDF.derive ikm salt info L1 = ok okm1
    /\ HKDF.derive ikm salt info L2 = ok okm2
    /\ okm1 = firstn (Z.to_nat L1) okm2.
Proof.
  destruct range as [H12 H2].
  destruct (expand_in_range hmac_len (HKDF.extract salt ikm) info L1) as [E1 _]; [lia|].
  destruct (expand_in_range hmac_len (HKDF.extract salt ikm) info L2) as [E2 _]; [lia|].
  do 2 eexists. split; [exact E1|]. split; [exact E2|].
  now apply okm_prefix.
Qed.

(** X4. [createContextInfo] is the length octet, the label and the version
    octet, so its result has two octets more than the label; and it separates
    contexts: two calls give the same info only for the same label and
    versions equal modulo 256. *)
Theorem createContextInfo_separates (c1 c2 : string) (v1 v2 : Z) :
  length (createContextInfo c1 v1) = (length (utf8 c1) + 2)%nat
  /\ (createContextInfo c1 v1 = createContextInfo c2 v2 <->
      c1 = c2 /\ (v1 mod 256 = v2 mod 256)%Z).
Proof.
  unfold createContextInfo, utf8. split.
  - cbn. rewrite length_app. cbn. lia.
  - split.
    + intros E. cbn in E. injection E as _ E.
      apply app_inj_tail in E as [Ec Ev]. split.
      * rewrite <- (string_of_list_byte_of_string c1), Ec.
        apply string_of_list_byte_of_string.
      * unfold byte_of_Z, byte_of_N in Ev.
        pose proof (Z.mod_pos_bound v1 256 ltac:(lia)) as B1.
        pose proof (Z.mod_pos_bound v2 256 ltac:(lia)) as B2.
        rewrite !N.mod_small in Ev by lia.
        destruct (Byte.of_N (Z.to_N (v1 mod 256))) as [x1|] eqn:E1;
          [|apply Byte.of_N_None_iff in E1; lia].
        destruct (Byte.of_N (Z.to_N (v2 mod 256))) as [x2|] eqn:E2;
          [|apply Byte.of_N_None_iff in E2; lia].
        subst x2. apply Byte.to_of_N in E1, E2. lia.
    + intros [-> Ev]. unfold byte_of_Z. now rewrite Ev.
Qed.

(** X5. [SecureRandom.bytes] returns the CSPRNG's buffer unchanged, and only
    when it holds an octet other than 0x00 and an octet other than 0xff;
    otherwise it throws. A returned buffer is therefore never empty. *)
Theorem SecureRandom_bytes_returns (randomBytes : nat -> Buffer) (n : nat) (b : Buffer) :
  SecureRandom.bytes randomBytes n = ok b <->
  randomBytes n = b /\ (exists x, x ∈ b /\ x <> x00) /\ (exists y, y ∈ b /\ y <> xff).
Proof.
  unfold SecureRandom.bytes, SecureRandom.bytes_of, every_eq.
  assert (N : forall v (l : Buffer),
             forallb (fun x => Byte.eqb x v) l = false <-> exists x, x ∈ l /\ x <> v).
  { intros v l. rewrite <- not_true_iff_false, forallb_forall. split.
    - intros H. induction l as [|x l IH].
      + exfalso. apply H. intros ? [].
      + destruct (Byte.eqb x v) eqn:E.
        * destruct IH as (y & Hy & Hne).
          { intros Hall. apply H. intros z [<-|Hz]; [exact E | now apply Hall]. }
          exists y. split; [now apply list_elem_of_further | exact Hne].
        * exists x. split; [apply list_elem_of_here|]. intros ->. rewrite (Byte.byte_dec_lb eq_refl) in E. discriminate.
    - intros (x & Hx & Hne) Hall. apply list_elem_of_In in Hx.
      apply Hall in Hx. apply Byte.byte_dec_bl in Hx. contradiction. }
  destruct (forallb (fun x => Byte.eqb x x00) (randomBytes n)) eqn:E0; cbn.
  - split; [discriminate|]. intros (<- & H0 & _). apply N in H0. congruence.
  - destruct (forallb (fun x => Byte.eqb x xff) (randomBytes n)) eqn:E1; cbn.
    + split; [discriminate|]. intros (<- & _ & H1). apply N in H1. congruence.
    + unfold ok. split.
      * intros [= <-]. split; [reflexivity|]. split; now apply N.
      * intros (<- & _). reflexivity.
Qed.

(** ** [encrypt] and [decrypt] of crypto-utils.ts *)

Lemma fromHex_toHex (b : Buffer) : crypto_utils.fromHex (crypto_utils.toHex b) = b.
Proof.
  unfold crypto_utils.toHex. induction b as [|x b IH]; [reflexivity|].
  cbn [Hex.encode crypto_utils.fromHex]. rewrite IH.
  destruct x; reflexivity.
Qed.

(** The slice of a buffer between two positions, given by what the index
    arguments of [subarray] resolve to. *)
Lemma subarray_app3 (l a b c : Buffer) (s e : Z) :
  l = a ++ b ++ c ->
  relative_index (Z.of_nat (length l)) s = Z.of_nat (length a) ->
  relative_index (Z.of_nat (length l)) e = Z.of_nat (length a + length b) ->
  subarray l s e = b.
Proof.
  intros -> Hs He. unfold subarray. rewrite Hs, He.
  rewrite Nat2Z.id. replace (Z.to_nat _) with (length b) by lia.
  rewrite drop_app_length. apply take_app_length.
Qed.

Ltac resolve_index Len :=
  unfold relative_index; rewrite Len, ?length_app;
  repeat match goal with
    | |- context [(?a <? ?b)%Z] => destruct (Z.ltb_spec a b)
    end; cbn [length] in *; lia.

Lemma combined_slices (iv ct tag mac : Buffer) :
  length iv = 16%nat -> length tag = 16%nat -> length mac = 32%nat ->
  let combined := iv ++ ct ++ tag ++ mac in
  subarray combined 0 16 = iv
  /\ subarray combined 16 (-48) = ct
  /\ subarray combined (-48) (-32) = tag
  /\ subarray_from combined (-32) = mac.
Proof.
  intros Hiv Htag Hmac combined.
  assert (Len : Z.of_nat (length combined) = (64 + Z.of_nat (length ct))%Z).
  { unfold combined. rewrite !length_app. lia. }
  unfold subarray_from. repeat split.
  - apply (subarray_app3 combined [] iv (ct ++ tag ++ mac)); [reflexivity| |];
      resolve_index Len.
  - apply (subarray_app3 combined iv ct (tag ++ mac)); [reflexivity| |];
      resolve_index Len.
  - apply (subarray_app3 combined (iv ++ ct) tag mac);
      [unfold combined; now rewrite <- app_assoc| |];
      resolve_index Len.
  - apply (subarray_app3 combined (iv ++ ct ++ tag) mac []);
      [unfold combined; now rewrite <- !app_assoc, app_nil_r| |];
      resolve_index Len.
Qed.

(** A buffer of at least 64 octets, cut as [decrypt] cuts it. *)
Lemma decrypt_slices (c : Buffer) :
  (64 <= length c)%nat ->
  let n := length c in
  subarray c 0 16 = firstn 16 c
  /\ subarray c 16 (-48) = firstn (n - 64) (skipn 16 c)
  /\ subarray c (-48) (-32) = firstn 16 (skipn (n - 48) c)
  /\ subarray_from c (-32) = skipn (n - 32) c
  /\ firstn 16 c ++ firstn (n - 64) (skipn 16 c) ++ firstn 16 (skipn (n - 48) c)
     = firstn (n - 32) c.
Proof.
  intros Hn n.
  set (iv := firstn 16 c). set (r1 := skipn 16 c).
  set (ct := firstn (n - 64) r1). set (r2 := skipn (n - 64) r1).
  set (tag := firstn 16 r2). set (mac := skipn 16 r2).
  assert (E2 : skipn (n - 48) c = r2).
  { unfold r2, r1. rewrite drop_drop. f_equal. lia. }
  assert (E3 : skipn (n - 32) c = mac).
  { unfold mac. rewrite <- E2, drop_drop. f_equal. lia. }
  assert (Ec : c = iv ++ ct ++ tag ++ mac).
  { unfold iv, ct, tag, mac, r2, r1. now rewrite !take_drop. }
  assert (Liv : length iv = 16%nat) by (unfold iv; rewrite length_take; lia).
  assert (Lr1 : length r1 = (n - 16)%nat) by (unfold r1; rewrite length_drop; lia).
  assert (Lr2 : length r2 = 48%nat) by (unfold r2; rewrite length_drop; lia).
  assert (Ltag : length tag = 16%nat) by (unfold tag; rewrite length_take; lia).
  assert (Lmac : length mac = 32%nat) by (unfold mac; rewrite length_drop; lia).
  destruct (combined_slices iv ct tag mac Liv Ltag Lmac) as (S1 & S2 & S3 & S4).
  rewrite <- Ec in S1, S2, S3, S4. rewrite E2, E3.
  repeat split; try assumption.
  assert (Lct : length ct = (n - 64)%nat) by (unfold ct; rewrite length_take; lia).
  transitivity (firstn (n - 32) ((iv ++ ct ++ tag) ++ mac)).
  - rewrite take_app_length'; [reflexivity|]. rewrite !length_app. lia.
  - f_equal. rewrite <- !app_assoc. now symmetry.
Qed.

(** X6. [decrypt] undoes [encrypt] under the same two keys, whenever
    [encrypt] returns; and [encrypt] returns for a 32-octet encryption key
    unless the 16 random octets of the iv are all 0x00 or all 0xff. *)
Theorem crypto_utils_decrypt_encrypt `{rt : Runtime} (laws : RuntimeLaws rt)
  (seal : Buffer -> Buffer -> string -> result (Buffer * Buffer))
  (open : Buffer -> Buffer -> Buffer -> Buffer -> option string)
  (gcm : GcmLaws seal open)
  (randomBytes : nat -> Buffer)
  (randomBytes_length : forall n, length (randomBytes n) = n)
  (text : string) (encryptionKey authenticationKey : Buffer) :
  (forall s,
      crypto_utils.encrypt seal randomBytes text encryptionKey authenticationKey = ok s ->
      crypto_utils.decrypt open s encryptionKey authenticationKey = ok text)
  /\ (length encryptionKey = 32%nat ->
      every_eq x00 (randomBytes 16) = false ->
      every_eq xff (randomBytes 16) = false ->
      exists s,
        crypto_utils.encrypt seal randomBytes text encryptionKey authenticationKey = ok s).
Proof.
  unfold crypto_utils.encrypt, SecureRandom.bytes, SecureRandom.bytes_of, ok, throw.
  cbv zeta. split.
  - intros s H.
    destruct (every_eq x00 (randomBytes 16) || every_eq xff (randomBytes 16));
      [discriminate H|].
    destruct (seal encryptionKey (randomBytes 16) text) as [e|[c t]] eqn:Es;
      [discriminate H|].
    injection H as <-. unfold crypto_utils.decrypt.
    rewrite base64_roundtrip, fromHex_toHex.
    pose proof (gcm_tag_length _ _ gcm _ _ _ _ _ Es) as Lt.
    pose proof (gcm_open_seal _ _ gcm _ _ _ _ _ Es) as Eo.
    set (mac := hmac_sha256 authenticationKey (randomBytes 16 ++ c ++ t)).
    destruct (combined_slices (randomBytes 16) c t mac) as (S1 & S2 & S3 & S4);
      [apply randomBytes_length | exact Lt | apply hmac_sha256_length |].
    rewrite S1, S2, S3, S4.
    destruct (Nat.ltb_spec (length (randomBytes 16 ++ c ++ t ++ mac)) (16 + 16 + 32)) as [Hl|_].
    { rewrite !length_app, randomBytes_length, Lt in Hl. unfold mac in Hl.
      rewrite hmac_sha256_length in Hl. lia. }
    fold mac. rewrite constantTimeCompare_refl. cbn. now rewrite Eo.
  - intros Hk H0 H1. rewrite H0, H1. cbn.
    destruct (gcm_accepts _ _ gcm encryptionKey (randomBytes 16) text Hk) as (c & t & ->).
    + intros E. pose proof (randomBytes_length 16%nat) as L. rewrite E in L. discriminate.
    + eauto.
Qed.

(** X7. [decrypt] returns a text exactly when the decoded input has at
    least 64 octets, its last 32 octets are the HMAC-SHA-256 under the
    authentication key of all the octets before them (iv, ciphertext and GCM
    tag), and AES-GCM opens the ciphertext under the encryption key, the
    first 16 octets as iv and the 16 octets before the HMAC as tag. *)
Theorem crypto_utils_decrypt_accepts `{rt : Runtime}
  (open : Buffer -> Buffer -> Buffer -> Buffer -> option string)
  (encryptedData : string) (encryptionKey authenticationKey : Buffer) (text : string) :
  let c := fromBase64 encryptedData in
  let n := length c in
  crypto_utils.decrypt open encryptedData encryptionKey authenticationKey = ok text <->
  (64 <= n)%nat
  /\ skipn (n - 32) c = hmac_sha256 authenticationKey (firstn (n - 32) c)
  /\ open encryptionKey (firstn 16 c) (firstn (n - 64) (skipn 16 c))
       (firstn 16 (skipn (n - 48) c)) = Some text.
Proof.
  intros c n. unfold crypto_utils.decrypt. fold c.
  destruct (Nat.ltb_spec (length c) (16 + 16 + 32)) as [Hl|Hl].
  - split; [discriminate|]. intros (Hn & _). unfold n in Hn. lia.
  - destruct (decrypt_slices c) as (S1 & S2 & S3 & S4 & S5); [lia|].
    fold n in S2, S3, S4, S5. rewrite S1, S2, S3, S4, S5.
    destruct (constantTimeCompare _ _) eqn:Ec; cbn.
    + apply constantTimeCompare_spec in Ec.
      destruct (open _ _ _ _) as [p|].
      * unfold ok. split; [intros [= ->]; repeat split; [lia | assumption] | intros (_ & _ & [= ->]); reflexivity].
      * split; [discriminate | intros (_ & _ & H); discriminate].
    + split; [discriminate|]. intros (_ & E & _).
      apply constantTimeCompare_spec in E. congruence.
Qed.

(** ** The reference cipher keeps the laws *)

Lemma to_N_byte_of_N (n : N) : Byte.to_N (byte_of_N n) = (n mod 256)%N.
Proof.
  unfold byte_of_N.
  destruct (Byte.of_N (n mod 256)) as [b|] eqn:E.
  - now apply Byte.to_of_N.
  - apply Byte.of_N_None_iff in E. pose proof (N.mod_upper_bound n 256). lia.
Qed.

Lemma shift_shift (k x : byte) : ToyGCM.shift true k (ToyGCM.shift false k x) = x.
Proof.
  unfold ToyGCM.shift. rewrite to_N_byte_of_N.
  rewrite <- (byte_of_to_N x) at 2. f_equal.
  pose proof (Byte.to_N_bounded x). pose proof (Byte.to_N_bounded k).
  zify. Z.to_euclidean_division_equations. lia.
Qed.

Lemma stream_stream (p : Buffer) (i : nat) (b : Buffer) :
  ToyGCM.stream true p i (ToyGCM.stream false p i b) = b.
Proof.
  revert i. induction b as [|x b IH]; intros i; cbn [ToyGCM.stream]; [reflexivity|].
  now rewrite shift_shift, IH.
Qed.

Lemma toy_gcm_laws : GcmLaws ToyGCM.seal ToyGCM.open.
Proof.
  split.
  - intros key iv text Hk Hiv. unfold ToyGCM.seal.
    destruct (Nat.eqb_spec (length key) 32) as [_|N]; [|contradiction].
    destruct (Nat.eqb_spec (length iv) 0) as [Z|_].
    + apply length_zero_iff_nil in Z. contradiction.
    + do 2 eexists. reflexivity.
  - intros key iv text c t. unfold ToyGCM.seal.
    destruct (negb (length key =? 32)%nat); [discriminate|].
    destruct (length iv =? 0)%nat; [discriminate|].
    unfold ok. intros [= <- <-]. unfold ToyGCM.tag_of.
    rewrite length_take, reference_hmac_length. reflexivity.
  - intros key iv text c t. unfold ToyGCM.seal, ToyGCM.open.
    destruct (negb (length key =? 32)%nat); [discriminate|].
    destruct (length iv =? 0)%nat; [discriminate|].
    unfold ok. intros [= <- <-]. cbv [orb].
    rewrite constantTimeCompare_refl, stream_stream.
    now rewrite string_of_list_byte_of_string.
Qed.

(** ** The envelope, out and back *)

Ltac unfold_plugin :=
  unfold BaseEncryptionPlugin.unwrapMessage, BaseEncryptionPlugin.processIncomingMessage,
    BaseEncryptionPlugin.wrapMessage, BaseEncryptionPlugin.processOutgoingMessage,
    BaseEncryptionPlugin.parseM, MessageEncryptionPlugin.encrypt,
    MessageEncryptionPlugin.decrypt,
    try_catch, bind, ret, lift, get, modify, throw_if, throwM.

Section Envelope_roundtrip.
Context `{rt : Runtime} {laws : RuntimeLaws rt}.
Variable seal : Buffer -> Buffer -> string -> result (Buffer * Buffer).
Variable open : Buffer -> Buffer -> Buffer -> Buffer -> option string.
Hypothesis gcm : GcmLaws seal open.
Variable randomBytes : nat -> Buffer.
Hypothesis randomBytes_length : forall n, length (randomBytes n) = n.
Hypothesis base64_empty : fromBase64 EmptyString = [].

Lemma toBase64_truthy (b : Buffer) :
  b <> [] -> truthy (Some (JStr (toBase64 b))) = true.
Proof.
  intros Hb. cbn. apply negb_true_iff, String.eqb_neq. intros E.
  apply Hb. now rewrite <- (base64_roundtrip b), E.
Qed.

(** An enabled plugin with a 32-octet key seals the text of a message, and
    opens its own envelope. *)
Lemma outgoing_enabled (w : World BaseEncryptionPlugin.t) (k : BaseEncryptionPlugin.EncryptionKeys)
  (m : json) :
  BaseEncryptionPlugin.keys (this w) = Some k ->
  BaseEncryptionPlugin.enabled (this w) = true ->
  length (BaseEncryptionPlugin.encryptionKey k) = 32%nat ->
  exists c t,
    seal (BaseEncryptionPlugin.encryptionKey k) (randomBytes 12)
      (BaseEncryptionPlugin.messageStr_of m) = ok (c, t)
    /\ BaseEncryptionPlugin.processOutgoingMessage
         (MessageEncryptionPlugin.encrypt seal randomBytes) m w
       = (ok (JSON_stringify
                (BaseEncryptionPlugin.pluginMessage
                   (BaseEncryptionPlugin.algorithmName (this w))
                   (MessageEncryptionPlugin.AESGCMResult c (randomBytes 12) t))), w).
Proof.
  intros Hk He Hlen. destruct w as [h [ks en name]]. cbn in *. subst ks en.
  destruct (gcm_accepts _ _ gcm (BaseEncryptionPlugin.encryptionKey k) (randomBytes 12)
              (BaseEncryptionPlugin.messageStr_of m) Hlen) as (c & t & Es).
  { intros E. pose proof (randomBytes_length 12%nat) as L. rewrite E in L. discriminate. }
  exists c, t. split; [exact Es|].
  unfold_plugin. cbn. rewrite Es. reflexivity.
Qed.

Lemma incoming_envelope (w : World BaseEncryptionPlugin.t) (k : BaseEncryptionPlugin.EncryptionKeys)
  (text : string) (c t : Buffer) :
  BaseEncryptionPlugin.keys (this w) = Some k ->
  BaseEncryptionPlugin.enabled (this w) = true ->
  seal (BaseEncryptionPlugin.encryptionKey k) (randomBytes 12) text = ok (c, t) ->
  let env := BaseEncryptionPlugin.pluginMessage
               (BaseEncryptionPlugin.algorithmName (this w))
               (MessageEncryptionPlugin.AESGCMResult c (randomBytes 12) t) in
  JSON_parse (JSON_stringify env) = Some env ->
  BaseEncryptionPlugin.processIncomingMessage (MessageEncryptionPlugin.decrypt open)
    (JSON_stringify env) w
  = (ok (match JSON_parse text with
         | Some v => v
         | None => JStr (JSON_stringify env)
         end), w).
Proof.
  intros Hk He Es env Hp. destruct w as [h [ks en name]]. cbn in *. subst ks en.
  pose proof (gcm_tag_length _ _ gcm _ _ _ _ _ Es) as Lt.
  pose proof (gcm_open_seal _ _ gcm _ _ _ _ _ Es) as Eo.
  assert (Tiv : truthy (Some (JStr (toBase64 (randomBytes 12)))) = true).
  { apply toBase64_truthy. intros E. pose proof (randomBytes_length 12%nat) as L.
    rewrite E in L. discriminate. }
  assert (Ttag : truthy (Some (JStr (toBase64 t))) = true).
  { apply toBase64_truthy. intros ->. discriminate. }
  unfold_plugin. rewrite Hp. subst env. cbn.
  rewrite String.eqb_refl. cbn.
  cbn in Tiv, Ttag. rewrite Tiv, Ttag. cbn.
  rewrite andb_false_r. cbn. rewrite !base64_roundtrip, Eo. cbn.
  destruct (JSON_parse text); reflexivity.
Qed.

(** A text that is not an envelope: the parsed value comes back as it is. *)
Lemma incoming_plain (w : World BaseEncryptionPlugin.t) (text : string)
  (fields : list (string * json)) :
  JSON_parse text = Some (JObj fields) ->
  assoc "encrypted" fields = None ->
  BaseEncryptionPlugin.processIncomingMessage (MessageEncryptionPlugin.decrypt open) text w
  = (ok (JObj fields), w).
Proof.
  intros Hp He. unfold_plugin. rewrite Hp. cbn. rewrite He. cbn.
  now rewrite andb_false_r.
Qed.

Lemma unwrap_processed (w : World BaseEncryptionPlugin.t) (text type_ : string)
  (payload_ : option json) :
  let message_ := JObj ([("type", JStr type_)] ++ prop_opt "payload" payload_) in
  BaseEncryptionPlugin.processIncomingMessage (MessageEncryptionPlugin.decrypt open) text w
  = (ok message_, w) ->
  BaseEncryptionPlugin.unwrapMessage (MessageEncryptionPlugin.decrypt open) text w
  = (ok (if String.eqb type_ EmptyString then None
         else Some (BaseEncryptionPlugin.mkUnwrapped (JStr type_)
                      (if truthy payload_ then default JNull payload_ else message_))), w).
Proof.
  intros message_ H. unfold BaseEncryptionPlugin.unwrapMessage, try_catch, bind.
  rewrite H. subst message_. cbn.
  destruct (String.eqb type_ EmptyString); cbn; [reflexivity|].
  destruct payload_ as [p|]; cbn; reflexivity.
Qed.

End Envelope_roundtrip.

(** X8. An enabled [MessageEncryptionPlugin] whose encryption key has 32
    octets turns a message into the text of an envelope and leaves the plugin
    as it was; [processIncomingMessage] on that text returns what the sealed
    plaintext parses to. That is the message itself when it is not a string
    and JSON gives it back; for a string message that is not JSON text the
    result is the envelope's own text. *)
Theorem plugin_envelope_roundtrip `{rt : Runtime} (laws : RuntimeLaws rt)
  (seal : Buffer -> Buffer -> string -> result (Buffer * Buffer))
  (open : Buffer -> Buffer -> Buffer -> Buffer -> option string)
  (gcm : GcmLaws seal open)
  (randomBytes : nat -> Buffer)
  (randomBytes_length : forall n, length (randomBytes n) = n)
  (base64_empty : fromBase64 EmptyString = [])
  (w : World BaseEncryptionPlugin.t) (k : BaseEncryptionPlugin.EncryptionKeys) (m : json)
  (has_keys : BaseEncryptionPlugin.keys (this w) = Some k)
  (is_enabled : BaseEncryptionPlugin.enabled (this w) = true)
  (key_length : length (BaseEncryptionPlugin.encryptionKey k) = 32%nat) :
  exists c t,
    let env := BaseEncryptionPlugin.pluginMessage
                 (BaseEncryptionPlugin.algorithmName (this w))
                 (MessageEncryptionPlugin.AESGCMResult c (randomBytes 12) t) in
    seal (BaseEncryptionPlugin.encryptionKey k) (randomBytes 12)
      (BaseEncryptionPlugin.messageStr_of m) = ok (c, t)
    /\ BaseEncryptionPlugin.processOutgoingMessage
         (MessageEncryptionPlugin.encrypt seal randomBytes) m w
       = (ok (JSON_stringify env), w)
    /\ (JSON_parse (JSON_stringify env) = Some env ->
        BaseEncryptionPlugin.processIncomingMessage (MessageEncryptionPlugin.decrypt open)
          (JSON_stringify env) w
        = (ok (match JSON_parse (BaseEncryptionPlugin.messageStr_of m) with
               | Some v => v
               | None => JStr (JSON_stringify env)
               end), w)
        /\ ((forall s, m <> JStr s) -> JSON_parse (JSON_stringify m) = Some m ->
            BaseEncryptionPlugin.processIncomingMessage (MessageEncryptionPlugin.decrypt open)
              (JSON_stringify env) w
            = (ok m, w))).
Proof.
  destruct (outgoing_enabled seal open gcm randomBytes randomBytes_length w k m
              has_keys is_enabled key_length) as (c & t & Es & Hout).
  exists c, t. cbv zeta. split; [exact Es|]. split; [exact Hout|]. intros Hp.
  pose proof (incoming_envelope seal open gcm randomBytes randomBytes_length base64_empty
                w k _ c t has_keys is_enabled Es Hp) as Hin.
  split; [exact Hin|]. intros Hm Hparse. rewrite Hin.
  replace (BaseEncryptionPlugin.messageStr_of m) with (JSON_stringify m)
    by (destruct m; try reflexivity; now destruct (Hm s)).
  now rewrite Hparse.
Qed.

(** X9. [unwrapMessage] on what [wrapMessage] made, for a plugin whose
    key, if it has one, has 32 octets, and whether or not the message was
    sealed: the result is null when [type] is the empty string; otherwise it
    carries [type], and as payload the given payload when that is truthy and
    the whole [{ type, payload }] object when it is falsy or undefined. *)
Theorem unwrap_wrap `{rt : Runtime} (laws : RuntimeLaws rt)
  (seal : Buffer -> Buffer -> string -> result (Buffer * Buffer))
  (open : Buffer -> Buffer -> Buffer -> Buffer -> option string)
  (gcm : GcmLaws seal open)
  (randomBytes : nat -> Buffer)
  (randomBytes_length : forall n, length (randomBytes n) = n)
  (base64_empty : fromBase64 EmptyString = [])
  (w : World BaseEncryptionPlugin.t) (type_ : string) (payload_ : option json)
  (encrypt_ : bool)
  (key_length : forall k, BaseEncryptionPlugin.keys (this w) = Some k ->
                          length (BaseEncryptionPlugin.encryptionKey k) = 32%nat) :
  let message_ := JObj ([("type", JStr type_)] ++ prop_opt "payload" payload_) in
  exists sent,
    BaseEncryptionPlugin.wrapMessage (MessageEncryptionPlugin.encrypt seal randomBytes)
      type_ payload_ encrypt_ w
    = (ok (JSON_stringify sent), w)
    /\ (if encrypt_ && BaseEncryptionPlugin.isEnabled (this w)
        then exists k c t,
               BaseEncryptionPlugin.keys (this w) = Some k
               /\ seal (BaseEncryptionPlugin.encryptionKey k) (randomBytes 12)
                    (JSON_stringify message_) = ok (c, t)
               /\ sent = BaseEncryptionPlugin.pluginMessage
                           (BaseEncryptionPlugin.algorithmName (this w))
                           (MessageEncryptionPlugin.AESGCMResult c (randomBytes 12) t)
        else sent = message_)
    /\ (JSON_parse (JSON_stringify sent) = Some sent ->
        JSON_parse (JSON_stringify message_) = Some message_ ->
        BaseEncryptionPlugin.unwrapMessage (MessageEncryptionPlugin.decrypt open)
          (JSON_stringify sent) w
        = (ok (if String.eqb type_ EmptyString then None
               else Some (BaseEncryptionPlugin.mkUnwrapped (JStr type_)
                            (if truthy payload_ then default JNull payload_
                             else message_))), w)).
Proof.
  intros message_.
  assert (Plain : JSON_parse (JSON_stringify message_) = Some message_ ->
            BaseEncryptionPlugin.unwrapMessage (MessageEncryptionPlugin.decrypt open)
              (JSON_stringify message_) w
            = (ok (if String.eqb type_ EmptyString then None
                   else Some (BaseEncryptionPlugin.mkUnwrapped (JStr type_)
                                (if truthy payload_ then default JNull payload_
                                 else message_))), w)).
  { intros Hp. apply (unwrap_processed open).
    apply (incoming_plain open w _ _ Hp). now destruct payload_. }
  assert (W : BaseEncryptionPlugin.wrapMessage
                (MessageEncryptionPlugin.encrypt seal randomBytes) type_ payload_ encrypt_ w
              = if encrypt_ && BaseEncryptionPlugin.isEnabled (this w)
                then BaseEncryptionPlugin.processOutgoingMessage
                       (MessageEncryptionPlugin.encrypt seal randomBytes) message_ w
                else (ok (JSON_stringify message_), w)).
  { unfold BaseEncryptionPlugin.wrapMessage, bind, get, ret. cbn.
    destruct (encrypt_ && BaseEncryptionPlugin.isEnabled (this w)); reflexivity. }
  rewrite W. clear W.
  destruct (encrypt_ && BaseEncryptionPlugin.isEnabled (this w)) eqn:Ee.
  - apply andb_true_iff in Ee as [_ Ee]. unfold BaseEncryptionPlugin.isEnabled in Ee.
    apply andb_true_iff in Ee as [Hen Hk].
    destruct (BaseEncryptionPlugin.keys (this w)) as [k|] eqn:Ek; [|discriminate].
    destruct (outgoing_enabled seal open gcm randomBytes randomBytes_length w k message_
                Ek Hen (key_length k eq_refl)) as (c & t & Es & Hout).
    eexists. split; [exact Hout|]. split; [exists k, c, t; auto|]. intros Hp Hm.
    apply (unwrap_processed open).
    rewrite (incoming_envelope seal open gcm randomBytes randomBytes_length base64_empty
               w k _ c t Ek Hen Es Hp).
    change (BaseEncryptionPlugin.messageStr_of message_) with (JSON_stringify message_).
    now rewrite Hm.
  - exists message_. split; [reflexivity|]. split; [reflexivity|].
    intros _ Hp. now apply Plain.
Qed.

(** ** What the handlers leave as it was *)

Section Steps.
Context {S : Type} (R : World S -> World S -> Prop).
Hypothesis R_refl : forall w, R w w.
Hypothesis R_trans : forall a b c, R a b -> R b c -> R a c.

Lemma steps_ret {A} (a : A) : steps R (ret a).
Proof. intros w. apply R_refl. Qed.

Lemma steps_lift {A} (r : result A) : steps R (lift r).
Proof. intros w. apply R_refl. Qed.

Lemma steps_throwM {A} (e : exn) : steps R (throwM (A := A) e).
Proof. intros w. apply R_refl. Qed.

Lemma steps_get : steps R get.
Proof. intros w. apply R_refl. Qed.

Lemma steps_read (r : nat) : steps R (read r).
Proof. intros w. apply R_refl. Qed.

Lemma steps_read_opt (r : option nat) : steps R (read_opt r).
Proof. destruct r; intros w; apply R_refl. Qed.

Lemma steps_throw_if (c : bool) (e : exn) : steps R (throw_if c e).
Proof. destruct c; intros w; apply R_refl. Qed.

Lemma steps_bind {A B} (m : M S A) (k : A -> M S B) :
  steps R m -> (forall a, steps R (k a)) -> steps R (bind m k).
Proof.
  intros Hm Hk w. unfold bind. specialize (Hm w).
  destruct (m w) as [[e|a] w1]; cbn in *; [exact Hm|].
  eapply R_trans; [exact Hm | apply Hk].
Qed.

Lemma steps_try_catch {A} (body : M S A) (handler : exn -> M S A) :
  steps R body -> (forall e, steps R (handler e)) -> steps R (try_catch body handler).
Proof.
  intros Hb Hh w. unfold try_catch. specialize (Hb w).
  destruct (body w) as [[e|a] w1]; cbn in *; [|exact Hb].
  eapply R_trans; [exact Hb | apply Hh].
Qed.

End Steps.

Create HintDb steps.
#[export] Hint Resolve steps_ret steps_lift steps_throwM steps_get steps_read steps_read_opt
  steps_throw_if steps_bind steps_try_catch : steps.
#[export] Hint Extern 2 (steps _ (match ?x with _ => _ end)) => destruct x : steps.
#[export] Hint Extern 2 (steps _ (if ?x then _ else _)) => destruct x : steps.

Section FrameFacts.
Context `{rt : Runtime}.

Lemma provider_frame_refl (w : World (SecureProvider.t ECDH)) : provider_frame w w.
Proof. unfold provider_frame. auto. Qed.

Lemma provider_frame_trans (a b c : World (SecureProvider.t ECDH)) :
  provider_frame a b -> provider_frame b c -> provider_frame a c.
Proof.
  unfold provider_frame. intros (P1 & E1 & S1 & N1) (P2 & E2 & S2 & N2).
  split; [now transitivity (heap b)|]. split; [congruence|]. split; congruence.
Qed.

Lemma consumer_frame_refl (w : World (SecureConsumer.t ECDH)) : consumer_frame w w.
Proof. unfold consumer_frame. auto. Qed.

Lemma consumer_frame_trans (a b c : World (SecureConsumer.t ECDH)) :
  consumer_frame a b -> consumer_frame b c -> consumer_frame a c.
Proof.
  unfold consumer_frame. intros (P1 & E1 & N1) (P2 & E2 & N2).
  split; [now transitivity (heap b)|]. split; congruence.
Qed.

Lemma provider_frame_alloc (b : Buffer) : steps provider_frame (alloc b).
Proof. intros w. unfold provider_frame. cbn. split; [now apply prefix_app_r|]. auto. Qed.

Lemma consumer_frame_alloc (b : Buffer) : steps consumer_frame (alloc b).
Proof. intros w. unfold consumer_frame. cbn. split; [now apply prefix_app_r|]. auto. Qed.

Lemma provider_frame_setters :
  (forall v, steps provider_frame (modify (SecureProvider.set_consumerNonce v)))
  /\ (forall v, steps provider_frame (modify (SecureProvider.set_sharedSecret v)))
  /\ (forall v, steps provider_frame (modify (SecureProvider.set_derivedKeys v)))
  /\ (forall v, steps provider_frame (modify (SecureProvider.set_confirmed v))).
Proof. repeat split; reflexivity. Qed.

Lemma consumer_frame_setters :
  (forall v, steps consumer_frame (modify (SecureConsumer.set_sessionId v)))
  /\ (forall v, steps consumer_frame (modify (SecureConsumer.set_providerNonce v)))
  /\ (forall v, steps consumer_frame (modify (SecureConsumer.set_providerPublicKey v)))
  /\ (forall v, steps consumer_frame (modify (SecureConsumer.set_sharedSecret v)))
  /\ (forall v, steps consumer_frame (modify (SecureConsumer.set_derivedKeys v)))
  /\ (forall v, steps consumer_frame (modify (SecureConsumer.set_confirmed v))).
Proof. repeat split; reflexivity. Qed.

Lemma provider_handleResponse_frame (raw : Raw) :
  steps provider_frame (SecureProvider.handleResponse raw).
Proof.
  destruct provider_frame_setters as (S1 & S2 & S3 & S4).
  pose proof provider_frame_refl as Rr. pose proof provider_frame_trans as Rt.
  pose proof provider_frame_alloc as Al.
  unfold SecureProvider.handleResponse, SecureProvider._processHandshakeResponse,
    SecureProvider._processKeyConfirmation, SecureProvider._deriveKeys, _normalizeMessage.
  auto 40 with steps.
Qed.

Lemma consumer_handleMessage_frame (raw : Raw) :
  steps consumer_frame (SecureConsumer.handleMessage raw).
Proof.
  destruct consumer_frame_setters as (S1 & S2 & S3 & S4 & S5 & S6).
  pose proof consumer_frame_refl as Rr. pose proof consumer_frame_trans as Rt.
  pose proof consumer_frame_alloc as Al.
  unfold SecureConsumer.handleMessage, SecureConsumer._processHandshakeInit,
    SecureConsumer._processKeyConfirmationRequest, SecureConsumer._deriveKeys,
    _normalizeMessage.
  auto 40 with steps.
Qed.

End FrameFacts.

(** ** States in order *)

Lemma deref_prefix (h h' : Heap) (r : nat) :
  h `prefix_of` h' -> (r < length h)%nat -> deref h' r = deref h r.
Proof.
  intros [ext ->] Hr. unfold deref. now rewrite lookup_app_l.
Qed.

Lemma deref_valid (h : Heap) (r : nat) : deref h r <> [] -> (r < length h)%nat.
Proof.
  unfold deref. intros H. destruct (h !! r) as [b|] eqn:E; [|contradiction].
  now apply lookup_lt_Some in E.
Qed.

Lemma keys_32_prefix (h h' : Heap) (dk : option Derived.keys) :
  h `prefix_of` h' -> keys_32 h dk -> keys_32 h' dk.
Proof.
  intros P. destruct dk as [k|]; [|exact id]. cbn. intros (H1 & H2 & H3).
  rewrite !(deref_prefix h h') by
    (try exact P; apply deref_valid; intros E; rewrite E in *; discriminate).
  auto.
Qed.

Lemma scrub_length (rs : list nat) (h : Heap) : length (scrub rs h) = length h.
Proof.
  unfold scrub. revert h. induction rs as [|r rs IH]; intros h; cbn; [reflexivity|].
  now rewrite IH, length_alter.
Qed.

Section WellFormed.
Context `{rt : Runtime} {laws : RuntimeLaws rt}.

Lemma consumer_handleMessage_ok (raw : Raw) (w : World (SecureConsumer.t ECDH)) :
  consumer_ok w -> consumer_ok (snd (SecureConsumer.handleMessage raw w)).
Proof.
  intros (Hc & Hk & Hn).
  destruct (consumer_handleMessage_frame raw w) as (P & _ & N).
  pose proof (prefix_length _ _ P) as L.
  unfold consumer_ok. cbv zeta. rewrite N.
  destruct (consumer_outcome raw w) as
    [(msg & _ & _ & Ed & Ecf) | [(resp & dk & _ & Ecf & Ed & L1 & L2 & L3)
                                | (resp & _ & Ew & Hd)]]; unfold chs in *.
  - rewrite Ed, Ecf. split; [exact Hc|]. split; [|lia].
    now apply (keys_32_prefix (heap w)).
  - rewrite Ed, Ecf. split; [discriminate|]. split; [|lia]. cbn. auto.
  - rewrite Ew. cbn. split; [intros _; exact Hd|]. split; [exact Hk | exact Hn].
Qed.

Lemma provider_handleResponse_ok (raw : Raw) (w : World (SecureProvider.t ECDH)) :
  provider_ok w -> provider_ok (snd (SecureProvider.handleResponse raw w)).
Proof.
  intros (Hc & Hk & Hn).
  destruct (provider_handleResponse_frame raw w) as (P & _ & _ & N).
  pose proof (prefix_length _ _ P) as L.
  unfold provider_ok. cbv zeta. rewrite N.
  destruct (provider_outcome raw w) as
    [(msg & _ & _ & Ed & Ecf) | [(mac & dk & _ & Ecf & Ed & L1 & L2 & L3)
                                | (_ & Ew & Hd)]]; unfold phs in *.
  - rewrite Ed, Ecf. split; [exact Hc|]. split; [|lia].
    now apply (keys_32_prefix (heap w)).
  - rewrite Ed, Ecf. split; [discriminate|]. split; [|lia]. cbn. auto.
  - rewrite Ew. cbn. split; [intros _; exact Hd|]. split; [exact Hk | exact Hn].
Qed.

Lemma provider_reachable_ok (w : World (SecureProvider.t ECDH)) :
  provider_reachable w -> provider_ok w.
Proof.
  induction 1 as [e rnd w Hnew | w _ IH | raw w _ IH | w _ IH].
  - apply new_provider_inv in Hnew. subst w. unfold provider_ok. cbn.
    split; [discriminate|]. split; [exact I | lia].
  - exact IH.
  - now apply provider_handleResponse_ok.
  - rewrite provider_destroy_eq. destruct IH as (_ & _ & Hn).
    unfold provider_ok. cbn. split; [discriminate|]. split; [exact I|].
    now rewrite scrub_length.
Qed.

Lemma consumer_reachable_ok (w : World (SecureConsumer.t ECDH)) :
  consumer_reachable w -> consumer_ok w.
Proof.
  induction 1 as [e rnd w Hnew | raw w _ IH | w _ IH].
  - apply new_consumer_inv in Hnew. subst w. unfold consumer_ok. cbn.
    split; [discriminate|]. split; [exact I | lia].
  - now apply consumer_handleMessage_ok.
  - rewrite consumer_destroy_eq. destruct IH as (_ & _ & Hn).
    unfold consumer_ok. cbn. split; [discriminate|]. split; [exact I|].
    now rewrite scrub_length.
Qed.

End WellFormed.

(** X11. In every reachable state of a provider or a consumer,
    [isHandshakeConfirmed()] is true exactly when [getDerivedKeys()] is not
    null, and the two Buffers it hands out hold 32 octets each. *)
Theorem confirmed_iff_keys `{rt : Runtime} (laws : RuntimeLaws rt) :
  (forall w : World (SecureProvider.t ECDH),
      provider_reachable w ->
      (SecureProvider.isHandshakeConfirmed (this w) = true
       <-> SecureProvider.getDerivedKeys (this w) <> None)
      /\ (forall k, SecureProvider.getDerivedKeys (this w) = Some k ->
           length (deref (heap w) (Exposed.encryptionKey k)) = 32%nat
           /\ length (deref (heap w) (Exposed.authenticationKey k)) = 32%nat))
  /\ (forall w : World (SecureConsumer.t ECDH),
        consumer_reachable w ->
        (SecureConsumer.isHandshakeConfirmed (this w) = true
         <-> SecureConsumer.getDerivedKeys (this w) <> None)
        /\ (forall k, SecureConsumer.getDerivedKeys (this w) = Some k ->
             length (deref (heap w) (Exposed.encryptionKey k)) = 32%nat
             /\ length (deref (heap w) (Exposed.authenticationKey k)) = 32%nat)).
Proof.
  split; intros w R.
  - apply provider_reachable_ok in R. destruct R as (Hc & Hk & _).
    unfold SecureProvider.isHandshakeConfirmed, SecureProvider.getDerivedKeys.
    destruct (SecureProvider.confirmed (SecureProvider.handshakeState (this w)));
      cbn; [|split; [split; [discriminate | congruence] | discriminate]].
    destruct (SecureProvider.derivedKeys (SecureProvider.handshakeState (this w)))
      as [dk|]; [|now destruct Hc].
    split; [split; [discriminate | reflexivity]|].
    intros k [= <-]. cbn in *. tauto.
  - apply consumer_reachable_ok in R. destruct R as (Hc & Hk & _).
    unfold SecureConsumer.isHandshakeConfirmed, SecureConsumer.getDerivedKeys.
    destruct (SecureConsumer.confirmed (SecureConsumer.handshakeState (this w)));
      cbn; [|split; [split; [discriminate | congruence] | discriminate]].
    destruct (SecureConsumer.derivedKeys (SecureConsumer.handshakeState (this w)))
      as [dk|]; [|now destruct Hc].
    split; [split; [discriminate | reflexivity]|].
    intros k [= <-]. cbn in *. tauto.
Qed.

(** X12. Handling a message never replaces a peer's key pair, its own
    nonce object or, for a provider, its session id, and never writes to a
    Buffer that existed before the call: every such Buffer, the keys handed
    out by [getDerivedKeys()] among them, holds the same octets afterwards. *)
Theorem handlers_keep_identity_and_buffers `{rt : Runtime} :
  (forall (raw : Raw) (w : World (SecureProvider.t ECDH)),
      let w' := snd (SecureProvider.handleResponse raw w) in
      SecureProvider.ecdh (this w') = SecureProvider.ecdh (this w)
      /\ SecureProvider.getSessionId (this w') = SecureProvider.getSessionId (this w)
      /\ SecureProvider.providerNonce (SecureProvider.handshakeState (this w'))
         = SecureProvider.providerNonce (SecureProvider.handshakeState (this w))
      /\ (forall r, (r < length (heap w))%nat -> deref (heap w') r = deref (heap w) r))
  /\ (forall (raw : Raw) (w : World (SecureConsumer.t ECDH)),
        let w' := snd (SecureConsumer.handleMessage raw w) in
        SecureConsumer.ecdh (this w') = SecureConsumer.ecdh (this w)
        /\ SecureConsumer.consumerNonce (SecureConsumer.handshakeState (this w'))
           = SecureConsumer.consumerNonce (SecureConsumer.handshakeState (this w))
        /\ (forall r, (r < length (heap w))%nat -> deref (heap w') r = deref (heap w) r)).
Proof.
  split; intros raw w; cbv zeta.
  - destruct (provider_handleResponse_frame raw w) as (P & E & S & N).
    repeat split; try assumption. intros r Hr. now apply deref_prefix.
  - destruct (consumer_handleMessage_frame raw w) as (P & E & N).
    repeat split; try assumption. intros r Hr. now apply deref_prefix.
Qed.

(** X13. [handleResponse] and [handleMessage] never throw: they return a
    result for every input in every state. When the result is of type "error",
    the shared secret, the derived keys and the confirmed flag are what they
    were before the call, and so is what [getDerivedKeys()] returns. *)
Theorem error_results_keep_keys `{rt : Runtime} (laws : RuntimeLaws rt) :
  (forall (raw : Raw) (w : World (SecureProvider.t ECDH)),
      exists res,
        fst (SecureProvider.handleResponse raw w) = ok res
        /\ (SecureProvider.type res = "error" ->
            let s := SecureProvider.handshakeState (this w) in
            let s' := SecureProvider.handshakeState
                        (this (snd (SecureProvider.handleResponse raw w))) in
            SecureProvider.sharedSecret s' = SecureProvider.sharedSecret s
            /\ SecureProvider.derivedKeys s' = SecureProvider.derivedKeys s
            /\ SecureProvider.confirmed s' = SecureProvider.confirmed s
            /\ SecureProvider.getDerivedKeys (this (snd (SecureProvider.handleResponse raw w)))
               = SecureProvider.getDerivedKeys (this w)))
  /\ (forall (raw : Raw) (w : World (SecureConsumer.t ECDH)),
        exists res,
          fst (SecureConsumer.handleMessage raw w) = ok res
          /\ (SecureConsumer.type res = "error" ->
              let s := SecureConsumer.handshakeState (this w) in
              let s' := SecureConsumer.handshakeState
                          (this (snd (SecureConsumer.handleMessage raw w))) in
              SecureConsumer.sharedSecret s' = SecureConsumer.sharedSecret s
              /\ SecureConsumer.derivedKeys s' = SecureConsumer.derivedKeys s
              /\ SecureConsumer.confirmed s' = SecureConsumer.confirmed s
              /\ SecureConsumer.getDerivedKeys (this (snd (SecureConsumer.handleMessage raw w)))
                 = SecureConsumer.getDerivedKeys (this w))).
Proof.
  split; intros raw w.
  - destruct (provider_outcome raw w) as
      [(msg & -> & Es & Ed & Ecf) | [(mac & dk & -> & _) | (-> & _)]];
      eexists; (split; [reflexivity|]); cbn; try discriminate.
    intros _. unfold phs in *. unfold SecureProvider.getDerivedKeys.
    now rewrite Es, Ed, Ecf.
  - destruct (consumer_outcome raw w) as
      [(msg & -> & Es & Ed & Ecf) | [(resp & dk & -> & _) | (resp & -> & _)]];
      eexists; (split; [reflexivity|]); cbn; try discriminate.
    intros _. unfold chs in *. unfold SecureConsumer.getDerivedKeys.
    now rewrite Es, Ed, Ecf.
Qed.

Section Rekeying.
Context `{rt : Runtime} {laws : RuntimeLaws rt}.

Local Arguments HKDF.derive : simpl never.
Local Arguments createContextInfo : simpl never.

Lemma lookup_old (h ext : Heap) (r : nat) :
  (r < length h)%nat -> (h ++ ext) !! r = h !! r.
Proof. intros Hr. now apply lookup_app_l. Qed.

Lemma lookup_fresh0 (h ext : Heap) : (h ++ ext) !! length h = ext !! 0%nat.
Proof. rewrite <- (lookup_fresh h ext 0). f_equal. lia. Qed.

(** A well-formed handshake-init, step by step: where the new keys are and
    what they hold. *)
Lemma consumer_rekeys (w : World (SecureConsumer.t ECDH)) (raw : Raw)
  (fields : list (string * json)) (nonce pk : string) (ciphers hashes : list json)
  (secret : Buffer) :
  delivers raw (JObj fields) ->
  assoc "type" fields = Some (JStr "handshake-init") ->
  assoc "version" fields = Some (JNum 1) ->
  assoc "supportedCiphers" fields = Some (JArr ciphers) ->
  assoc "supportedHashes" fields = Some (JArr hashes) ->
  In (JStr "aes-256-gcm") ciphers ->
  In (JStr "sha256") hashes ->
  assoc "providerNonce" fields = Some (JStr nonce) ->
  assoc "publicKey" fields = Some (JStr pk) ->
  computeSecret (SecureConsumer.ecdh (this w)) (fromBase64 pk) = Some secret ->
  (SecureConsumer.consumerNonce (SecureConsumer.handshakeState (this w)) < length (heap w))%nat ->
  let n := length (heap w) in
  let salt := fromBase64 nonce
              ++ deref (heap w)
                   (SecureConsumer.consumerNonce (SecureConsumer.handshakeState (this w))) in
  exists resp w',
    SecureConsumer.handleMessage raw w
    = (ok (SecureConsumer.mkResult "handshake-response" (Some resp) false None), w')
    /\ SecureConsumer.isHandshakeConfirmed (this w')
       = SecureConsumer.isHandshakeConfirmed (this w)
    /\ SecureConsumer.derivedKeys (SecureConsumer.handshakeState (this w'))
       = Some (Derived.mk (n + 3) (n + 4) (n + 5))
    /\ deref (heap w') (n + 3) = kdf secret salt "SubtylSocket-Encryption"
    /\ deref (heap w') (n + 4) = kdf secret salt "SubtylSocket-Authentication".
Proof.
  intros D Hty Hv Hc Hh Hinc Hinh Hn Hpk Hs Hcn.
  rewrite (consumer_delivery raw _ w D). destruct w as [h o].
  assert (Ec : existsb (fun i => strict_eq_str (Some i) "aes-256-gcm") ciphers = true).
  { apply existsb_exists. eexists; split; [exact Hinc | reflexivity]. }
  assert (Eh : existsb (fun i => strict_eq_str (Some i) "sha256") hashes = true).
  { apply existsb_exists. eexists; split; [exact Hinh | reflexivity]. }
  unfold_js. cbn in *. rewrite Hty. cbn. rewrite Hv. cbn. rewrite Hc. cbn. rewrite Ec. cbn.
  rewrite Hh. cbn. rewrite Eh. cbn. rewrite Hn. cbn. rewrite Hpk. cbn. rewrite Hs. cbn.
  rewrite_derive. cbn.
  do 2 eexists. split; [reflexivity|]. cbn. split; [reflexivity|].
  split; [rewrite !length_app; cbn [length]; do 2 f_equal; lia|].
  fresh_lookups.
  rewrite !(lookup_old h _ _ Hcn), lookup_fresh0. cbn. split; reflexivity.
Qed.

Lemma provider_rekeys (w : World (SecureProvider.t ECDH)) (raw : Raw)
  (fields : list (string * json)) (nonce pk : string) (secret : Buffer) :
  delivers raw (JObj fields) ->
  assoc "type" fields = Some (JStr "handshake-response") ->
  assoc "sessionId" fields = Some (JStr (SecureProvider.getSessionId (this w))) ->
  assoc "consumerNonce" fields = Some (JStr nonce) ->
  assoc "publicKey" fields = Some (JStr pk) ->
  computeSecret (SecureProvider.ecdh (this w)) (fromBase64 pk) = Some secret ->
  (SecureProvider.providerNonce (SecureProvider.handshakeState (this w)) < length (heap w))%nat ->
  let n := length (heap w) in
  let salt := deref (heap w)
                (SecureProvider.providerNonce (SecureProvider.handshakeState (this w)))
              ++ fromBase64 nonce in
  exists mac w',
    SecureProvider.handleResponse raw w
    = (ok (SecureProvider.mkResult "send-confirmation" false None (Some mac)), w')
    /\ SecureProvider.isHandshakeConfirmed (this w')
       = SecureProvider.isHandshakeConfirmed (this w)
    /\ SecureProvider.derivedKeys (SecureProvider.handshakeState (this w'))
       = Some (Derived.mk (n + 2) (n + 3) (n + 4))
    /\ deref (heap w') (n + 2) = kdf secret salt "SubtylSocket-Encryption"
    /\ deref (heap w') (n + 3) = kdf secret salt "SubtylSocket-Authentication".
Proof.
  intros D Hty Hsid Hn Hpk Hs Hpn.
  rewrite (provider_delivery raw _ w D). destruct w as [h o].
  unfold SecureProvider.getSessionId in Hsid.
  unfold_js. cbn in *. rewrite Hty. cbn. rewrite Hsid. cbn. rewrite String.eqb_refl. cbn.
  rewrite Hn. cbn. rewrite Hpk. cbn. rewrite Hs. cbn.
  rewrite_derive. cbn.
  do 2 eexists. split; [reflexivity|]. cbn. split; [reflexivity|].
  split; [rewrite !length_app; cbn [length]; do 2 f_equal; lia|].
  fresh_lookups.
  rewrite !(lookup_old h _ _ Hpn), lookup_fresh0. cbn. split; reflexivity.
Qed.

End Rekeying.

Section Rejections.
Context `{rt : Runtime}.

(** A handshake-init that passes validation but carries a public key that
    [computeSecret] rejects. *)
Lemma consumer_rejected_key (w : World (SecureConsumer.t ECDH)) (raw : Raw)
  (fields : list (string * json)) (nonce pk : string) (ciphers hashes : list json) :
  delivers raw (JObj fields) ->
  assoc "type" fields = Some (JStr "handshake-init") ->
  assoc "version" fields = Some (JNum 1) ->
  assoc "supportedCiphers" fields = Some (JArr ciphers) ->
  assoc "supportedHashes" fields = Some (JArr hashes) ->
  In (JStr "aes-256-gcm") ciphers ->
  In (JStr "sha256") hashes ->
  assoc "providerNonce" fields = Some (JStr nonce) ->
  assoc "publicKey" fields = Some (JStr pk) ->
  computeSecret (SecureConsumer.ecdh (this w)) (fromBase64 pk) = None ->
  SecureConsumer.handleMessage raw w
  = (ok (SecureConsumer.mkResult "error" None false
           (Some (message ERR_CRYPTO_ECDH_INVALID_PUBLIC_KEY))),
     mkWorld (heap w ++ [fromBase64 nonce; fromBase64 pk])
       (SecureConsumer.set_providerPublicKey (Some (S (length (heap w))))
          (SecureConsumer.set_providerNonce (Some (length (heap w)))
             (SecureConsumer.set_sessionId (assoc "sessionId" fields) (this w))))).
Proof.
  intros D Hty Hv Hc Hh Hinc Hinh Hn Hpk Hs.
  rewrite (consumer_delivery raw _ w D). destruct w as [h o].
  assert (Ec : existsb (fun i => strict_eq_str (Some i) "aes-256-gcm") ciphers = true).
  { apply existsb_exists. eexists; split; [exact Hinc | reflexivity]. }
  assert (Eh : existsb (fun i => strict_eq_str (Some i) "sha256") hashes = true).
  { apply existsb_exists. eexists; split; [exact Hinh | reflexivity]. }
  unfold_js. cbn in *. rewrite Hty. cbn. rewrite Hv. cbn. rewrite Hc. cbn. rewrite Ec. cbn.
  rewrite Hh. cbn. rewrite Eh. cbn. rewrite Hn. cbn. rewrite Hpk. cbn. rewrite Hs. cbn.
  rewrite <- app_assoc, length_app. cbn.
  replace (length h + 1)%nat with (S (length h)) by lia. reflexivity.
Qed.

Lemma provider_rejected_key (w : World (SecureProvider.t ECDH)) (raw : Raw)
  (fields : list (string * json)) (nonce pk : string) :
  delivers raw (JObj fields) ->
  assoc "type" fields = Some (JStr "handshake-response") ->
  assoc "sessionId" fields = Some (JStr (SecureProvider.getSessionId (this w))) ->
  assoc "consumerNonce" fields = Some (JStr nonce) ->
  assoc "publicKey" fields = Some (JStr pk) ->
  computeSecret (SecureProvider.ecdh (this w)) (fromBase64 pk) = None ->
  SecureProvider.handleResponse raw w
  = (ok (SecureProvider.mkResult "error" false
           (Some (message ERR_CRYPTO_ECDH_INVALID_PUBLIC_KEY)) None),
     mkWorld (heap w ++ [fromBase64 nonce])
       (SecureProvider.set_consumerNonce (Some (length (heap w))) (this w))).
Proof.
  intros D Hty Hsid Hn Hpk Hs.
  rewrite (provider_delivery raw _ w D). destruct w as [h o].
  unfold SecureProvider.getSessionId in Hsid.
  unfold_js. cbn in *. rewrite Hty. cbn. rewrite Hsid. cbn. rewrite String.eqb_refl. cbn.
  rewrite Hn. cbn. rewrite Hpk. cbn. rewrite Hs. reflexivity.
Qed.

(** What [_processHandshakeInit] checks before it stores anything. *)
Lemma consumer_init_validation (w : World (SecureConsumer.t ECDH)) (raw : Raw)
  (fields : list (string * json)) :
  delivers raw (JObj fields) ->
  assoc "type" fields = Some (JStr "handshake-init") ->
  (assoc "version" fields <> Some (JNum 1) ->
   SecureConsumer.handleMessage raw w
   = (ok (SecureConsumer.mkResult "error" None false
            (Some "Unsupported protocol version")), w))
  /\ (assoc "version" fields = Some (JNum 1) ->
      opt_includes (assoc "supportedCiphers" fields) "aes-256-gcm" = ok false
      \/ (opt_includes (assoc "supportedCiphers" fields) "aes-256-gcm" = ok true
          /\ opt_includes (assoc "supportedHashes" fields) "sha256" = ok false) ->
      SecureConsumer.handleMessage raw w
      = (ok (SecureConsumer.mkResult "error" None false
               (Some "Unsupported cryptographic algorithms")), w)).
Proof.
  intros D Hty. rewrite (consumer_delivery raw _ w D). destruct w as [h o]. split.
  - intros Hv.
    assert (E : strict_eq_num (assoc "version" fields) 1 = false).
    { destruct (assoc "version" fields) as [[| |n| | |]|]; try reflexivity. cbn.
      apply Z.eqb_neq. intros ->. now apply Hv. }
    unfold_js. cbn. rewrite Hty. cbn. rewrite E. reflexivity.
  - intros Hv Halg. unfold_js. cbn. rewrite Hty. cbn. rewrite Hv. cbn.
    destruct Halg as [Hc | [Hc Hh]].
    + rewrite Hc. reflexivity.
    + rewrite Hc. cbn. rewrite Hh. reflexivity.
Qed.

End Rejections.

(** X14. The confirmed flag survives a new exchange. A reachable consumer
    that is confirmed and receives a further well-formed handshake-init
    answers it, stays confirmed, and [getDerivedKeys()] hands out the keys it
    has just derived from that init, in new Buffers, with no key confirmation
    for them; likewise a confirmed provider that receives a further
    handshake-response carrying its session id. *)
Theorem rekeying_keeps_confirmed `{rt : Runtime} (laws : RuntimeLaws rt) :
  (forall (w : World (SecureConsumer.t ECDH)) (raw : Raw) (fields : list (string * json))
          (nonce pk : string) (ciphers hashes : list json) (secret : Buffer),
      consumer_reachable w ->
      SecureConsumer.isHandshakeConfirmed (this w) = true ->
      delivers raw (JObj fields) ->
      assoc "type" fields = Some (JStr "handshake-init") ->
      assoc "version" fields = Some (JNum 1) ->
      assoc "supportedCiphers" fields = Some (JArr ciphers) ->
      assoc "supportedHashes" fields = Some (JArr hashes) ->
      In (JStr "aes-256-gcm") ciphers ->
      In (JStr "sha256") hashes ->
      assoc "providerNonce" fields = Some (JStr nonce) ->
      assoc "publicKey" fields = Some (JStr pk) ->
      computeSecret (SecureConsumer.ecdh (this w)) (fromBase64 pk) = Some secret ->
      let salt := fromBase64 nonce
                  ++ deref (heap w)
                       (SecureConsumer.consumerNonce
                          (SecureConsumer.handshakeState (this w))) in
      exists resp w' k,
        SecureConsumer.handleMessage raw w
        = (ok (SecureConsumer.mkResult "handshake-response" (Some resp) false None), w')
        /\ SecureConsumer.isHandshakeConfirmed (this w') = true
        /\ SecureConsumer.getDerivedKeys (this w') = Some k
        /\ (length (heap w) <= Exposed.encryptionKey k)%nat
        /\ (length (heap w) <= Exposed.authenticationKey k)%nat
        /\ deref (heap w') (Exposed.encryptionKey k)
           = kdf secret salt "SubtylSocket-Encryption"
        /\ deref (heap w') (Exposed.authenticationKey k)
           = kdf secret salt "SubtylSocket-Authentication")
  /\ (forall (w : World (SecureProvider.t ECDH)) (raw : Raw) (fields : list (string * json))
            (nonce pk : string) (secret : Buffer),
        provider_reachable w ->
        SecureProvider.isHandshakeConfirmed (this w) = true ->
        delivers raw (JObj fields) ->
        assoc "type" fields = Some (JStr "handshake-response") ->
        assoc "sessionId" fields = Some (JStr (SecureProvider.getSessionId (this w))) ->
        assoc "consumerNonce" fields = Some (JStr nonce) ->
        assoc "publicKey" fields = Some (JStr pk) ->
        computeSecret (SecureProvider.ecdh (this w)) (fromBase64 pk) = Some secret ->
        let salt := deref (heap w)
                      (SecureProvider.providerNonce
                         (SecureProvider.handshakeState (this w)))
                    ++ fromBase64 nonce in
        exists mac w' k,
          SecureProvider.handleResponse raw w
          = (ok (SecureProvider.mkResult "send-confirmation" false None (Some mac)), w')
          /\ SecureProvider.isHandshakeConfirmed (this w') = true
          /\ SecureProvider.getDerivedKeys (this w') = Some k
          /\ (length (heap w) <= Exposed.encryptionKey k)%nat
          /\ (length (heap w) <= Exposed.authenticationKey k)%nat
          /\ deref (heap w') (Exposed.encryptionKey k)
             = kdf secret salt "SubtylSocket-Encryption"
          /\ deref (heap w') (Exposed.authenticationKey k)
             = kdf secret salt "SubtylSocket-Authentication").
Proof.
  split.
  - intros w raw fields nonce pk ciphers hashes secret R Hcf D Hty Hv Hc Hh Hic Hih Hn Hpk Hs.
    destruct (consumer_reachable_ok w R) as (_ & _ & Hnonce).
    destruct (consumer_rekeys w raw fields nonce pk ciphers hashes secret
                D Hty Hv Hc Hh Hic Hih Hn Hpk Hs Hnonce)
      as (resp & w' & Hrun & Hcf' & Hdk & He & Ha).
    exists resp, w', (Exposed.mk (length (heap w) + 3) (length (heap w) + 4)).
    unfold SecureConsumer.getDerivedKeys.
    unfold SecureConsumer.isHandshakeConfirmed in *. rewrite Hdk, Hcf', Hcf. cbn.
    repeat split; try assumption; lia.
  - intros w raw fields nonce pk secret R Hcf D Hty Hsid Hn Hpk Hs.
    destruct (provider_reachable_ok w R) as (_ & _ & Hnonce).
    destruct (provider_rekeys w raw fields nonce pk secret D Hty Hsid Hn Hpk Hs Hnonce)
      as (mac & w' & Hrun & Hcf' & Hdk & He & Ha).
    exists mac, w', (Exposed.mk (length (heap w) + 2) (length (heap w) + 3)).
    unfold SecureProvider.getDerivedKeys.
    unfold SecureProvider.isHandshakeConfirmed in *. rewrite Hdk, Hcf', Hcf. cbn.
    repeat split; try assumption; lia.
Qed.

(** X15. A message can be rejected after it has been stored. A
    handshake-init that passes the version and algorithm checks but whose
    public key [computeSecret] rejects gets an error result, yet the consumer
    has by then taken the message's session id, nonce and public key; its
    shared secret, derived keys and confirmed flag are the old ones. A
    handshake-response with the provider's session id and such a public key
    gets an error result and has replaced the provider's stored consumer
    nonce. *)
Theorem rejected_key_is_stored `{rt : Runtime} :
  (forall (w : World (SecureConsumer.t ECDH)) (raw : Raw) (fields : list (string * json))
          (nonce pk : string) (ciphers hashes : list json),
      delivers raw (JObj fields) ->
      assoc "type" fields = Some (JStr "handshake-init") ->
      assoc "version" fields = Some (JNum 1) ->
      assoc "supportedCiphers" fields = Some (JArr ciphers) ->
      assoc "supportedHashes" fields = Some (JArr hashes) ->
      In (JStr "aes-256-gcm") ciphers ->
      In (JStr "sha256") hashes ->
      assoc "providerNonce" fields = Some (JStr nonce) ->
      assoc "publicKey" fields = Some (JStr pk) ->
      computeSecret (SecureConsumer.ecdh (this w)) (fromBase64 pk) = None ->
      let w' := snd (SecureConsumer.handleMessage raw w) in
      let s := SecureConsumer.handshakeState (this w) in
      let s' := SecureConsumer.handshakeState (this w') in
      (exists msg,
          fst (SecureConsumer.handleMessage raw w)
          = ok (SecureConsumer.mkResult "error" None false (Some msg)))
      /\ SecureConsumer.getSessionId (this w') = assoc "sessionId" fields
      /\ (exists r, SecureConsumer.providerNonce s' = Some r
                    /\ (length (heap w) <= r)%nat
                    /\ deref (heap w') r = fromBase64 nonce)
      /\ (exists r, SecureConsumer.providerPublicKey s' = Some r
                    /\ (length (heap w) <= r)%nat
                    /\ deref (heap w') r = fromBase64 pk)
      /\ SecureConsumer.sharedSecret s' = SecureConsumer.sharedSecret s
      /\ SecureConsumer.derivedKeys s' = SecureConsumer.derivedKeys s
      /\ SecureConsumer.confirmed s' = SecureConsumer.confirmed s)
  /\ (forall (w : World (SecureProvider.t ECDH)) (raw : Raw) (fields : list (string * json))
            (nonce pk : string),
        delivers raw (JObj fields) ->
        assoc "type" fields = Some (JStr "handshake-response") ->
        assoc "sessionId" fields = Some (JStr (SecureProvider.getSessionId (this w))) ->
        assoc "consumerNonce" fields = Some (JStr nonce) ->
        assoc "publicKey" fields = Some (JStr pk) ->
        computeSecret (SecureProvider.ecdh (this w)) (fromBase64 pk) = None ->
        let w' := snd (SecureProvider.handleResponse raw w) in
        let s := SecureProvider.handshakeState (this w) in
        let s' := SecureProvider.handshakeState (this w') in
        (exists msg,
            fst (SecureProvider.handleResponse raw w)
            = ok (SecureProvider.mkResult "error" false (Some msg) None))
        /\ (exists r, SecureProvider.consumerNonce s' = Some r
                      /\ (length (heap w) <= r)%nat
                      /\ deref (heap w') r = fromBase64 nonce)
        /\ SecureProvider.sharedSecret s' = SecureProvider.sharedSecret s
        /\ SecureProvider.derivedKeys s' = SecureProvider.derivedKeys s
        /\ SecureProvider.confirmed s' = SecureProvider.confirmed s).
Proof.
  split.
  - intros w raw fields nonce pk ciphers hashes D Hty Hv Hc Hh Hic Hih Hn Hpk Hs.
    cbv zeta.
    rewrite (consumer_rejected_key w raw fields nonce pk ciphers hashes
               D Hty Hv Hc Hh Hic Hih Hn Hpk Hs).
    cbn [fst snd heap this]. split; [eauto|]. split; [reflexivity|].
    split; [exists (length (heap w)); split; [reflexivity|]; split; [lia|];
            unfold deref; now rewrite lookup_fresh0|].
    split; [exists (S (length (heap w))); split; [reflexivity|]; split; [lia|];
            unfold deref; replace (S (length (heap w))) with (length (heap w) + 1)%nat by lia;
            now rewrite lookup_fresh|].
    repeat split.
  - intros w raw fields nonce pk D Hty Hsid Hn Hpk Hs. cbv zeta.
    rewrite (provider_rejected_key w raw fields nonce pk D Hty Hsid Hn Hpk Hs).
    cbn [fst snd heap this]. split; [eauto|].
    split; [exists (length (heap w)); split; [reflexivity|]; split; [lia|];
            unfold deref; now rewrite lookup_fresh0|].
    repeat split.
Qed.

(** X16. What is refused before anything is stored. A text that is not
    JSON gets the error "Invalid message format" from either peer. A
    handshake-init whose version is not the number 1 gets "Unsupported
    protocol version"; one with version 1 whose supportedCiphers does not
    include "aes-256-gcm", or whose supportedHashes does not include "sha256",
    gets "Unsupported cryptographic algorithms". In each case the peer is left
    exactly as it was. *)
Theorem refused_before_storing `{rt : Runtime} :
  (forall (s : string) (w : World (SecureConsumer.t ECDH)),
      JSON_parse s = None ->
      SecureConsumer.handleMessage (RawString s) w
      = (ok (SecureConsumer.mkResult "error" None false (Some "Invalid message format")), w))
  /\ (forall (s : string) (w : World (SecureProvider.t ECDH)),
        JSON_parse s = None ->
        SecureProvider.handleResponse (RawString s) w
        = (ok (SecureProvider.mkResult "error" false (Some "Invalid message format") None), w))
  /\ (forall (w : World (SecureConsumer.t ECDH)) (raw : Raw) (fields : list (string * json)),
        delivers raw (JObj fields) ->
        assoc "type" fields = Some (JStr "handshake-init") ->
        assoc "version" fields <> Some (JNum 1) ->
        SecureConsumer.handleMessage raw w
        = (ok (SecureConsumer.mkResult "error" None false
                 (Some "Unsupported protocol version")), w))
  /\ (forall (w : World (SecureConsumer.t ECDH)) (raw : Raw) (fields : list (string * json)),
        delivers raw (JObj fields) ->
        assoc "type" fields = Some (JStr "handshake-init") ->
        assoc "version" fields = Some (JNum 1) ->
        opt_includes (assoc "supportedCiphers" fields) "aes-256-gcm" = ok false
        \/ (opt_includes (assoc "supportedCiphers" fields) "aes-256-gcm" = ok true
            /\ opt_includes (assoc "supportedHashes" fields) "sha256" = ok false) ->
        SecureConsumer.handleMessage raw w
        = (ok (SecureConsumer.mkResult "error" None false
                 (Some "Unsupported cryptographic algorithms")), w)).
Proof.
  split; [|split; [|split]].
  - intros s w Hp. unfold_js. cbn. rewrite Hp. reflexivity.
  - intros s w Hp. unfold_js. cbn. rewrite Hp. reflexivity.
  - intros w raw fields D Hty Hv.
    now destruct (consumer_init_validation w raw fields D Hty) as [H _]; apply H.
  - intros w raw fields D Hty Hv Halg.
    now destruct (consumer_init_validation w raw fields D Hty) as [_ H]; apply H.
Qed.

(** X17. [startHandshake] sends the same init message at every call and
    changes nothing; it also works on a destroyed provider, and then sends the
    old session id and public key with a nonce of zeros. *)
Theorem startHandshake_after_destroy `{rt : Runtime} (w : World (SecureProvider.t ECDH)) :
  let s := SecureProvider.handshakeState (this w) in
  let pk := getPublicKey (SecureProvider.ecdh (this w)) in
  SecureProvider.startHandshake w
  = (ok (JSON_stringify
           (SecureProvider.initMessage (SecureProvider.sessionId s) pk
              (deref (heap w) (SecureProvider.providerNonce s)))), w)
  /\ fst (SecureProvider.startHandshake (snd (SecureProvider.destroy w)))
     = ok (JSON_stringify
             (SecureProvider.initMessage (SecureProvider.sessionId s) pk
                (zeros (length (deref (heap w) (SecureProvider.providerNonce s)))))).
Proof.
  cbv zeta. split; [reflexivity|].
  rewrite provider_destroy_eq. destruct w as [h [e [sid pn cn ss dk cf]]].
  unfold SecureProvider.startHandshake, bind, get, read, ret. cbn.
  rewrite deref_scrub; [reflexivity|].
  unfold provider_secrets. cbn. rewrite !elem_of_app. right. right.
  apply list_elem_of_here.
Qed.

(** ** Keys handed out earlier *)


Section EarlierKeys.
Context `{rt : Runtime} {laws : RuntimeLaws rt}.

Local Arguments HKDF.derive : simpl never.
Local Arguments createContextInfo : simpl never.










End EarlierKeys.


(** X10. The handshake and the envelope fit together. After an honest run,
    a [MessageEncryptionPlugin] built on the provider's [getDerivedKeys()]
    seals a message that the plugin built on the consumer's
    [getDerivedKeys()] opens: [processIncomingMessage] there returns what the
    sealed plaintext parses to, the message itself when it is not a string
    and JSON gives it back. *)
Theorem handshake_keys_carry_messages `{rt : Runtime} (laws : RuntimeLaws rt)
  (seal : Buffer -> Buffer -> string -> result (Buffer * Buffer))
  (open : Buffer -> Buffer -> Buffer -> Buffer -> option string)
  (gcm : GcmLaws seal open)
  (randomBytes : nat -> Buffer)
  (randomBytes_length : forall n, length (randomBytes n) = n)
  (base64_empty : fromBase64 EmptyString = [])
  (eP eC : ECDH) (rndP rndC : nat -> Buffer)
  (p0 : World (SecureProvider.t ECDH)) (c0 : World (SecureConsumer.t ECDH)) (secret : Buffer)
  (fresh_provider : SecureProvider.new eP rndP = ok p0)
  (fresh_consumer : SecureConsumer.new eC rndC = ok c0)
  (ecdh_provider : computeSecret eP (getPublicKey eC) = Some secret)
  (ecdh_consumer : computeSecret eC (getPublicKey eP) = Some secret)
  (init_parses :
     JSON_parse (JSON_stringify
                   (SecureProvider.initMessage (toBase64 (rndP 16%nat)) (getPublicKey eP)
                      (rndP 32%nat)))
     = Some (SecureProvider.initMessage (toBase64 (rndP 16%nat)) (getPublicKey eP)
               (rndP 32%nat)))
  (tr : Transcript ECDH) (kp kc : Exposed.keys)
  (run : honest_run p0 c0 = Some tr)
  (provider_keys : SecureProvider.getDerivedKeys (this (provider_done tr)) = Some kp)
  (consumer_keys : SecureConsumer.getDerivedKeys (this (consumer_done tr)) = Some kc)
  (m : json) :
  let sender := plugin_on (provider_done tr) kp in
  let receiver := plugin_on (consumer_done tr) kc in
  exists c t,
    let env := BaseEncryptionPlugin.pluginMessage "aes-256-gcm"
                 (MessageEncryptionPlugin.AESGCMResult c (randomBytes 12) t) in
    seal (deref (heap (provider_done tr)) (Exposed.encryptionKey kp)) (randomBytes 12)
      (BaseEncryptionPlugin.messageStr_of m) = ok (c, t)
    /\ BaseEncryptionPlugin.processOutgoingMessage
         (MessageEncryptionPlugin.encrypt seal randomBytes) m sender
       = (ok (JSON_stringify env), sender)
    /\ (JSON_parse (JSON_stringify env) = Some env ->
        BaseEncryptionPlugin.processIncomingMessage (MessageEncryptionPlugin.decrypt open)
          (JSON_stringify env) receiver
        = (ok (match JSON_parse (BaseEncryptionPlugin.messageStr_of m) with
               | Some v => v
               | None => JStr (JSON_stringify env)
               end), receiver)).
Proof.
  destruct (honest_run_facts eP eC rndP rndC p0 c0 secret fresh_provider fresh_consumer
              ecdh_provider ecdh_consumer init_parses)
    as (tr' & Hrun & _ & _ & _ & _ & _ & Hp & Hc).
  rewrite run in Hrun. injection Hrun as <-.
  set (kE := kdf secret (rndP 32%nat ++ rndC 32%nat) "SubtylSocket-Encryption") in *.
  set (kA := kdf secret (rndP 32%nat ++ rndC 32%nat) "SubtylSocket-Authentication") in *.
  rewrite Hp in provider_keys. injection provider_keys as <-.
  rewrite Hc in consumer_keys. injection consumer_keys as <-.
  cbv zeta.
  assert (Sp : plugin_on (provider_done tr) (Exposed.mk 3 4)
               = mkWorld (heap (provider_done tr))
                   (MessageEncryptionPlugin.new (Some (BaseEncryptionPlugin.mkKeys kE kA)))).
  { rewrite Hp. reflexivity. }
  assert (Sc : plugin_on (consumer_done tr) (Exposed.mk 4 5)
               = mkWorld (heap (consumer_done tr))
                   (MessageEncryptionPlugin.new (Some (BaseEncryptionPlugin.mkKeys kE kA)))).
  { rewrite Hc. reflexivity. }
  assert (Ek : deref (heap (provider_done tr)) 3 = kE) by (rewrite Hp; reflexivity).
  destruct (outgoing_enabled seal open gcm randomBytes randomBytes_length
              (plugin_on (provider_done tr) (Exposed.mk 3 4))
              (BaseEncryptionPlugin.mkKeys kE kA) m)
    as (c & t & Es & Hout).
  { rewrite Sp. reflexivity. }
  { rewrite Sp. reflexivity. }
  { apply kdf_length. }
  exists c, t.
  cbn [Exposed.encryptionKey]. rewrite Ek.
  split; [exact Es|]. split; [rewrite Hout, Sp; reflexivity|].
  intros Hparse.
  apply (incoming_envelope seal open gcm randomBytes randomBytes_length base64_empty
           (plugin_on (consumer_done tr) (Exposed.mk 4 5))
           (BaseEncryptionPlugin.mkKeys kE kA)
           (BaseEncryptionPlugin.messageStr_of m) c t).
  - rewrite Sc. reflexivity.
  - rewrite Sc. reflexivity.
  - exact Es.
  - rewrite Sc. exact Hparse.
Qed.

Section Replay.
Context `{rt : Runtime}.

(** The confirmation step reads nothing that it writes: run again on the
    state it left, it ends the same way. *)
Lemma consumer_confirmation_again (data : json) (w : World (SecureConsumer.t ECDH))
  (resp : json) :
  fst (SecureConsumer.handleMessage (RawValue data) w)
  = ok (SecureConsumer.mkResult "key-confirmation" (Some resp) true None) ->
  let w' := snd (SecureConsumer.handleMessage (RawValue data) w) in
  w' = mkWorld (heap w) (SecureConsumer.set_confirmed true (this w))
  /\ SecureConsumer.handleMessage (RawValue data) w'
     = (ok (SecureConsumer.mkResult "key-confirmation" (Some resp) true None), w').
Proof.
  destruct w as [h [e [sid pn cn ss dk cf ppk]]].
  destruct data as [|b|n|s|items|fields]; try (unfold_js; cbn; discriminate).
  unfold_js. cbn.
  destruct (strict_eq_str (assoc "type" fields) "handshake-init") eqn:T1; cbn.
  - destruct (strict_eq_num (assoc "version" fields) 1); cbn; [|discriminate].
    destruct (opt_includes (assoc "supportedCiphers" fields) "aes-256-gcm") as [x|[|]];
      cbn; try discriminate.
    destruct (opt_includes (assoc "supportedHashes" fields) "sha256") as [x|[|]];
      cbn; try discriminate.
    destruct (Buffer_from_base64 (assoc "providerNonce" fields)) as [x|pnBuf];
      cbn; [discriminate|].
    destruct (Buffer_from_base64 (assoc "publicKey" fields)) as [x|pkBuf];
      cbn; [discriminate|].
    destruct (computeSecret e pkBuf) as [secret|]; cbn; [|discriminate].
    repeat match goal with
      | |- context [HKDF.derive ?a ?b ?c ?d] => destruct (HKDF.derive a b c d); cbn
      end; discriminate.
  - destruct (strict_eq_str (assoc "type" fields) "key-confirmation-request") eqn:T2; cbn;
      [|discriminate].
    destruct (Buffer_from_base64 (assoc "confirmationMac" fields)) as [x|mac];
      cbn; [discriminate|].
    destruct pn as [pn|]; cbn; [|discriminate].
    destruct ppk as [ppk|]; cbn; [|discriminate].
    destruct dk as [dk|]; cbn; [|discriminate].
    destruct (constantTimeCompare _ _) eqn:Ec; cbn; [|discriminate].
    intros [= <-]. split; [reflexivity|].
    cbn. rewrite ?Ec. reflexivity.
Qed.

Lemma provider_confirmation_again (data : json) (w : World (SecureProvider.t ECDH)) :
  fst (SecureProvider.handleResponse (RawValue data) w)
  = ok (SecureProvider.mkResult "handshake-complete" true None None) ->
  let w' := snd (SecureProvider.handleResponse (RawValue data) w) in
  w' = mkWorld (heap w) (SecureProvider.set_confirmed true (this w))
  /\ SecureProvider.handleResponse (RawValue data) w'
     = (ok (SecureProvider.mkResult "handshake-complete" true None None), w').
Proof.
  destruct w as [h [e [sid pn cn ss dk cf]]].
  destruct data as [|b|n|s|items|fields]; try (unfold_js; cbn; discriminate).
  unfold_js. cbn.
  destruct (strict_eq_str (assoc "type" fields) "handshake-response") eqn:T1; cbn.
  - destruct (strict_eq_str (assoc "sessionId" fields) sid); cbn; [|discriminate].
    destruct (Buffer_from_base64 (assoc "consumerNonce" fields)) as [x|cnBuf];
      cbn; [discriminate|].
    destruct (Buffer_from_base64 (assoc "publicKey" fields)) as [x|pkBuf];
      cbn; [discriminate|].
    destruct (computeSecret e pkBuf) as [secret|]; cbn; [|discriminate].
    repeat match goal with
      | |- context [HKDF.derive ?a ?b ?c ?d] => destruct (HKDF.derive a b c d); cbn
      end; discriminate.
  - destruct (strict_eq_str (assoc "type" fields) "key-confirmation") eqn:T2; cbn;
      [|discriminate].
    destruct (Buffer_from_base64 (assoc "confirmationMac" fields)) as [x|mac];
      cbn; [discriminate|].
    destruct (Buffer_from_base64 (assoc "publicKey" fields)) as [x|pkBuf];
      cbn; [discriminate|].
    destruct cn as [cn|]; cbn; [|discriminate].
    destruct dk as [dk|]; cbn; [|discriminate].
    destruct (constantTimeCompare _ _) eqn:Ec; cbn; [|discriminate].
    intros _. split; [reflexivity|].
    cbn. rewrite ?Ec. reflexivity.
Qed.

End Replay.

(** X19. There is no replay protection in the confirmation step. A
    KEY_CONFIRM_REQUEST that a consumer has accepted is accepted again when it
    is delivered again, with the same KEY_CONFIRMATION as answer and no change
    of state; and a KEY_CONFIRMATION that a provider has accepted is accepted
    again. *)
Theorem confirmation_replay_accepted `{rt : Runtime} :
  (forall (raw : Raw) (m resp : json) (w : World (SecureConsumer.t ECDH)),
      delivers raw m ->
      fst (SecureConsumer.handleMessage raw w)
      = ok (SecureConsumer.mkResult "key-confirmation" (Some resp) true None) ->
      let w' := snd (SecureConsumer.handleMessage raw w) in
      SecureConsumer.handleMessage raw w'
      = (ok (SecureConsumer.mkResult "key-confirmation" (Some resp) true None), w'))
  /\ (forall (raw : Raw) (m : json) (w : World (SecureProvider.t ECDH)),
        delivers raw m ->
        fst (SecureProvider.handleResponse raw w)
        = ok (SecureProvider.mkResult "handshake-complete" true None None) ->
        let w' := snd (SecureProvider.handleResponse raw w) in
        SecureProvider.handleResponse raw w'
        = (ok (SecureProvider.mkResult "handshake-complete" true None None), w')).
Proof.
  split.
  - intros raw m resp w D. cbv zeta.
    rewrite (consumer_delivery raw m w D).
    rewrite (consumer_delivery raw m _ D).
    intros H. now destruct (consumer_confirmation_again m w resp H).
  - intros raw m w D. cbv zeta.
    rewrite (provider_delivery raw m w D).
    rewrite (provider_delivery raw m _ D).
    intros H. now destruct (provider_confirmation_again m w H).
Qed.

(** ** The new properties on the reference runs *)

Section ReferenceRuns.
#[local] Existing Instance reference_runtime.

Lemma rndX_length (n : nat) : length (Fixture.rndX n) = n.
Proof. unfold Fixture.rndX. now rewrite length_map, length_seq. Qed.

Lemma reference_base64_empty : fromBase64 EmptyString = [].
Proof. reflexivity. Qed.

Lemma fixture_consumer_reachable : consumer_reachable Fixture.c2.
Proof.
  unfold Fixture.c2, Fixture.c1. apply consumer_handleMessage, consumer_handleMessage.
  apply (consumer_new Fixture.eC Fixture.rndC). vm_compute. reflexivity.
Qed.

Lemma fixture_provider_reachable : provider_reachable Fixture.p2.
Proof.
  unfold Fixture.p2, Fixture.p1. apply provider_handleResponse, provider_handleResponse.
  apply (provider_new Fixture.eP Fixture.rndP). vm_compute. reflexivity.
Qed.

Lemma HKDF_derive_output_witness :
  (forall key data, length (hmac_sha256 key data) = 32%nat)
  /\ (exists okm,
        HKDF.derive (utf8 "ikm") (utf8 "salt") (utf8 "info") 42 = ok okm
        /\ Z.of_nat (length okm) = 42%Z)
  /\ HKDF.derive (utf8 "ikm") (utf8 "salt") (utf8 "info") (-5) = ok [].
Proof.
  split; [exact reference_hmac_length|]. split.
  - destruct (HKDF_derive_output (rt := reference_runtime) reference_hmac_length
                (utf8 "ikm") (utf8 "salt") (utf8 "info") 42) as [H _].
    destruct H as (okm & H1 & H2 & _); [lia|]. exists okm. exact (conj H1 H2).
  - destruct (HKDF_derive_output (rt := reference_runtime) reference_hmac_length
                (utf8 "ikm") (utf8 "salt") (utf8 "info") (-5)) as [_ H].
    apply H. lia.
Defined.

Lemma HKDF_derive_prefix_witness :
  (forall key data, length (hmac_sha256 key data) = 32%nat)
  /\ ((0 <= 16 <= 42)%Z /\ (42 <= 8160)%Z)
  /\ exists okm1 okm2,
       HKDF.derive (utf8 "ikm") (utf8 "salt") (utf8 "info") 16 = ok okm1
       /\ HKDF.derive (utf8 "ikm") (utf8 "salt") (utf8 "info") 42 = ok okm2
       /\ okm1 = firstn 16 okm2.
Proof.
  split; [exact reference_hmac_length|].
  assert (R : (0 <= 16 <= 42)%Z /\ (42 <= 8160)%Z) by lia.
  split; [exact R|].
  exact (HKDF_derive_prefix (rt := reference_runtime) reference_hmac_length
           (utf8 "ikm") (utf8 "salt") (utf8 "info") 16 42 R).
Defined.

Lemma crypto_utils_decrypt_encrypt_witness :
  length (Fixture.rndP 32) = 32%nat
  /\ exists s,
       crypto_utils.encrypt ToyGCM.seal Fixture.rndP "attack at dawn"
         (Fixture.rndP 32) (Fixture.rndC 32) = ok s
       /\ crypto_utils.decrypt ToyGCM.open s (Fixture.rndP 32) (Fixture.rndC 32)
          = ok "attack at dawn".
Proof.
  destruct fixture_rnd_length as [Lp _].
  split; [apply Lp|].
  destruct (crypto_utils_decrypt_encrypt reference_laws ToyGCM.seal ToyGCM.open
              toy_gcm_laws Fixture.rndP Lp "attack at dawn"
              (Fixture.rndP 32) (Fixture.rndC 32)) as [Hback Hruns].
  destruct Hruns as [s Hs].
  - apply Lp.
  - vm_compute. reflexivity.
  - vm_compute. reflexivity.
  - exists s. exact (conj Hs (Hback s Hs)).
Defined.

Lemma plugin_envelope_roundtrip_witness :
  BaseEncryptionPlugin.keys (this Demo.sender)
  = Some (BaseEncryptionPlugin.mkKeys (Fixture.rndP 32) (Fixture.rndC 32))
  /\ BaseEncryptionPlugin.enabled (this Demo.sender) = true
  /\ length (Fixture.rndP 32) = 32%nat
  /\ exists text,
       BaseEncryptionPlugin.processOutgoingMessage
         (MessageEncryptionPlugin.encrypt ToyGCM.seal Fixture.rndX) Demo.chat Demo.sender
       = (ok text, Demo.sender)
       /\ BaseEncryptionPlugin.processIncomingMessage
            (MessageEncryptionPlugin.decrypt ToyGCM.open) text Demo.sender
          = (ok Demo.chat, Demo.sender).
Proof.
  destruct fixture_rnd_length as [Lp _].
  split; [reflexivity|]. split; [reflexivity|]. split; [apply Lp|].
  destruct (plugin_envelope_roundtrip reference_laws ToyGCM.seal ToyGCM.open toy_gcm_laws
              Fixture.rndX rndX_length reference_base64_empty Demo.sender
              (BaseEncryptionPlugin.mkKeys (Fixture.rndP 32) (Fixture.rndC 32)) Demo.chat
              eq_refl eq_refl (Lp 32%nat))
    as (c & t & Es & Hout & Hin).
  match type of Es with
  | ?sealed = _ =>
      assert (F : exists c0 t0,
                 sealed = ok (c0, t0)
                 /\ let env := BaseEncryptionPlugin.pluginMessage "aes-256-gcm"
                                 (MessageEncryptionPlugin.AESGCMResult c0
                                    (Fixture.rndX 12) t0) in
                    JSON_parse (JSON_stringify env) = Some env)
  end.
  { do 2 eexists. split; [vm_compute; reflexivity|]. vm_compute. reflexivity. }
  destruct F as (c0 & t0 & Es0 & Hparse).
  rewrite Es0 in Es. injection Es as <- <-.
  eexists. split; [exact Hout|].
  destruct (Hin Hparse) as [_ Hback].
  apply Hback; [discriminate | vm_compute; reflexivity].
Defined.

Lemma unwrap_wrap_witness :
  (forall k, BaseEncryptionPlugin.keys (this Demo.sender) = Some k ->
             length (BaseEncryptionPlugin.encryptionKey k) = 32%nat)
  /\ exists text,
       BaseEncryptionPlugin.wrapMessage
         (MessageEncryptionPlugin.encrypt ToyGCM.seal Fixture.rndX)
         "chat" (Some (JStr "hello")) true Demo.sender
       = (ok text, Demo.sender)
       /\ BaseEncryptionPlugin.unwrapMessage (MessageEncryptionPlugin.decrypt ToyGCM.open)
            text Demo.sender
          = (ok (Some (BaseEncryptionPlugin.mkUnwrapped (JStr "chat") (JStr "hello"))),
             Demo.sender).
Proof.
  destruct fixture_rnd_length as [Lp _].
  assert (Hk : forall k, BaseEncryptionPlugin.keys (this Demo.sender) = Some k ->
                         length (BaseEncryptionPlugin.encryptionKey k) = 32%nat).
  { intros k [= <-]. apply Lp. }
  split; [exact Hk|].
  destruct (unwrap_wrap reference_laws ToyGCM.seal ToyGCM.open toy_gcm_laws
              Fixture.rndX rndX_length reference_base64_empty Demo.sender
              "chat" (Some (JStr "hello")) true Hk)
    as (sent & Hout & Hsent & Hin).
  change (true && BaseEncryptionPlugin.isEnabled (this Demo.sender)) with true in Hsent.
  destruct Hsent as (k & c & t & Ek & Es & ->). injection Ek as <-.
  match type of Es with
  | ?sealed = _ =>
      assert (F : exists c0 t0,
                 sealed = ok (c0, t0)
                 /\ let env := BaseEncryptionPlugin.pluginMessage "aes-256-gcm"
                                 (MessageEncryptionPlugin.AESGCMResult c0
                                    (Fixture.rndX 12) t0) in
                    JSON_parse (JSON_stringify env) = Some env)
  end.
  { do 2 eexists. split; [vm_compute; reflexivity|]. vm_compute. reflexivity. }
  destruct F as (c0 & t0 & Es0 & Hparse).
  rewrite Es0 in Es. injection Es as <- <-.
  eexists. split; [exact Hout|].
  apply Hin; [exact Hparse | vm_compute; reflexivity].
Defined.

Lemma handshake_keys_carry_messages_witness :
  SecureProvider.new Fixture.eP Fixture.rndP = ok Fixture.p0
  /\ SecureConsumer.new Fixture.eC Fixture.rndC = ok Fixture.c0
  /\ exists text,
       BaseEncryptionPlugin.processOutgoingMessage
         (MessageEncryptionPlugin.encrypt ToyGCM.seal Fixture.rndX) Demo.chat
         (plugin_on Fixture.p2 (Exposed.mk 3 4))
       = (ok text, plugin_on Fixture.p2 (Exposed.mk 3 4))
       /\ BaseEncryptionPlugin.processIncomingMessage
            (MessageEncryptionPlugin.decrypt ToyGCM.open) text
            (plugin_on Fixture.c2 (Exposed.mk 4 5))
          = (ok Demo.chat, plugin_on Fixture.c2 (Exposed.mk 4 5)).
Proof.
  assert (Hp : SecureProvider.new Fixture.eP Fixture.rndP = ok Fixture.p0)
    by (vm_compute; reflexivity).
  assert (Hc : SecureConsumer.new Fixture.eC Fixture.rndC = ok Fixture.c0)
    by (vm_compute; reflexivity).
  assert (Sp : computeSecret Fixture.eP (getPublicKey Fixture.eC) = Some Fixture.secret)
    by (vm_compute; reflexivity).
  assert (Sc : computeSecret Fixture.eC (getPublicKey Fixture.eP) = Some Fixture.secret)
    by (vm_compute; reflexivity).
  assert (Hi : JSON_parse (JSON_stringify
                 (SecureProvider.initMessage (toBase64 (Fixture.rndP 16))
                    (getPublicKey Fixture.eP) (Fixture.rndP 32)))
               = Some (SecureProvider.initMessage (toBase64 (Fixture.rndP 16))
                         (getPublicKey Fixture.eP) (Fixture.rndP 32)))
    by (vm_compute; reflexivity).
  assert (Ep : SecureProvider.getDerivedKeys
                 (this (provider_done
                          (mkTranscript Fixture.init_text Fixture.response Fixture.request
                             Fixture.confirmation Fixture.p1 Fixture.c1 Fixture.p2
                             Fixture.c2)))
               = Some (Exposed.mk 3 4))
    by (vm_compute; reflexivity).
  assert (Ec : SecureConsumer.getDerivedKeys
                 (this (consumer_done
                          (mkTranscript Fixture.init_text Fixture.response Fixture.request
                             Fixture.confirmation Fixture.p1 Fixture.c1 Fixture.p2
                             Fixture.c2)))
               = Some (Exposed.mk 4 5))
    by (vm_compute; reflexivity).
  split; [exact Hp|]. split; [exact Hc|].
  pose proof (handshake_keys_carry_messages reference_laws ToyGCM.seal ToyGCM.open
                toy_gcm_laws Fixture.rndX rndX_length reference_base64_empty
                Fixture.eP Fixture.eC Fixture.rndP Fixture.rndC Fixture.p0 Fixture.c0
                Fixture.secret Hp Hc Sp Sc Hi _ _ _ fixture_run Ep Ec Demo.chat) as H.
  cbv zeta in H. cbn [provider_done consumer_done] in H.
  destruct H as (c & t & Es & Hout & Hin).
  match type of Es with
  | ?sealed = _ =>
      assert (F : exists c0 t0,
                 sealed = ok (c0, t0)
                 /\ let env := BaseEncryptionPlugin.pluginMessage "aes-256-gcm"
                                 (MessageEncryptionPlugin.AESGCMResult c0
                                    (Fixture.rndX 12) t0) in
                    JSON_parse (JSON_stringify env) = Some env)
  end.
  { do 2 eexists. split; [vm_compute; reflexivity|]. vm_compute. reflexivity. }
  destruct F as (c0 & t0 & Es0 & Hparse).
  rewrite Es0 in Es. injection Es as <- <-.
  assert (Em : JSON_parse (BaseEncryptionPlugin.messageStr_of Demo.chat) = Some Demo.chat)
    by (vm_compute; reflexivity).
  rewrite Em in Hin.
  eexists. split; [exact Hout | exact (Hin Hparse)].
Defined.

Lemma confirmed_iff_keys_witness :
  provider_reachable Fixture.p2
  /\ SecureProvider.getDerivedKeys (this Fixture.p2) = Some (Exposed.mk 3 4)
  /\ SecureProvider.isHandshakeConfirmed (this Fixture.p2) = true
  /\ length (deref (heap Fixture.p2) 3) = 32%nat
  /\ length (deref (heap Fixture.p2) 4) = 32%nat.
Proof.
  pose proof fixture_provider_reachable as R.
  assert (E : SecureProvider.getDerivedKeys (this Fixture.p2) = Some (Exposed.mk 3 4))
    by (vm_compute; reflexivity).
  destruct (confirmed_iff_keys reference_laws) as [HP _].
  destruct (HP Fixture.p2 R) as [Hiff Hlen].
  destruct (Hlen _ E) as [L1 L2].
  split; [exact R|]. split; [exact E|].
  split; [apply Hiff; rewrite E; discriminate|]. exact (conj L1 L2).
Defined.

Lemma error_results_keep_keys_witness :
  exists res,
    fst (SecureConsumer.handleMessage (RawValue Fixture.second_init) Fixture.c0) = ok res
    /\ fst (SecureProvider.handleResponse (RawValue Fixture.foreign_response) Fixture.p2)
       = ok (SecureProvider.mkResult "error" false (Some "Session ID mismatch") None)
    /\ SecureProvider.getDerivedKeys
         (this (snd (SecureProvider.handleResponse (RawValue Fixture.foreign_response)
                       Fixture.p2)))
       = SecureProvider.getDerivedKeys (this Fixture.p2).
Proof.
  destruct (error_results_keep_keys reference_laws) as [HP HC].
  destruct (HC (RawValue Fixture.second_init) Fixture.c0) as (res & Hres & _).
  exists res. split; [exact Hres|].
  destruct (HP (RawValue Fixture.foreign_response) Fixture.p2) as (res' & Hres' & Hkeep).
  assert (E : fst (SecureProvider.handleResponse (RawValue Fixture.foreign_response)
                     Fixture.p2)
              = ok (SecureProvider.mkResult "error" false (Some "Session ID mismatch") None))
    by (vm_compute; reflexivity).
  split; [exact E|].
  rewrite E in Hres'. injection Hres' as <-.
  apply (Hkeep eq_refl).
Defined.

Lemma rekeying_keeps_confirmed_witness :
  consumer_reachable Fixture.c2
  /\ SecureConsumer.isHandshakeConfirmed (this Fixture.c2) = true
  /\ exists resp w' k,
       SecureConsumer.handleMessage (RawValue Fixture.second_init) Fixture.c2
       = (ok (SecureConsumer.mkResult "handshake-response" (Some resp) false None), w')
       /\ SecureConsumer.isHandshakeConfirmed (this w') = true
       /\ SecureConsumer.getDerivedKeys (this w') = Some k
       /\ (length (heap Fixture.c2) <= Exposed.encryptionKey k)%nat.
Proof.
  pose proof fixture_consumer_reachable as R.
  assert (Hcf : SecureConsumer.isHandshakeConfirmed (this Fixture.c2) = true)
    by (vm_compute; reflexivity).
  split; [exact R|]. split; [exact Hcf|].
  assert (Hs : exists secret,
             computeSecret (SecureConsumer.ecdh (this Fixture.c2))
               (fromBase64 (toBase64 (getPublicKey Fixture.eX))) = Some secret).
  { vm_compute. eexists. reflexivity. }
  destruct Hs as [secret Hs].
  destruct (rekeying_keeps_confirmed reference_laws) as [HC _].
  destruct (HC Fixture.c2 (RawValue Fixture.second_init) _ _ _ _ _ secret R Hcf
              eq_refl eq_refl eq_refl eq_refl eq_refl
              (or_introl eq_refl) (or_introl eq_refl) eq_refl eq_refl Hs)
    as (resp & w' & k & H1 & H2 & H3 & H4 & _).
  exists resp, w', k. exact (conj H1 (conj H2 (conj H3 H4))).
Defined.

Lemma rejected_key_is_stored_witness :
  computeSecret (SecureConsumer.ecdh (this Fixture.c2))
    (fromBase64 (toBase64 (ToyDH.to_buffer 0))) = None
  /\ SecureConsumer.getSessionId
       (this (snd (SecureConsumer.handleMessage (RawValue Demo.bad_key_init) Fixture.c2)))
     = Some (JStr "another-session")
  /\ SecureConsumer.getDerivedKeys
       (this (snd (SecureConsumer.handleMessage (RawValue Demo.bad_key_init) Fixture.c2)))
     = SecureConsumer.getDerivedKeys (this Fixture.c2).
Proof.
  assert (Hs : computeSecret (SecureConsumer.ecdh (this Fixture.c2))
                 (fromBase64 (toBase64 (ToyDH.to_buffer 0))) = None)
    by (vm_compute; reflexivity).
  split; [exact Hs|].
  destruct (rejected_key_is_stored (rt := reference_runtime)) as [HC _].
  pose proof (HC Fixture.c2 (RawValue Demo.bad_key_init) _ _ _ _ _
                eq_refl eq_refl eq_refl eq_refl eq_refl
                (or_introl eq_refl) (or_introl eq_refl) eq_refl eq_refl Hs) as H.
  cbv zeta in H.
  set (w' := snd (SecureConsumer.handleMessage (RawValue Demo.bad_key_init) Fixture.c2)) in *.
  set (w := Fixture.c2) in *. clearbody w' w.
  destruct H as (_ & Hsid & _ & _ & Hss & Hdk & Hcf).
  split; [exact Hsid|].
  unfold SecureConsumer.getDerivedKeys. rewrite Hdk, Hcf. reflexivity.
Defined.


Lemma refused_before_storing_witness :
  JSON_parse "not json" = None
  /\ SecureConsumer.handleMessage (RawString "not json") Fixture.c2
     = (ok (SecureConsumer.mkResult "error" None false (Some "Invalid message format")),
        Fixture.c2).
Proof.
  assert (Hp : JSON_parse "not json" = None) by (vm_compute; reflexivity).
  split; [exact Hp|].
  destruct (refused_before_storing (rt := reference_runtime)) as [HC _].
  exact (HC "not json" Fixture.c2 Hp).
Defined.

Lemma confirmation_replay_accepted_witness :
  fst (SecureConsumer.handleMessage (RawValue Fixture.request) Fixture.c1)
  = ok (SecureConsumer.mkResult "key-confirmation" (Some Fixture.confirmation) true None)
  /\ SecureConsumer.handleMessage (RawValue Fixture.request)
       (snd (SecureConsumer.handleMessage (RawValue Fixture.request) Fixture.c1))
     = (ok (SecureConsumer.mkResult "key-confirmation" (Some Fixture.confirmation) true None),
        snd (SecureConsumer.handleMessage (RawValue Fixture.request) Fixture.c1)).
Proof.
  assert (H : fst (SecureConsumer.handleMessage (RawValue Fixture.request) Fixture.c1)
              = ok (SecureConsumer.mkResult "key-confirmation"
                      (Some Fixture.confirmation) true None))
    by (vm_compute; reflexivity).
  split; [exact H|].
  destruct (confirmation_replay_accepted (rt := reference_runtime)) as [HC _].
  exact (HC (RawValue Fixture.request) Fixture.request Fixture.confirmation Fixture.c1
           eq_refl H).
Defined.

Lemma constantTimeCompare_decides_witness :
  length (utf8 "mac") <> length (utf8 "longer mac")
  /\ constantTimeCompare (utf8 "mac") (utf8 "longer mac") = false
  /\ constantTimeCompare (utf8 "mac") (utf8 "mac") = true.
Proof.
  assert (L : length (utf8 "mac") <> length (utf8 "longer mac"))
    by (vm_compute; discriminate).
  split; [exact L|].
  destruct (constantTimeCompare_decides (utf8 "mac") (utf8 "longer mac")) as [_ Hlen].
  destruct (constantTimeCompare_decides (utf8 "mac") (utf8 "mac")) as [Hiff _].
  split; [exact (Hlen L) | apply Hiff; reflexivity].
Defined.

Lemma handlers_keep_identity_and_buffers_witness :
  (3 < length (heap Fixture.p2))%nat
  /\ deref (heap (snd (SecureProvider.handleResponse (RawValue Fixture.foreign_response)
                         Fixture.p2))) 3
     = deref (heap Fixture.p2) 3.
Proof.
  assert (L : (3 < length (heap Fixture.p2))%nat) by (vm_compute; lia).
  split; [exact L|].
  destruct (handlers_keep_identity_and_buffers (rt := reference_runtime)) as [HP _].
  destruct (HP (RawValue Fixture.foreign_response) Fixture.p2) as (_ & _ & _ & Hbuf).
  exact (Hbuf 3%nat L).
Defined.

End ReferenceRuns.
